(** * PublicVolume: mount, unmount and format of a public (removable) volume

    A shallow embedding of [PublicVolume] (vold, model/PublicVolume.cpp) and
    the properties of its mount pipeline, its teardown and its filesystem
    auto-selection.

    The member functions talk to the kernel and to the rest of vold all the
    time (mount, umount, fork, the volume manager, the log).  Every such call
    is an entry of the [Call] type; what it answers is decided by an
    environment [Env] that is a parameter of the whole development, and each
    call, with its answer, is appended to a trace.  A member function is a
    computation in a small monad that threads the volume object and the
    world, collects the trace and supports the early [return]s of the C++
    code. *)

From Stdlib Require Import ZArith List String Bool Lia DecimalString.
Import ListNotations.
Open Scope string_scope.
Open Scope Z_scope.
Open Scope list_scope.

Infix "+++" := String.append (right associativity, at level 60).

(** ** Constants of the platform headers *)

(** errno.h (Linux) and utils/Errors.h *)
Definition OK : Z := 0.
Definition EIO : Z := 5.
Definition EEXIST : Z := 17.
Definition EINVAL : Z := 22.
Definition ETIMEDOUT : Z := 110.

(** private/android_filesystem_config.h *)
Definition AID_ROOT : Z := 0.
Definition AID_MEDIA_RW : Z := 1023.
Definition AID_EXTERNAL_STORAGE : Z := 1077.

(** unistd.h, sys/mount.h *)
Definition R_OK : Z := 4.
Definition X_OK : Z := 1.
Definition MNT_DETACH : Z := 2.

Definition kSdcardFsPath : string := "/system/bin/sdcard".
Definition kAsecPath : string := "/mnt/secure/asec".

(** [std::to_string] on an integer. *)
Definition to_string (z : Z) : string := NilZero.string_of_int (Z.to_int z).

(** ** The volume object *)

(** The fields of the base class [VolumeBase] that [PublicVolume] reads or
    writes through its accessors.  [mListener] and [mMountCallback] say
    whether a listener, resp. a mount callback, is registered. *)
Record VolumeBase := mkVolumeBase {
  mId : string;
  mPath : string;
  mInternalPath : string;
  mMountFlags : Z;
  mMountUserId : Z;
  mListener : bool;
  mMountCallback : bool
}.

Record PublicVolume := mkPublicVolume {
  base : VolumeBase;
  mDevice : Z;
  mDevPath : string;
  mRawPath : string;
  mSdcardFsDefault : string;
  mSdcardFsRead : string;
  mSdcardFsWrite : string;
  mSdcardFsFull : string;
  mFsType : string;
  mFsUuid : string;
  mFsLabel : string;
  mFuseMounted : bool;
  mUseSdcardFs : bool
}.

Definition set_base (b : VolumeBase) (v : PublicVolume) : PublicVolume :=
  mkPublicVolume b (mDevice v) (mDevPath v) (mRawPath v) (mSdcardFsDefault v)
    (mSdcardFsRead v) (mSdcardFsWrite v) (mSdcardFsFull v) (mFsType v)
    (mFsUuid v) (mFsLabel v) (mFuseMounted v) (mUseSdcardFs v).

Definition set_mRawPath (x : string) (v : PublicVolume) : PublicVolume :=
  mkPublicVolume (base v) (mDevice v) (mDevPath v) x (mSdcardFsDefault v)
    (mSdcardFsRead v) (mSdcardFsWrite v) (mSdcardFsFull v) (mFsType v)
    (mFsUuid v) (mFsLabel v) (mFuseMounted v) (mUseSdcardFs v).

Definition set_mSdcardFs (d r w f : string) (v : PublicVolume) : PublicVolume :=
  mkPublicVolume (base v) (mDevice v) (mDevPath v) (mRawPath v) d r w f
    (mFsType v) (mFsUuid v) (mFsLabel v) (mFuseMounted v) (mUseSdcardFs v).

Definition set_metadata (t u l : string) (v : PublicVolume) : PublicVolume :=
  mkPublicVolume (base v) (mDevice v) (mDevPath v) (mRawPath v)
    (mSdcardFsDefault v) (mSdcardFsRead v) (mSdcardFsWrite v)
    (mSdcardFsFull v) t u l (mFuseMounted v) (mUseSdcardFs v).

Definition set_mFuseMounted (b : bool) (v : PublicVolume) : PublicVolume :=
  mkPublicVolume (base v) (mDevice v) (mDevPath v) (mRawPath v)
    (mSdcardFsDefault v) (mSdcardFsRead v) (mSdcardFsWrite v)
    (mSdcardFsFull v) (mFsType v) (mFsUuid v) (mFsLabel v) b (mUseSdcardFs v).

(** Modelled from the spec: the accessors of [VolumeBase] (VolumeBase.cpp is
    not part of the sources at hand) are plain reads and writes of the base
    fields. *)
Definition getId (v : PublicVolume) : string := mId (base v).
Definition getPath (v : PublicVolume) : string := mPath (base v).
Definition getInternalPath (v : PublicVolume) : string := mInternalPath (base v).
Definition getMountFlags (v : PublicVolume) : Z := mMountFlags (base v).
Definition getMountUserId (v : PublicVolume) : Z := mMountUserId (base v).

Definition setPath (p : string) (v : PublicVolume) : PublicVolume :=
  let b := base v in
  set_base (mkVolumeBase (mId b) p (mInternalPath b) (mMountFlags b)
              (mMountUserId b) (mListener b) (mMountCallback b)) v.

Definition setInternalPath (p : string) (v : PublicVolume) : PublicVolume :=
  let b := base v in
  set_base (mkVolumeBase (mId b) (mPath b) p (mMountFlags b)
              (mMountUserId b) (mListener b) (mMountCallback b)) v.

(** ** Calls that leave the object *)

Inductive Severity := DEBUG | INFO | WARNING | ERROR.

Inductive Call : Type :=
  (* logging *)
  | LOG (sev : Severity) (msg : string)
  | PLOG (sev : Severity) (msg : string)
  (* Utils.h *)
  | CreateDeviceNode (path : string) (dev : Z)
  | DestroyDeviceNode (path : string)
  | ReadMetadataUntrusted (path : string)
  | BindMount (source target : string)
  | ForceUnmount (path : string)
  | KillProcessesUsingPath (path : string)
  | PrepareDir (path : string) (mode uid gid : Z)
  | PrepareMountDirForUser (user : Z)
  | GetDevice (path : string)
  | GetBlockDevSize (path : string)
  | WipeBlockDevice (path : string)
  | MountUserFuse (user : Z) (absolute_lower_path relative_upper_path : string)
  | UnmountUserFuse (user : Z) (absolute_lower_path relative_upper_path : string)
  | ConfigureReadAheadForFuse (path : string) (size_kb : Z)
  | ConfigureMaxDirtyRatioForFuse (path : string) (ratio : Z)
  (* fs/Vfat.h, fs/Exfat.h *)
  | vfat_IsSupported
  | vfat_Check (source : string)
  | vfat_Mount (source target : string) (ro remount executable : bool)
               (ownerUid ownerGid permMask : Z) (createLost : bool)
  | vfat_Format (source : string) (numSectors : Z)
  | exfat_IsSupported
  | exfat_Check (source : string)
  | exfat_Mount (source target : string) (ownerUid ownerGid permMask : Z)
  | exfat_Format (source : string)
  (* VolumeManager *)
  | getStartedUsers
  | getSharedStorageUser (user : Z)
  (* listener and mount callback *)
  | onVolumeMetadataChanged (id fsType fsUuid fsLabel : string)
  | onVolumeChecking (path internalPath : string)
  (* libc and libcutils *)
  | fs_prepare_dir (path : string) (mode uid gid : Z)
  | access (path : string) (mode : Z)
  | rename (oldpath newpath : string)
  | mkdir (path : string) (mode : Z)
  | rmdir (path : string)
  | umount2 (path : string) (flags : Z)
  | fork
  | execl (path : string) (args : list string)
  | waitpid (pid : Z)
  | usleep (usec : Z)
  | systemTime
  | read_errno.

(** What a call answered. *)
Inductive Answer : Type :=
  | RUnit
  | RInt (r : Z)
  | RBool (b : bool)
  | RUsers (us : list Z)
  | RMeta (res : Z) (fsType fsUuid fsLabel : string)
  | RSize (res : Z) (size : Z).

Definition Entry : Type := Call * Answer.

(** ** The environment

    [World] is the state of everything outside the object.  A call returns
    its answer and the next world; the oracles are grouped by the type of the
    answer.  Reading [errno] is the call [read_errno] (the macro expands to
    a call of the C library).  The three last fields are
    declarations of headers that are not at hand: two [MountFlags] bits and
    the path function of Utils.h. *)
Record Env := mkEnv {
  World : Type;
  sys_int : Call -> World -> Z * World;
  sys_bool : Call -> World -> bool * World;
  sys_users : Call -> World -> list Z * World;
  sys_meta : Call -> World -> (Z * (string * string * string)) * World;
  sys_size : Call -> World -> (Z * Z) * World;
  kPrimary : Z;
  kVisibleForWrite : Z;
  GetFuseMountPathForUser : Z -> string -> string
}.

(** ** The monad *)

(** How a piece of a member function ends: it falls through to the next
    statement with a value, it executes [return r], it is the forked child
    and leaves through [execl] or [_exit], or the model ran out of fuel in
    the one unbounded loop. *)
Inductive Flow (A : Type) : Type :=
  | Next (a : A)
  | Return (r : Z)
  | ChildExit
  | OutOfFuel.
Arguments Next {A} a.
Arguments Return {A} r.
Arguments ChildExit {A}.
Arguments OutOfFuel {A}.

Section Model.

Variable E : Env.

Definition St : Type := PublicVolume * World E.
Definition Run (A : Type) : Type := Flow A * St * list Entry.
Definition M (A : Type) : Type := St -> Run A.

Definition flow {A} (r : Run A) : Flow A := fst (fst r).
Definition final {A} (r : Run A) : St := snd (fst r).
Definition events {A} (r : Run A) : list Entry := snd r.
Definition vol (s : St) : PublicVolume := fst s.
Definition world (s : St) : World E := snd s.

Definition ret {A} (a : A) : M A := fun s => (Next a, s, []).
Definition return_ {A} (r : Z) : M A := fun s => (Return r, s, []).
Definition child_exit {A} : M A := fun s => (ChildExit, s, []).
Definition out_of_fuel {A} : M A := fun s => (OutOfFuel, s, []).

Definition bind {A B} (m : M A) (f : A -> M B) : M B :=
  fun s =>
    match m s with
    | (Next a, s1, t1) =>
        match f a s1 with
        | (fl, s2, t2) => (fl, s2, t1 ++ t2)
        end
    | (Return r, s1, t1) => (Return r, s1, t1)
    | (ChildExit, s1, t1) => (ChildExit, s1, t1)
    | (OutOfFuel, s1, t1) => (OutOfFuel, s1, t1)
    end.

(** Calling a member function: its [return r] is the value of the call. *)
Definition invoke (body : M Z) : M Z :=
  fun s =>
    match body s with
    | (Return r, s1, t1) => (Next r, s1, t1)
    | other => other
    end.

Definition this : M PublicVolume := fun s => (Next (vol s), s, []).
Definition update (f : PublicVolume -> PublicVolume) : M unit :=
  fun s => (Next tt, (f (vol s), world s), []).

Definition call (c : Call) : M Z :=
  fun s => let (r, w) := sys_int E c (world s) in
           (Next r, (vol s, w), [(c, RInt r)]).
Definition ask (c : Call) : M bool :=
  fun s => let (b, w) := sys_bool E c (world s) in
           (Next b, (vol s, w), [(c, RBool b)]).
Definition users (c : Call) : M (list Z) :=
  fun s => let (us, w) := sys_users E c (world s) in
           (Next us, (vol s, w), [(c, RUsers us)]).
Definition metadata (c : Call) : M (Z * (string * string * string)) :=
  fun s => let (x, w) := sys_meta E c (world s) in
           (Next x, (vol s, w),
            [(c, RMeta (fst x) (fst (fst (snd x))) (snd (fst (snd x))) (snd (snd x)))]).
Definition blockdev_size (c : Call) : M (Z * Z) :=
  fun s => let (x, w) := sys_size E c (world s) in
           (Next x, (vol s, w), [(c, RSize (fst x) (snd x))]).
Definition log (c : Call) : M unit := fun s => (Next tt, s, [(c, RUnit)]).
Definition errno : M Z := call read_errno.

Definition when (b : bool) (m : M unit) : M unit := if b then m else ret tt.

End Model.

Arguments ret {E A} a.
Arguments return_ {E A} r.
Arguments child_exit {E A}.
Arguments out_of_fuel {E A}.
Arguments bind {E A B} m f.
Arguments invoke {E} body.
Arguments this {E}.
Arguments update {E} f.
Arguments errno {E}.
Arguments call {E} c.
Arguments ask {E} c.
Arguments users {E} c.
Arguments metadata {E} c.
Arguments blockdev_size {E} c.
Arguments log {E} c.
Arguments when {E} b m.
Arguments flow {E A} r.
Arguments final {E A} r.
Arguments events {E A} r.
Arguments vol {E} s.
Arguments world {E} s.

Declare Scope vold_scope.
Delimit Scope vold_scope with vold.
Notation "x <- m ;; k" := (bind m (fun x => k))
  (at level 61, m at next level, right associativity) : vold_scope.
Notation "m ;;; k" := (bind m (fun _ => k))
  (at level 61, right associativity) : vold_scope.
Open Scope vold_scope.

Definition nonzero (z : Z) : bool := negb (z =? 0).

(** ** The member functions of [PublicVolume] *)

Section PublicVolume.

Variable E : Env.

Definition isVisibleForWrite (v : PublicVolume) : bool :=
  nonzero (Z.land (getMountFlags v) (kVisibleForWrite E)).

Definition isPrimary (v : PublicVolume) : bool :=
  nonzero (Z.land (getMountFlags v) (kPrimary E)).

(** "Use UUID as stable name, if available" *)
Definition stableNameOf (v : PublicVolume) : string :=
  if String.eqb (mFsUuid v) EmptyString then getId v else mFsUuid v.

(** [a && f()] where [f] has an effect: [f] runs only if [a] holds. *)
Definition andalso (a : bool) (m : M E bool) : M E bool :=
  if a then m else ret false.

(** [c1 || c2 || ...] over calls that return an int: the first call whose
    answer is not zero ends the chain. *)
Fixpoint any_fails (cs : list Call) : M E bool :=
  match cs with
  | [] => ret false
  | c :: rest =>
      r <- call c ;;
      if nonzero r then ret true else any_fails rest
  end.

Definition readMetadata : M E Z :=
  v <- this ;;
  x <- metadata (ReadMetadataUntrusted (mDevPath v)) ;;
  let res := fst x in
  let fsType := fst (fst (snd x)) in
  let fsUuid := snd (fst (snd x)) in
  let fsLabel := snd (snd x) in
  update (set_metadata fsType fsUuid fsLabel) ;;;
  when (mListener (base v))
       (call (onVolumeMetadataChanged (getId v) fsType fsUuid fsLabel) ;;; ret tt) ;;;
  return_ res.

(** [TEMP_FAILURE_RETRY(mkdir(...))] is one [mkdir] entry: the retry on
    [EINTR] is the business of the libc macro. *)
Definition initAsecStage : M E Z :=
  v <- this ;;
  let legacyPath := mRawPath v +++ "/android_secure" in
  let securePath := mRawPath v +++ "/.android_secure" in
  (* Recover legacy secure path *)
  a1 <- call (access legacyPath (Z.lor R_OK X_OK)) ;;
  recover <- andalso (a1 =? 0)
                     (a2 <- call (access securePath (Z.lor R_OK X_OK)) ;;
                      ret (nonzero a2)) ;;
  when recover
       (r <- call (rename legacyPath securePath) ;;
        when (nonzero r)
             (log (PLOG WARNING (getId v +++ " failed to rename legacy ASEC dir")))) ;;;
  m <- call (mkdir securePath 448) ;;
  (if nonzero m then
     e <- errno ;;
     if negb (e =? EEXIST) then
       log (PLOG WARNING (getId v +++ " creating ASEC stage failed")) ;;;
       e' <- errno ;;
       return_ (- e')
     else ret tt
   else ret tt) ;;;
  call (BindMount securePath kAsecPath) ;;;
  return_ OK.

Definition doCreate : M E Z :=
  v <- this ;;
  r <- call (CreateDeviceNode (mDevPath v) (mDevice v)) ;;
  return_ r.

Definition doDestroy : M E Z :=
  v <- this ;;
  r <- call (DestroyDeviceNode (mDevPath v)) ;;
  return_ r.

Definition bindMountForUser (user_id : Z) : M E Z :=
  v <- this ;;
  let mountUserId := getMountUserId v in
  let stableName := stableNameOf v in
  log (LOG INFO ("Bind Mounting Public Volume for user: " +++ to_string user_id
                 +++ ".Mount owner: " +++ to_string mountUserId)) ;;;
  let sourcePath := GetFuseMountPathForUser E mountUserId stableName in
  let destPath := GetFuseMountPathForUser E user_id stableName in
  call (PrepareDir destPath 504 AID_ROOT AID_MEDIA_RW) ;;;
  mountRes <- call (BindMount sourcePath destPath) ;;
  log (LOG INFO ("Mount status: " +++ to_string mountRes)) ;;;
  return_ mountRes.

(** *** doUnmount *)

(** Lines 632-641: "Unmount bind mounts for running users". *)
Fixpoint unbindStartedUsers (started : list Z) (user_id : Z) (stableName : string)
  : M E unit :=
  match started with
  | [] => ret tt
  | started_user :: rest =>
      (if started_user =? user_id then
         (* No need to remove bind mount for the user that owns the mount *)
         ret tt
       else
         log (LOG INFO ("Removing Public Volume Bind Mount for: "
                        +++ to_string started_user)) ;;;
         let mountPath := GetFuseMountPathForUser E started_user stableName in
         call (ForceUnmount mountPath) ;;;
         call (rmdir mountPath) ;;;
         ret tt) ;;;
      unbindStartedUsers rest user_id stableName
  end.

(** Lines 622-649: the bind mounts of the other users, then the FUSE mount
    of the owner. *)
Definition unmountFuse : M E unit :=
  v <- this ;;
  if mFuseMounted v then
    (* Use UUID as stable name, if available *)
    let stableName := stableNameOf v in
    (* Unmount bind mounts for running users *)
    started <- users getStartedUsers ;;
    let user_id := getMountUserId v in
    unbindStartedUsers started user_id stableName ;;;
    r <- call (UnmountUserFuse (getMountUserId v) (getInternalPath v) stableName) ;;
    (if negb (r =? OK) then
       log (PLOG INFO "UnmountUserFuse failed on public fuse volume") ;;;
       e <- errno ;;
       return_ (- e)
     else ret tt) ;;;
    update (set_mFuseMounted false)
  else ret tt.

(** Lines 653-668. *)
Definition unmountSdcardFs : M E unit :=
  v <- this ;;
  if mUseSdcardFs v then
    call (ForceUnmount (mSdcardFsDefault v)) ;;;
    call (ForceUnmount (mSdcardFsRead v)) ;;;
    call (ForceUnmount (mSdcardFsWrite v)) ;;;
    call (ForceUnmount (mSdcardFsFull v)) ;;;
    call (rmdir (mSdcardFsDefault v)) ;;;
    call (rmdir (mSdcardFsRead v)) ;;;
    call (rmdir (mSdcardFsWrite v)) ;;;
    call (rmdir (mSdcardFsFull v)) ;;;
    update (set_mSdcardFs EmptyString EmptyString EmptyString EmptyString)
  else ret tt.

(** Lines 670-678. *)
Definition unmountRawPath : M E unit :=
  v <- this ;;
  f <- call (ForceUnmount (mRawPath v)) ;;
  (if negb (f =? 0) then
     call (umount2 (mRawPath v) MNT_DETACH) ;;;
     log (PLOG INFO "use umount lazy if force unmount fail")
   else ret tt) ;;;
  d <- call (rmdir (mRawPath v)) ;;
  (if negb (d =? 0) then
     log (PLOG INFO ("rmdir mRawPath=" +++ mRawPath v +++ " fail")) ;;;
     call (KillProcessesUsingPath (getPath v)) ;;;
     ret tt
   else ret tt) ;;;
  update (set_mRawPath EmptyString).

Definition doUnmount : M E Z :=
  (* Unmount the storage before we kill the FUSE process. If we kill
     the FUSE process first, most file system operations will return
     ENOTCONN until the unmount completes. This is an exotic and unusual
     error code and might cause broken behaviour in applications. *)
  v <- this ;;
  call (KillProcessesUsingPath (getPath v)) ;;;
  unmountFuse ;;;
  call (ForceUnmount kAsecPath) ;;;
  unmountSdcardFs ;;;
  unmountRawPath ;;;
  return_ OK.

(** *** doMount *)

(** Lines 410-451: metadata, filesystem check, the derived paths and the
    raw mount point.  Falls through with [isVisible] and the stable name. *)
Definition prepareRaw : M E (bool * string) :=
  v0 <- this ;;
  let isVisible := isVisibleForWrite v0 in
  invoke readMetadata ;;;
  v <- this ;;
  vfatOk <- andalso (String.eqb (mFsType v) "vfat") (ask vfat_IsSupported) ;;
  (if vfatOk then
     c <- call (vfat_Check (mDevPath v)) ;;
     if nonzero c then
       log (LOG ERROR (getId v +++ " failed filesystem check")) ;;;
       return_ (- EIO)
     else ret tt
   else
     exfatOk <- andalso (String.eqb (mFsType v) "exfat") (ask exfat_IsSupported) ;;
     if exfatOk then
       c <- call (exfat_Check (mDevPath v)) ;;
       if nonzero c then
         log (LOG ERROR (getId v +++ " failed filesystem check")) ;;;
         return_ (- EIO)
       else ret tt
     else
       log (LOG ERROR (getId v +++ " unsupported filesystem " +++ mFsType v)) ;;;
       return_ (- EIO)) ;;;
  (* Use UUID as stable name, if available *)
  let stableName := stableNameOf v in
  update (set_mRawPath ("/mnt/media_rw/" +++ stableName)) ;;;
  update (set_mSdcardFs ("/mnt/runtime/default/" +++ stableName)
                        ("/mnt/runtime/read/" +++ stableName)
                        ("/mnt/runtime/write/" +++ stableName)
                        ("/mnt/runtime/full/" +++ stableName)) ;;;
  v1 <- this ;;
  update (setInternalPath (mRawPath v1)) ;;;
  (if isVisible then update (setPath ("/storage/" +++ stableName))
   else update (setPath (mRawPath v1))) ;;;
  p <- call (fs_prepare_dir (mRawPath v1) 448 AID_ROOT AID_ROOT) ;;
  (if nonzero p then
     log (PLOG ERROR (getId v1 +++ " failed to create mount points")) ;;;
     e <- errno ;;
     return_ (- e)
   else ret tt) ;;;
  ret (isVisible, stableName).

(** Lines 453-465: the raw mount. *)
Definition mountRawFs (isVisible : bool) : M E unit :=
  v1 <- this ;;
  if String.eqb (mFsType v1) "vfat" then
    m <- call (vfat_Mount (mDevPath v1) (mRawPath v1) false false false AID_ROOT
                 (if isVisible then AID_MEDIA_RW else AID_EXTERNAL_STORAGE) 7 true) ;;
    if nonzero m then
      log (PLOG ERROR (getId v1 +++ " failed to mount " +++ mDevPath v1)) ;;;
      return_ (- EIO)
    else ret tt
  else if String.eqb (mFsType v1) "exfat" then
    m <- call (exfat_Mount (mDevPath v1) (mRawPath v1) AID_ROOT
                 (if isVisible then AID_MEDIA_RW else AID_EXTERNAL_STORAGE) 7) ;;
    if nonzero m then
      log (PLOG ERROR (getId v1 +++ " failed to mount " +++ mDevPath v1)) ;;;
      return_ (- EIO)
    else ret tt
  else ret tt.

(** Lines 410-465. *)
Definition mountRaw : M E (bool * string) :=
  x <- prepareRaw ;;
  mountRawFs (fst x) ;;;
  ret x.

(** Lines 467-469. *)
Definition stageAsec : M E unit :=
  v <- this ;;
  when (isPrimary v) (invoke initAsecStage ;;; ret tt).

(** Lines 477-483. *)
Definition prepareSdcardFsDirs : M E unit :=
  v <- this ;;
  failed <- any_fails [fs_prepare_dir (mSdcardFsDefault v) 448 AID_ROOT AID_ROOT;
                       fs_prepare_dir (mSdcardFsRead v) 448 AID_ROOT AID_ROOT;
                       fs_prepare_dir (mSdcardFsWrite v) 448 AID_ROOT AID_ROOT;
                       fs_prepare_dir (mSdcardFsFull v) 448 AID_ROOT AID_ROOT] ;;
  if failed then
    log (PLOG ERROR (getId v +++ " failed to create sdcardfs mount points")) ;;;
    e <- errno ;;
    return_ (- e)
  else ret tt.

(** [nanoseconds_to_milliseconds] of utils/Timers.h: division of an
    [int64_t], which truncates toward zero. *)
Definition nanoseconds_to_milliseconds (ns : Z) : Z := Z.quot ns 1000000.

(** Lines 526-535, the poll loop.  One unit of fuel per evaluation of the
    loop condition. *)
Fixpoint waitForSdcardFs (fuel : nat) (before start : Z) (path : string)
  : M E unit :=
  match fuel with
  | O => out_of_fuel
  | S fuel' =>
      cur <- call (GetDevice path) ;;
      if before =? cur then
        log (LOG DEBUG "Waiting for sdcardfs to spin up...") ;;;
        call (usleep 50000) ;;;  (* 50ms *)
        now <- call systemTime ;;
        if nanoseconds_to_milliseconds (now - start) >? 5000 then
          log (LOG WARNING "Timed out while waiting for sdcardfs to spin up") ;;;
          return_ (- ETIMEDOUT)
        else waitForSdcardFs fuel' before start path
      else ret tt
  end.

(** Lines 489-517, the forked child: it becomes the sdcard binary, or logs
    and calls [_exit(1)]; either way it never continues in [doMount]. *)
Definition sdcardFsChild (stableName : string) : M E unit :=
  v <- this ;;
  x <- (if isPrimary v then
          call (execl kSdcardFsPath
                  [kSdcardFsPath; "-u"; "1023"; "-g"; "1023";
                   "-U"; to_string (getMountUserId v); "-w";
                   mRawPath v; stableName])
        else
          call (execl kSdcardFsPath
                  [kSdcardFsPath; "-u"; "1023"; "-g"; "1023";
                   "-U"; to_string (getMountUserId v);
                   mRawPath v; stableName])) ;;
  when (nonzero x) (log (PLOG ERROR "Failed to exec")) ;;;
  log (LOG ERROR "sdcardfs exiting") ;;;
  child_exit.

(** Lines 485-537: the device of the target path is read, the sdcard
    process is forked, and the parent waits until the device of the target
    path differs or the time is up.  [TEMP_FAILURE_RETRY(waitpid(...))] is
    one [waitpid] entry. *)
Definition spinUpSdcardFs (fuel : nat) (stableName : string) : M E unit :=
  v <- this ;;
  before <- call (GetDevice (mSdcardFsFull v)) ;;
  sdcardFsPid <- call fork ;;
  (if sdcardFsPid =? 0 then sdcardFsChild stableName else ret tt) ;;;
  (if sdcardFsPid =? -1 then
     log (PLOG ERROR (getId v +++ " failed to fork")) ;;;
     e <- errno ;;
     return_ (- e)
   else ret tt) ;;;
  start <- call systemTime ;;
  waitForSdcardFs fuel before start (mSdcardFsFull v) ;;;
  (* sdcardfs will have exited already. The filesystem will still be running *)
  call (waitpid sdcardFsPid) ;;;
  ret tt.

(** Lines 542-563: the FUSE mount and the readiness check. *)
Definition mountFuse (stableName : string) : M E unit :=
  log (LOG INFO "Mounting public fuse volume") ;;;
  v <- this ;;
  let user_id := getMountUserId v in
  result <- call (MountUserFuse user_id (getInternalPath v) stableName) ;;
  (if negb (result =? 0) then
     log (LOG ERROR "Failed to mount public fuse volume") ;;;
     invoke doUnmount ;;;
     return_ (- result)
   else ret tt) ;;;
  update (set_mFuseMounted true) ;;;
  if mMountCallback (base v) then
    is_ready <- ask (onVolumeChecking (getPath v) (getInternalPath v)) ;;
    if negb is_ready then
      log (LOG ERROR "Failed to complete public volume mount") ;;;
      invoke doUnmount ;;;
      return_ (- EIO)
    else ret tt
  else ret tt.

(** Lines 565-568. *)
Definition configureFuse (stableName : string) : M E unit :=
  v <- this ;;
  let user_id := getMountUserId v in
  call (ConfigureReadAheadForFuse (GetFuseMountPathForUser E user_id stableName) 256) ;;;
  (* See comment in model/EmulatedVolume.cpp *)
  call (ConfigureMaxDirtyRatioForFuse (GetFuseMountPathForUser E user_id stableName) 40) ;;;
  ret tt.

(** Lines 572-593: "Create bind mounts for all running users". *)
Fixpoint bindStartedUsers (started : list Z) (stableName : string) : M E unit :=
  match started with
  | [] => ret tt
  | started_user :: rest =>
      v <- this ;;
      let mountUserId := getMountUserId v in
      (if started_user =? mountUserId then
         (* No need to bind mount for the user that owns the mount *)
         ret tt
       else
         shared <- call (getSharedStorageUser started_user) ;;
         if negb (mountUserId =? shared) then
           (* No need to bind if the user does not share storage with the mount owner *)
           ret tt
         else
           mountDirStatus <- call (PrepareMountDirForUser started_user) ;;
           when (negb (mountDirStatus =? OK))
                (log (LOG ERROR ("Failed to create Mount Directory for user "
                                 +++ to_string started_user))) ;;;
           bindMountStatus <- invoke (bindMountForUser started_user) ;;
           when (negb (bindMountStatus =? OK))
                (log (LOG ERROR ("Bind Mounting Public Volume: " +++ stableName
                                 +++ " for user: " +++ to_string started_user
                                 +++ "Failed. Error: " +++ to_string bindMountStatus)))) ;;;
      bindStartedUsers rest stableName
  end.

(** Lines 476-538: what is done when sdcardfs is in use. *)
Definition startSdcardFs (fuel : nat) (stableName : string) : M E unit :=
  v <- this ;;
  if mUseSdcardFs v then
    prepareSdcardFsDirs ;;;
    spinUpSdcardFs fuel stableName
  else ret tt.

(** Lines 570-593. *)
Definition bindForStartedUsers (stableName : string) : M E unit :=
  started <- users getStartedUsers ;;
  bindStartedUsers started stableName.

Definition doMount (fuel : nat) : M E Z :=
  x <- mountRaw ;;
  let isVisible := fst x in
  let stableName := snd x in
  stageAsec ;;;
  (if negb isVisible then
     (* Not visible to apps, so no need to spin up sdcardfs or FUSE *)
     return_ OK
   else ret tt) ;;;
  startSdcardFs fuel stableName ;;;
  (* We need to mount FUSE *after* sdcardfs, since the FUSE daemon may depend
     on sdcardfs being up. *)
  mountFuse stableName ;;;
  configureFuse stableName ;;;
  bindForStartedUsers stableName ;;;
  return_ OK.

(** *** doFormat *)

Inductive FsPick := NONE | VFAT | EXFAT.

(** 32896 MiB, in bytes. *)
Definition kAutoThreshold : Z := 32896 * 1024 * 1024.

Definition doFormat (fsType : string) : M E Z :=
  v <- this ;;
  isVfatSup <- ask vfat_IsSupported ;;
  isExfatSup <- ask exfat_IsSupported ;;
  (* Resolve auto requests *)
  fsPick <-
    (if String.eqb fsType "auto" && isVfatSup && isExfatSup then
       x <- blockdev_size (GetBlockDevSize (mDevPath v)) ;;
       let res := fst x in
       let size := snd x mod 2 ^ 64 in
       if negb (res =? OK) then
         log (LOG ERROR ("Couldn't get device size " +++ mDevPath v)) ;;;
         return_ res
       else
         (* If both vfat & exfat are supported use exfat for SDXC (>~32GiB) cards *)
         if size >? kAutoThreshold then ret EXFAT else ret VFAT
     else if String.eqb fsType "auto" && isExfatSup then ret EXFAT
     else if String.eqb fsType "auto" && isVfatSup then ret VFAT
     else ret NONE) ;;
  (* Resolve explicit requests *)
  let fsPick :=
    if String.eqb fsType "vfat" && isVfatSup then VFAT
    else if String.eqb fsType "exfat" && isExfatSup then EXFAT
    else fsPick in
  w <- call (WipeBlockDevice (mDevPath v)) ;;
  when (negb (w =? OK)) (log (LOG WARNING (getId v +++ " failed to wipe"))) ;;;
  res <-
    match fsPick with
    | VFAT => call (vfat_Format (mDevPath v) 0)
    | EXFAT => call (exfat_Format (mDevPath v))
    | NONE =>
        log (LOG ERROR ("Unsupported filesystem " +++ fsType)) ;;;
        return_ (- EINVAL)
    end ;;
  if negb (res =? OK) then
    log (LOG ERROR (getId v +++ " failed to format")) ;;;
    e <- errno ;;
    return_ (- e)
  else return_ res.

End PublicVolume.

Arguments isVisibleForWrite E v : assert.
Arguments isPrimary E v : assert.

(** ** Concrete environments

    A family of simple worlds on which the member functions can be run.  The
    world is a clock in nanoseconds: [systemTime] reads it, [usleep] advances
    it by exactly the time asked for, no other call takes time.  The answers
    of the other calls are given by tables; the answer to an int call may
    depend on the time. *)
Module Sim.

Definition env (ai : Call -> Z -> Z) (ab : Call -> bool) (us : list Z)
    (md : Z * (string * string * string)) (sz : Z * Z) : Env :=
  mkEnv Z
    (fun c w =>
       match c with
       | systemTime => (w, w)
       | usleep usec => (ai c w, w + 1000 * usec)
       | _ => (ai c w, w)
       end)
    (fun c w => (ab c, w))
    (fun _ w => (us, w))
    (fun _ w => (md, w))
    (fun _ w => (sz, w))
    1 4
    (fun user name => "/mnt/user/" +++ to_string user +++ "/" +++ name).

(** A freshly constructed volume for device 8:1 of user 0, [flags] being the
    mount flags. *)
Definition volume (flags : Z) (useSdcardFs : bool) : PublicVolume :=
  mkPublicVolume
    (mkVolumeBase "public:8,1" EmptyString EmptyString flags 0 false true)
    2049 "/dev/block/vold/public:8,1" EmptyString EmptyString EmptyString EmptyString EmptyString EmptyString EmptyString EmptyString false useSdcardFs.

(** The same volume after a mount that went as far as [fuse] says. *)
Definition mounted (flags : Z) (useSdcardFs fuse : bool) : PublicVolume :=
  mkPublicVolume
    (mkVolumeBase "public:8,1" "/storage/1234-ABCD" "/mnt/media_rw/1234-ABCD"
       flags 0 false true)
    2049 "/dev/block/vold/public:8,1" "/mnt/media_rw/1234-ABCD"
    "/mnt/runtime/default/1234-ABCD" "/mnt/runtime/read/1234-ABCD"
    "/mnt/runtime/write/1234-ABCD" "/mnt/runtime/full/1234-ABCD"
    "vfat" "1234-ABCD" EmptyString fuse useSdcardFs.

Definition all_ok (c : Call) (w : Z) : Z := 0.
Definition yes (c : Call) : bool := true.
Definition vfat_card : Z * (string * string * string) := (0, ("vfat", "1234-ABCD", EmptyString)).

End Sim.

(** ** Reading traces *)

(** Every call of the trace is in the set [A]. *)
Definition only (A : Call -> bool) (t : list Entry) : Prop :=
  Forall (fun e => A (fst e) = true) t.

(** The call [c] occurs in the trace, whatever it answered. *)
Definition called (c : Call) (t : list Entry) : Prop :=
  exists a, In (c, a) t.

(** The filesystem the trace formats the device with: the first [Format]
    call decides, [NONE] if there is none. *)
Fixpoint formatted (t : list Entry) : FsPick :=
  match t with
  | [] => NONE
  | (vfat_Format _ _, _) :: _ => VFAT
  | (exfat_Format _, _) :: _ => EXFAT
  | _ :: rest => formatted rest
  end.

(** A format request that resolves to no supported type: "auto" with neither
    type supported, or an explicit type that is not a supported one. *)
Definition unsupportedRequest (fsType : string) (isVfatSup isExfatSup : bool) : Prop :=
  (fsType = "auto" /\ isVfatSup = false /\ isExfatSup = false)
  \/ (fsType <> "auto"
      /\ ~ (fsType = "vfat" /\ isVfatSup = true)
      /\ ~ (fsType = "exfat" /\ isExfatSup = true)).

(** A computation stays inside the set of calls [A] and leaves the mount
    flags and the owner of the volume alone. *)
Definition obeys {E X} (A : Call -> bool) (m : M E X) : Prop :=
  forall s,
    only A (events (m s))
    /\ getMountFlags (vol (final (m s))) = getMountFlags (vol s)
    /\ getMountUserId (vol (final (m s))) = getMountUserId (vol s).

Definition keeps_owner (f : PublicVolume -> PublicVolume) : Prop :=
  forall v, getMountFlags (f v) = getMountFlags v
            /\ getMountUserId (f v) = getMountUserId v.

(** The calls [doUnmount] can make. *)
Definition unmountCalls (c : Call) : bool :=
  match c with
  | KillProcessesUsingPath _ | getStartedUsers | LOG INFO _ | PLOG INFO _
  | ForceUnmount _ | rmdir _ | umount2 _ _ | UnmountUserFuse _ _ _
  | read_errno => true
  | _ => false
  end.

(** The calls of the loop that removes the bind mounts of the other users. *)
Definition unbindCalls (c : Call) : bool :=
  match c with
  | LOG INFO _ | ForceUnmount _ | rmdir _ => true
  | _ => false
  end.

Definition notForceUnmount (c : Call) : bool :=
  match c with
  | ForceUnmount _ => false
  | _ => true
  end.

Definition notUnmountUserFuse (c : Call) : bool :=
  match c with
  | UnmountUserFuse _ _ _ => false
  | _ => true
  end.

(** The overlay teardown of lines 654-662, as a list of calls. *)
Definition sdcardFsTeardown (v : PublicVolume) : list Call :=
  [ForceUnmount (mSdcardFsDefault v); ForceUnmount (mSdcardFsRead v);
   ForceUnmount (mSdcardFsWrite v); ForceUnmount (mSdcardFsFull v);
   rmdir (mSdcardFsDefault v); rmdir (mSdcardFsRead v);
   rmdir (mSdcardFsWrite v); rmdir (mSdcardFsFull v)].

(** The calls that can follow the forced unmount of the raw path. *)
Definition rawTailCalls (c : Call) : bool :=
  match c with
  | umount2 _ _ | PLOG INFO _ | rmdir _ | KillProcessesUsingPath _ => true
  | _ => false
  end.

(** Some [UnmountUserFuse] of the trace did not answer OK. *)
Definition bridgeUnmountFailed (t : list Entry) : Prop :=
  exists u l n res, In (UnmountUserFuse u l n, RInt res) t /\ res <> 0.

(** The object once [doUnmount] has gone through all its stages. *)
Definition unmounted (v : PublicVolume) : PublicVolume :=
  set_mRawPath EmptyString
    ((if mUseSdcardFs v then set_mSdcardFs EmptyString EmptyString EmptyString EmptyString else fun x => x)
       (set_mFuseMounted false v)).

(** *** The mount pipeline *)

(** The calls of [doMount] before the FUSE mount: the raw stages, the
    secure-app staging and the start of sdcardfs. *)
Definition beforeFuseCalls (c : Call) : bool :=
  match c with
  | ReadMetadataUntrusted _ | onVolumeMetadataChanged _ _ _ _
  | vfat_IsSupported | exfat_IsSupported | vfat_Check _ | exfat_Check _
  | vfat_Mount _ _ _ _ _ _ _ _ _ | exfat_Mount _ _ _ _ _
  | fs_prepare_dir _ _ _ _ | read_errno
  | access _ _ | rename _ _ | mkdir _ _ | BindMount _ _
  | GetDevice _ | fork | execl _ _ | usleep _ | systemTime | waitpid _
  | LOG ERROR _ | LOG DEBUG _ | LOG WARNING _ | PLOG ERROR _ | PLOG WARNING _ => true
  | _ => false
  end.

(** The calls of the raw stages (lines 410-465). *)
Definition rawCalls (c : Call) : bool :=
  match c with
  | ReadMetadataUntrusted _ | onVolumeMetadataChanged _ _ _ _
  | vfat_IsSupported | exfat_IsSupported | vfat_Check _ | exfat_Check _
  | vfat_Mount _ _ _ _ _ _ _ _ _ | exfat_Mount _ _ _ _ _
  | fs_prepare_dir _ _ _ _ | read_errno
  | LOG ERROR _ | PLOG ERROR _ => true
  | _ => false
  end.

(** The calls of [initAsecStage]. *)
Definition asecCalls (c : Call) : bool :=
  match c with
  | access _ _ | rename _ _ | mkdir _ _ | BindMount _ _ | read_errno
  | PLOG WARNING _ => true
  | _ => false
  end.

(** The calls of the start of sdcardfs (lines 476-538). *)
Definition sdcardFsCalls (c : Call) : bool :=
  match c with
  | fs_prepare_dir _ _ _ _ | read_errno
  | GetDevice _ | fork | execl _ _ | usleep _ | systemTime | waitpid _
  | LOG ERROR _ | LOG DEBUG _ | LOG WARNING _ | PLOG ERROR _ => true
  | _ => false
  end.

(** The calls of the FUSE stage, the rollback through [doUnmount] included. *)
Definition fuseCalls (c : Call) : bool :=
  match c with
  | MountUserFuse _ _ _ | onVolumeChecking _ _ | LOG INFO _ | LOG ERROR _ => true
  | _ => unmountCalls c
  end.

(** The calls after the FUSE stage: tuning and bind fan-out. *)
Definition afterFuseCalls (c : Call) : bool :=
  match c with
  | ConfigureReadAheadForFuse _ _ | ConfigureMaxDirtyRatioForFuse _ _
  | getStartedUsers | getSharedStorageUser _ | PrepareMountDirForUser _
  | PrepareDir _ _ _ _ | BindMount _ _ | LOG INFO _ | LOG ERROR _ => true
  | _ => false
  end.

(** Everything from the visibility test on (lines 471-594). *)
Definition afterAsecCalls (c : Call) : bool :=
  sdcardFsCalls c || fuseCalls c || afterFuseCalls c.

Definition notMountUserFuse (c : Call) : bool :=
  match c with
  | MountUserFuse _ _ _ => false
  | _ => true
  end.

(** No unmount of any kind. *)
Definition notUnmount (c : Call) : bool :=
  match c with
  | ForceUnmount _ | umount2 _ _ | UnmountUserFuse _ _ _ => false
  | _ => true
  end.

(** No call of [initAsecStage]'s own ([BindMount] is also used by the bind
    fan-out). *)
Definition notAsecStaging (c : Call) : bool :=
  match c with
  | access _ _ | rename _ _ | mkdir _ _ => false
  | _ => true
  end.

(** The calls of lines 410-451. *)
Definition prepareRawCalls (c : Call) : bool :=
  match c with
  | ReadMetadataUntrusted _ | onVolumeMetadataChanged _ _ _ _
  | vfat_IsSupported | exfat_IsSupported | vfat_Check _ | exfat_Check _
  | fs_prepare_dir _ _ _ _ | read_errno
  | LOG ERROR _ | PLOG ERROR _ => true
  | _ => false
  end.

(** Where a raw mount call mounts. *)
Definition rawMountTarget (c : Call) : string :=
  match c with
  | vfat_Mount _ target _ _ _ _ _ _ _ => target
  | exfat_Mount _ target _ _ _ => target
  | _ => EmptyString
  end.

(** What [initAsecStage] does from the [mkdir] on: the directory is created;
    if that succeeds, or fails because the directory exists, the directory
    is bind-mounted on [kAsecPath] and the result is OK; any other failure is
    returned. *)
Definition stagesAsec (id secure : string) (fl : Flow Z) (t : list Entry)
  : Prop :=
  exists m tail,
    t = (mkdir secure 448, RInt m) :: tail
    /\ (m = 0 ->
        exists b, tail = [(BindMount secure kAsecPath, RInt b)] /\ fl = Return OK)
    /\ (m <> 0 ->
        exists e tail',
          tail = (read_errno, RInt e) :: tail'
          /\ (e = EEXIST ->
              exists b, tail' = [(BindMount secure kAsecPath, RInt b)]
                        /\ fl = Return OK)
          /\ (e <> EEXIST ->
              exists e',
                tail' = [(PLOG WARNING (id +++ " creating ASEC stage failed"), RUnit);
                         (read_errno, RInt e')]
                /\ fl = Return (- e'))).

(** What [initAsecStage] does as a whole: the legacy directory is looked
    for; if it is there and the new one is not, it is renamed (a failure is
    only logged); then the staging proper follows. *)
Definition recoversLegacy (id legacy secure : string) (fl : Flow Z)
    (t : list Entry) : Prop :=
  exists a1 rest,
    t = (access legacy (Z.lor R_OK X_OK), RInt a1) :: rest
    /\ (a1 <> 0 -> stagesAsec id secure fl rest)
    /\ (a1 = 0 ->
        exists a2 rest2,
          rest = (access secure (Z.lor R_OK X_OK), RInt a2) :: rest2
          /\ (a2 = 0 -> stagesAsec id secure fl rest2)
          /\ (a2 <> 0 ->
              exists r rest3,
                rest2 = (rename legacy secure, RInt r) :: rest3
                /\ (r = 0 -> stagesAsec id secure fl rest3)
                /\ (r <> 0 ->
                    exists rest4,
                      rest3 = (PLOG WARNING
                                 (id +++ " failed to rename legacy ASEC dir"),
                               RUnit) :: rest4
                      /\ stagesAsec id secure fl rest4))).

Definition isRawMount (c : Call) : bool :=
  match c with
  | vfat_Mount _ _ _ _ _ _ _ _ _ | exfat_Mount _ _ _ _ _ => true
  | _ => false
  end.

Definition notTimeoutLog (c : Call) : bool :=
  match c with
  | LOG WARNING _ => false
  | _ => true
  end.

(** The message of line 532. *)
Definition timedOut : Entry :=
  (LOG WARNING "Timed out while waiting for sdcardfs to spin up", RUnit).

Definition isBindMount (e : Entry) : bool :=
  match fst e with
  | BindMount _ _ => true
  | _ => false
  end.

(** The entry is a [getSharedStorageUser] query answered with [owner]. *)
Definition sharesWith (owner : Z) (e : Entry) : bool :=
  match e with
  | (getSharedStorageUser _, RInt x) => owner =? x
  | _ => false
  end.

(** The number of [BindMount] calls of a trace, and the number of
    [getSharedStorageUser] queries that were answered with [owner]. *)
Definition bindCount (t : list Entry) : nat :=
  List.length (filter isBindMount t).

Definition sharingCount (owner : Z) (t : list Entry) : nat :=
  List.length (filter (sharesWith owner) t).

(** The marker [mk] can only be the last entry of a run, and a run that has
    it returns [z]. *)
Definition ends_with {E X} (mk : Entry) (z : Z) (m : M E X) : Prop :=
  forall s,
    In mk (events (m s)) ->
    flow (m s) = Return z /\ exists t, events (m s) = t ++ [mk].

Section Pipeline.

Variable E : Env.

(** [doMount] up to the FUSE mount, and after it. *)
Definition beforeFuse (fuel : nat) : M E string :=
  x <- mountRaw E ;;
  stageAsec E ;;;
  (if negb (fst x) then return_ OK else ret tt) ;;;
  startSdcardFs E fuel (snd x) ;;;
  ret (snd x).

Definition afterFuse (stableName : string) : M E Z :=
  configureFuse E stableName ;;;
  bindForStartedUsers E stableName ;;;
  return_ OK.

(** [doMount] after the secure-app staging. *)
Definition afterAsec (fuel : nat) (x : bool * string) : M E Z :=
  (if negb (fst x) then return_ OK else ret tt) ;;;
  startSdcardFs E fuel (snd x) ;;;
  mountFuse E (snd x) ;;;
  configureFuse E (snd x) ;;;
  bindForStartedUsers E (snd x) ;;;
  return_ OK.

(** [doMount] from the FUSE mount on. *)
Definition fuseOnward (stableName : string) : M E Z :=
  mountFuse E stableName ;;;
  afterFuse stableName.

End Pipeline.

(** *** Time

    An environment keeps exact time by [clock] if [systemTime] reads the
    clock, [usleep] advances it by the time asked for, and no other call
    takes time.  The clock counts nanoseconds. *)
Definition keepsTime (E : Env) (clock : World E -> Z) : Prop :=
  (forall w, fst (sys_int E systemTime w) = clock w)
  /\ (forall c w,
        clock (snd (sys_int E c w))
        = clock w + match c with
                    | usleep usec => 1000 * usec
                    | _ => 0
                    end).

(** The device of [path] is [d], now and for ever. *)
Definition deviceFrozen (E : Env) (path : string) (d : Z) : Prop :=
  forall w, fst (sys_int E (GetDevice path) w) = d.

(** [fork] succeeds, and the process looked at is the parent. *)
Definition forksParent (E : Env) : Prop :=
  forall w, fst (sys_int E fork w) <> 0 /\ fst (sys_int E fork w) <> -1.

(** The time-out budget and the poll interval of lines 528-531, in
    nanoseconds. *)
Definition kSpinUpBudget : Z := 5000 * 1000000.
Definition kPollInterval : Z := 50000 * 1000.

(** Checks on a trace that can be computed. *)
Definition isFailedUnmountUserFuse (e : Entry) : bool :=
  match e with
  | (UnmountUserFuse _ _ _, RInt res) => negb (res =? 0)
  | _ => false
  end.

Definition isFailedCheck (e : Entry) : bool :=
  match e with
  | (onVolumeChecking _ _, RBool false) => true
  | _ => false
  end.

(** ** Inputs of the examples *)

Module Inputs.

(** Both filesystems supported, a device of [size] bytes. *)
Definition card (size : Z) : Env :=
  Sim.env Sim.all_ok Sim.yes [0; 10; 11] Sim.vfat_card (0, size).

(** Only the filesystem for which [sup] answers [true] is supported. *)
Definition supports (sup : Call -> bool) : Env :=
  Sim.env Sim.all_ok sup [0; 10; 11] Sim.vfat_card (0, 64 * 1024 * 1024 * 1024).

Definition no_fs (c : Call) : bool := false.

(** Every unmount and every rmdir fails (a busy volume). *)
Definition busy : Env :=
  Sim.env (fun c _ => match c with
                      | ForceUnmount _ | umount2 _ _ | rmdir _ => -1
                      | read_errno => 16
                      | _ => 0
                      end)
          Sim.yes [0; 10; 11] Sim.vfat_card (0, 0).

(** sdcardfs never comes up: [fork] succeeds and the device of the target
    path stays what it was. *)
Definition stuck : Env :=
  Sim.env (fun c _ => match c with fork => 77 | _ => 0 end)
          Sim.yes [0; 10; 11] Sim.vfat_card (0, 0).

(** [MountUserFuse] fails with 5. *)
Definition fuse_fails : Env :=
  Sim.env (fun c _ => match c with MountUserFuse _ _ _ => 5 | _ => 0 end)
          Sim.yes [0; 10; 11] Sim.vfat_card (0, 0).

(** Users 10, 11 and 12 are started besides the owner 0; 10 and 11 share
    the storage of the owner, 12 does not.  The mount directory of user 11
    cannot be prepared and the bind mount for user 10 fails. *)
Definition three_users : Env :=
  Sim.env (fun c _ =>
             match c with
             | getSharedStorageUser 12 => 12
             | PrepareMountDirForUser 11 => -1
             | BindMount _ target =>
                 if String.eqb target "/mnt/user/10/1234-ABCD" then -1 else 0
             | _ => 0
             end)
          Sim.yes [0; 10; 11; 12] Sim.vfat_card (0, 0).

(** A primary volume that is visible to apps, without sdcardfs. *)
Definition primary : PublicVolume := Sim.volume 5 false.

(** A volume on which only the raw mount succeeded, the overlay being in
    use, and one with the FUSE mount as well. *)
Definition raw_only : St busy := (Sim.mounted 5 true false, 0).
Definition with_fuse : St busy := (Sim.mounted 5 true true, 0).
Definition fresh : St (card 0) := (Sim.volume 5 true, 0).

End Inputs.

(** * More of [PublicVolume] *)

(** A computation leaves the part [f] of the object as it was. *)
Definition preserves {E X Y} (f : PublicVolume -> Y) (m : M E X) : Prop :=
  forall s, f (vol (final (m s))) = f (vol s).

(** What [doMount] never writes: the identity of the volume, its device,
    its mount flags and owner, the registered listener and callback, and
    the choice of sdcardfs. *)
Definition identity (v : PublicVolume)
  : string * Z * string * Z * Z * bool * bool * bool :=
  (getId v, mDevice v, mDevPath v, getMountFlags v, getMountUserId v,
   mListener (base v), mMountCallback (base v), mUseSdcardFs v).

(** What [doUnmount] never writes: the fields of the base class (the two
    paths of the volume among them), the device and the metadata. *)
Definition unmountFrame (v : PublicVolume)
  : VolumeBase * Z * string * string * string * string * bool :=
  (base v, mDevice v, mDevPath v, mFsType v, mFsUuid v, mFsLabel v,
   mUseSdcardFs v).

(** The object after lines 428-446 for the metadata (fsType, fsUuid,
    fsLabel) just read: the paths are derived from the stable name. *)
Definition withPaths (isVisible : bool) (fsType fsUuid fsLabel : string)
    (v : PublicVolume) : PublicVolume :=
  let v' := set_metadata fsType fsUuid fsLabel v in
  let stableName := if String.eqb fsUuid EmptyString then getId v else fsUuid in
  let raw := "/mnt/media_rw/" +++ stableName in
  setPath (if isVisible then "/storage/" +++ stableName else raw)
    (setInternalPath raw
       (set_mSdcardFs ("/mnt/runtime/default/" +++ stableName)
                      ("/mnt/runtime/read/" +++ stableName)
                      ("/mnt/runtime/write/" +++ stableName)
                      ("/mnt/runtime/full/" +++ stableName)
          (set_mRawPath raw v'))).

(** ** Runs that stop at a failure *)

(** How a run ended, whatever the type of its value. *)
Definition ending {X} (fl : Flow X) : Flow unit :=
  match fl with
  | Next _ => Next tt
  | Return r => Return r
  | ChildExit => ChildExit
  | OutOfFuel => OutOfFuel
  end.

(** [Q e fl sf t]: what is said of a run that ended as [fl] in the state
    [sf] with the trace [t], about its entry [e]. *)
Definition Verdict (E : Env) : Type :=
  Entry -> Flow unit -> St E -> list Entry -> Prop.

(** Every entry of a run of [m] that [p] picks gets the verdict [Q]. *)
Definition halts {E X} (p : Entry -> bool) (Q : Verdict E) (m : M E X) : Prop :=
  forall s e,
    In e (events (m s)) -> p e = true ->
    Q e (ending (flow (m s))) (final (m s)) (events (m s)).

(** A verdict on runs that do not fall through, and which does not look at
    what came before the entry. *)
Definition terminal {E} (Q : Verdict E) : Prop :=
  (forall e sf t, ~ Q e (Next tt) sf t)
  /\ (forall e fl sf t t0, Q e fl sf t -> Q e fl sf (t0 ++ t)).

Definition isErrorLog (c : Call) : bool :=
  match c with
  | LOG ERROR _ | PLOG ERROR _ => true
  | _ => false
  end.

(** [fs_prepare_dir] or [fork] failed. *)
Definition isFailedSetup (e : Entry) : bool :=
  match e with
  | (fs_prepare_dir _ _ _ _, RInt x) => nonzero x
  | (fork, RInt x) => x =? -1
  | _ => false
  end.

(** A filesystem check or a raw mount failed. *)
Definition isFailedFsOp (e : Entry) : bool :=
  match e with
  | (vfat_Check _, RInt x) | (exfat_Check _, RInt x)
  | (vfat_Mount _ _ _ _ _ _ _ _ _, RInt x) | (exfat_Mount _ _ _ _ _, RInt x) =>
      nonzero x
  | _ => false
  end.

(** [fork] answered 0: the process looked at is the child. *)
Definition isForkedChild (e : Entry) : bool :=
  match e with
  | (fork, RInt x) => x =? 0
  | _ => false
  end.

(** The entry is followed by the error message and the reading of [errno],
    and the negated [errno] is returned. *)
Definition failsWithErrno {E} : Verdict E :=
  fun e fl _ t =>
    exists pre msg x,
      t = pre ++ [e; (PLOG ERROR msg, RUnit); (read_errno, RInt x)]
      /\ fl = Return (- x).

(** The entry is followed by an error message, and -EIO is returned. *)
Definition failsWithEIO {E} : Verdict E :=
  fun e fl _ t =>
    exists pre c,
      t = pre ++ [e; (c, RUnit)] /\ isErrorLog c = true /\ fl = Return (- EIO).

(** The argument vector of the sdcard binary (lines 491-513). *)
Definition sdcardArgs (primary : bool) (user : Z) (raw stableName : string)
  : list string :=
  if primary then
    [kSdcardFsPath; "-u"; "1023"; "-g"; "1023"; "-U"; to_string user; "-w";
     raw; stableName]
  else
    [kSdcardFsPath; "-u"; "1023"; "-g"; "1023"; "-U"; to_string user;
     raw; stableName].

(** The entry is followed by the [execl] of the sdcard binary and by
    nothing but error messages, and the process ends there. *)
Definition becomesSdcard {E} : Verdict E :=
  fun e fl sf t =>
    fl = ChildExit
    /\ exists pre name x tail,
         t = pre ++ e
               :: (execl kSdcardFsPath
                     (sdcardArgs (isPrimary E (vol sf)) (getMountUserId (vol sf))
                        (mRawPath (vol sf)) name), RInt x)
               :: tail
         /\ only isErrorLog tail.

(** The calls of the raw stages and of the secure-app staging. *)
Definition rawOrAsecCalls (c : Call) : bool := rawCalls c || asecCalls c.

(** ** doFormat *)

(** Lines 712-717, "Resolve explicit requests". *)
Definition explicitRequest (fsType : string) (isVfatSup isExfatSup : bool)
  : FsPick :=
  if String.eqb fsType "vfat" && isVfatSup then VFAT
  else if String.eqb fsType "exfat" && isExfatSup then EXFAT
  else NONE.

Definition isFormat (c : Call) : bool :=
  match c with
  | vfat_Format _ _ | exfat_Format _ => true
  | _ => false
  end.

Definition notFormat (c : Call) : bool := negb (isFormat c).

Definition notGetBlockDevSize (c : Call) : bool :=
  match c with
  | GetBlockDevSize _ => false
  | _ => true
  end.

(** Sets of calls used to tell where a failure can come from. *)
Definition notSetupCalls (c : Call) : bool :=
  match c with
  | fs_prepare_dir _ _ _ _ | fork => false
  | _ => true
  end.

Definition notFsOpCalls (c : Call) : bool :=
  match c with
  | vfat_Check _ | exfat_Check _
  | vfat_Mount _ _ _ _ _ _ _ _ _ | exfat_Mount _ _ _ _ _ => false
  | _ => true
  end.

Definition notFork (c : Call) : bool :=
  match c with
  | fork => false
  | _ => true
  end.

(** The calls of the poll loop (lines 526-535). *)
Definition pollCalls (c : Call) : bool :=
  match c with
  | GetDevice _ | usleep _ | systemTime | LOG DEBUG _ | LOG WARNING _ => true
  | _ => false
  end.

(** The raw mount call of lines 453-465 for a volume of type [fsType]. *)
Definition rawMount (fsType dev raw : string) (isVisible : bool) : Call :=
  let gid := if isVisible then AID_MEDIA_RW else AID_EXTERNAL_STORAGE in
  if String.eqb fsType "vfat" then
    vfat_Mount dev raw false false false AID_ROOT gid 7 true
  else
    exfat_Mount dev raw AID_ROOT gid 7.

(** The calls that only lines 410-426 make. *)
Definition checkStageCalls (c : Call) : bool :=
  match c with
  | ReadMetadataUntrusted _ | onVolumeMetadataChanged _ _ _ _
  | vfat_IsSupported | exfat_IsSupported | vfat_Check _ | exfat_Check _ => true
  | _ => false
  end.

(** The calls of lines 410-426 when the filesystem is not a supported one. *)
Definition unsupportedCalls (c : Call) : bool :=
  match c with
  | ReadMetadataUntrusted _ | onVolumeMetadataChanged _ _ _ _
  | vfat_IsSupported | exfat_IsSupported | LOG ERROR _ => true
  | _ => false
  end.

(** The calls of the raw mount proper (lines 453-465). *)
Definition rawFsCalls (c : Call) : bool :=
  match c with
  | vfat_Mount _ _ _ _ _ _ _ _ _ | exfat_Mount _ _ _ _ _ | PLOG ERROR _ => true
  | _ => false
  end.

(** ** More inputs of the examples *)

Module Faults.

(** Formatting fails, [errno] being 5. *)
Definition format_fails : Env :=
  Sim.env (fun c _ => match c with
                      | vfat_Format _ _ | exfat_Format _ => -1
                      | read_errno => 5
                      | _ => 0
                      end)
          Sim.yes [0] Sim.vfat_card (0, 0).

(** The size of the device cannot be read. *)
Definition no_size : Env :=
  Sim.env Sim.all_ok Sim.yes [0] Sim.vfat_card (-22, 0).

(** No directory can be prepared, [errno] being 13. *)
Definition no_dirs : Env :=
  Sim.env (fun c _ => match c with
                      | fs_prepare_dir _ _ _ _ => -1
                      | read_errno => 13
                      | _ => 0
                      end)
          Sim.yes [0] Sim.vfat_card (0, 0).

(** The filesystem check finds errors. *)
Definition dirty : Env :=
  Sim.env (fun c _ => match c with
                      | vfat_Check _ => 4
                      | _ => 0
                      end)
          Sim.yes [0] Sim.vfat_card (0, 0).

(** A volume with a filesystem that is neither vfat nor exfat. *)
Definition ext4_card : Env :=
  Sim.env Sim.all_ok Sim.yes [0] (0, ("ext4", "57f8f4bc", EmptyString)) (0, 0).

(** sdcardfs comes up after 100 ms: from then on the device of the overlay
    path is another one. *)
Definition slow_start : Env :=
  Sim.env (fun c w => match c with
                      | fork => 77
                      | GetDevice _ => if w <? 100000000 then 2049 else 30
                      | _ => 0
                      end)
          Sim.yes [0] Sim.vfat_card (0, 0).

(** A primary volume that is not visible to apps. *)
Definition hidden : PublicVolume := Sim.volume 1 false.

End Faults.

(** * The daemon: main.cpp

    The functions of main.cpp other than [main]: [process_config],
    [VoldLogger], [parse_args], [do_coldboot] and [coldboot]. *)

Module Vold.

(** [android::base::LogSeverity], in the order of the enumeration. *)
Inductive LogSeverity :=
  VERBOSE | DEBUG | INFO | WARNING | ERROR | FATAL_WITHOUT_ABORT | FATAL.

Definition rank (s : LogSeverity) : Z :=
  match s with
  | VERBOSE => 0
  | DEBUG => 1
  | INFO => 2
  | WARNING => 3
  | ERROR => 4
  | FATAL_WITHOUT_ABORT => 5
  | FATAL => 6
  end.

(** The arguments of a logger function. *)
Record LogLine := mkLogLine {
  log_buffer_id : Z;
  severity : LogSeverity;
  tag : string;
  file : string;
  line : Z;
  message : string
}.

(** The fields of [android::fs_mgr::FstabEntry] that [process_config]
    reads. *)
Record FsMgrFlags := mkFsMgrFlags {
  quota : bool;
  fs_compress : bool;
  logical : bool;
  no_fail : bool;
  vold_managed : bool;
  nonremovable : bool;
  no_emulated_sd : bool
}.

Record FstabEntry := mkFstabEntry {
  blk_device : string;
  mount_point : string;
  label : string;
  metadata_key_dir : string;
  reserved_size : Z;
  fs_mgr_flags : FsMgrFlags
}.

Definition set_blk_device (b : string) (e : FstabEntry) : FstabEntry :=
  mkFstabEntry b (mount_point e) (label e) (metadata_key_dir e)
    (reserved_size e) (fs_mgr_flags e).

Record VoldConfigs := mkVoldConfigs {
  has_adoptable : bool;
  has_quota : bool;
  has_reserved : bool;
  has_compress : bool
}.

Definition set_has_adoptable (b : bool) (c : VoldConfigs) : VoldConfigs :=
  mkVoldConfigs b (has_quota c) (has_reserved c) (has_compress c).
Definition set_has_quota (b : bool) (c : VoldConfigs) : VoldConfigs :=
  mkVoldConfigs (has_adoptable c) b (has_reserved c) (has_compress c).
Definition set_has_reserved (b : bool) (c : VoldConfigs) : VoldConfigs :=
  mkVoldConfigs (has_adoptable c) (has_quota c) b (has_compress c).
Definition set_has_compress (b : bool) (c : VoldConfigs) : VoldConfigs :=
  mkVoldConfigs (has_adoptable c) (has_quota c) (has_reserved c) b.

(** ** Calls into the platform *)

Inductive Sys : Type :=
  | ReadDefaultFstab
  | fs_mgr_update_logical_partition (entry : FstabEntry)
  | defaultkey_precreate_dm_device
  | GetBoolProperty (key : string) (default_value : bool)
  | addDiskSource (sysPattern nickname : string) (flags : Z)
  | LOG (s : LogSeverity) (msg : string)
  | PLOG (s : LogSeverity) (msg : string)
  | logd_logger (l : LogLine)
  | KernelLogger (l : LogLine)
  | access (path : string) (mode : Z)
    (* reading the global of FsCrypt.h *)
  | fscrypt_init_user0_done.

Inductive Reply : Type :=
  | Done
  | Bool (b : bool)
  | Int (z : Z)
  | Fstab (ok : bool) (entries : list FstabEntry)
    (* the result of the update and the block device it has set *)
  | Updated (ok : bool) (blk_device : string).

Definition Event : Type := Sys * Reply.

(** The platform: a call returns its answer and the next state of the
    world.  [ReadDefaultFstab] answers with the fstab it has filled;
    [fs_mgr_update_logical_partition] answers with its result and with the
    block device it has written into the entry.  [kDefaultPrimary] is the
    flag of model/Disk.h. *)
Record Platform := mkPlatform {
  Outside : Type;
  p_int : Sys -> Outside -> Z * Outside;
  p_bool : Sys -> Outside -> bool * Outside;
  p_fstab : Outside -> (bool * list FstabEntry) * Outside;
  p_update : FstabEntry -> Outside -> (bool * string) * Outside;
  kDefaultPrimary : Z
}.

(** How a piece of code ends: with a value, or in [abort()] after a FATAL
    log line. *)
Inductive Outcome (A : Type) : Type :=
  | Value (a : A)
  | Aborted.
Arguments Value {A} a.
Arguments Aborted {A}.

Section Monad.

Variable P : Platform.
(** [G]: the variables of the program the code works on. *)
Variable G : Type.

Definition V (A : Type) : Type :=
  G * Outside P -> Outcome A * (G * Outside P) * list Event.

Definition ret {A} (a : A) : V A := fun s => (Value a, s, []).
Definition abort {A} : V A := fun s => (Aborted, s, []).

Definition bind {A B} (m : V A) (f : A -> V B) : V B :=
  fun s =>
    match m s with
    | (Value a, s1, t1) =>
        match f a s1 with
        | (o, s2, t2) => (o, s2, t1 ++ t2)
        end
    | (Aborted, s1, t1) => (Aborted, s1, t1)
    end.

Definition get : V G := fun s => (Value (fst s), s, []).
Definition modify (f : G -> G) : V unit :=
  fun s => (Value tt, (f (fst s), snd s), []).

Definition call (c : Sys) : V Z :=
  fun s => let (r, w) := p_int P c (snd s) in
           (Value r, (fst s, w), [(c, Int r)]).
Definition ask (c : Sys) : V bool :=
  fun s => let (b, w) := p_bool P c (snd s) in
           (Value b, (fst s, w), [(c, Bool b)]).
Definition proc (c : Sys) : V unit :=
  fun s => let (_, w) := p_int P c (snd s) in
           (Value tt, (fst s, w), [(c, Done)]).
Definition read_fstab : V (bool * list FstabEntry) :=
  fun s => let (x, w) := p_fstab P (snd s) in
           (Value x, (fst s, w), [(ReadDefaultFstab, Fstab (fst x) (snd x))]).
Definition update_logical (entry : FstabEntry) : V (bool * string) :=
  fun s => let (x, w) := p_update P entry (snd s) in
           (Value x, (fst s, w),
            [(fs_mgr_update_logical_partition entry, Updated (fst x) (snd x))]).
Definition log (c : Sys) : V unit := fun s => (Value tt, s, [(c, Done)]).

Definition when (b : bool) (m : V unit) : V unit := if b then m else ret tt.

(** [a && f()] and [a || f()] where [f] has an effect. *)
Definition andalso (a : bool) (m : V bool) : V bool :=
  if a then m else ret false.
Definition orelse (a : bool) (m : V bool) : V bool :=
  if a then ret true else m.

End Monad.

Arguments ret {P G A} a.
Arguments abort {P G A}.
Arguments bind {P G A B} m f.
Arguments get {P G}.
Arguments modify {P G} f.
Arguments call {P G} c.
Arguments ask {P G} c.
Arguments proc {P G} c.
Arguments read_fstab {P G}.
Arguments update_logical {P G} entry.
Arguments log {P G} c.
Arguments when {P G} b m.
Arguments andalso {P G} a m.
Arguments orelse {P G} a m.

Declare Scope daemon_scope.
Delimit Scope daemon_scope with daemon.
Notation "x <- m ;; k" := (bind m (fun x => k))
  (at level 61, m at next level, right associativity) : daemon_scope.
Notation "m ;;; k" := (bind m (fun _ => k))
  (at level 61, right associativity) : daemon_scope.
Open Scope daemon_scope.

Definition outcome {P G A} (r : Outcome A * (G * Outside P) * list Event)
  : Outcome A := fst (fst r).
Definition globals {P G A} (r : Outcome A * (G * Outside P) * list Event)
  : G := fst (snd (fst r)).
Definition trace {P G A} (r : Outcome A * (G * Outside P) * list Event)
  : list Event := snd r.

(** ** process_config *)

Section Config.

Variable P : Platform.

(** Lines 241-281, the body of the loop for one entry.  [continue] is the
    end of the body. *)
Definition process_entry (entry : FstabEntry) : V P VoldConfigs unit :=
  when (quota (fs_mgr_flags entry)) (modify (set_has_quota true)) ;;;
  when (reserved_size entry >? 0) (modify (set_has_reserved true)) ;;;
  when (fs_compress (fs_mgr_flags entry)) (modify (set_has_compress true)) ;;;
  (* Make sure logical partitions have an updated blk_device. *)
  entry <-
    (if logical (fs_mgr_flags entry) then
       x <- update_logical entry ;;
       let entry := set_blk_device (snd x) entry in
       if negb (fst x) && negb (no_fail (fs_mgr_flags entry)) then
         log (PLOG FATAL ("could not find logical partition "
                          +++ blk_device entry)) ;;;
         abort
       else ret entry
     else ret entry) ;;
  when (String.eqb (mount_point entry) "/data"
        && negb (String.eqb (metadata_key_dir entry) EmptyString))
       (* Pre-populate userdata dm-devices since the uevents are
          asynchronous (b/198405417). *)
       (proc defaultkey_precreate_dm_device) ;;;
  if vold_managed (fs_mgr_flags entry) then
    if nonremovable (fs_mgr_flags entry) then
      log (LOG WARNING "nonremovable no longer supported; ignoring volume")
    else
      let sysPattern := blk_device entry in
      let nickname := label entry in
      let flags := 0 in
      (* if (entry.is_encryptable()) { } *)
      primary <- orelse (no_emulated_sd (fs_mgr_flags entry))
                        (ask (GetBoolProperty "vold.debug.default_primary" false)) ;;
      let flags := if primary then Z.lor flags (kDefaultPrimary P) else flags in
      proc (addDiskSource sysPattern nickname flags)
  else ret tt.

(** Line 240: [for (auto& entry : fstab_default)]. *)
Fixpoint for_each_entry (fstab : list FstabEntry) : V P VoldConfigs unit :=
  match fstab with
  | [] => ret tt
  | entry :: rest => process_entry entry ;;; for_each_entry rest
  end.

Definition process_config : V P VoldConfigs Z :=
  x <- read_fstab ;;
  if negb (fst x) then
    log (PLOG ERROR "Failed to open default fstab") ;;;
    ret (-1)
  else
    (* Loop through entries looking for ones that vold manages *)
    modify (set_has_adoptable false) ;;;
    modify (set_has_quota false) ;;;
    modify (set_has_reserved false) ;;;
    modify (set_has_compress false) ;;;
    for_each_entry (snd x) ;;;
    ret 0.

End Config.

(** ** VoldLogger *)

Definition F_OK : Z := 0.

Section Logger.

Variable P : Platform.

(** The variable of the program is the static [early_boot_done]. *)
Definition VoldLogger (l : LogLine) : V P bool unit :=
  proc (logd_logger l) ;;;
  if rank WARNING <=? rank (severity l) then
    early_boot_done <- get ;;
    if negb early_boot_done then
      a <- call (access "/data/misc/vold" F_OK) ;;
      up <- andalso (a =? 0) (ask fscrypt_init_user0_done) ;;
      if up then
        modify (fun _ => true)
      else
        proc (KernelLogger l)
    else ret tt
  else ret tt.

(** The lines logged one after the other. *)
Fixpoint logAll (ls : list LogLine) : V P bool unit :=
  match ls with
  | [] => ret tt
  | l :: rest => VoldLogger l ;;; logAll rest
  end.

End Logger.

(** ** parse_args *)

Record Contexts := mkContexts {
  sBlkidContext : option string;
  sBlkidUntrustedContext : option string;
  sFsckContext : option string;
  sFsckUntrustedContext : option string
}.

(** The code of a character, written as a string of length one. *)
Definition code (c : string) : Z :=
  match c with
  | String a _ => Z.of_nat (Ascii.nat_of_ascii a)
  | EmptyString => 0
  end.

(** Lines 170-177, the [switch] for one answer [c] of [getopt_long], the
    pointer [optarg] being [None] if it is null. *)
Definition switch_option (c : Z) (optarg : option string) (g : Contexts)
  : Contexts :=
  if c =? code "b" then
    mkContexts optarg (sBlkidUntrustedContext g) (sFsckContext g)
      (sFsckUntrustedContext g)
  else if c =? code "B" then
    mkContexts (sBlkidContext g) optarg (sFsckContext g)
      (sFsckUntrustedContext g)
  else if c =? code "f" then
    mkContexts (sBlkidContext g) (sBlkidUntrustedContext g) optarg
      (sFsckUntrustedContext g)
  else if c =? code "F" then
    mkContexts (sBlkidContext g) (sBlkidUntrustedContext g) (sFsckContext g)
      optarg
  else g.

(** Lines 169-178; [answers] are the answers of [getopt_long] and the
    values of [optarg] up to the first answer -1. *)
Fixpoint getopt_loop (answers : list (Z * option string)) (g : Contexts)
  : Contexts :=
  match answers with
  | [] => g
  | (c, optarg) :: rest => getopt_loop rest (switch_option c optarg g)
  end.

Definition is_null (p : option string) : bool :=
  match p with
  | None => true
  | Some _ => false
  end.

(** [None]: one of the four [CHECK]s failed and the process was aborted. *)
Definition parse_args (answers : list (Z * option string)) (g : Contexts)
  : option Contexts :=
  let g := getopt_loop answers g in
  if is_null (sBlkidContext g) then None
  else if is_null (sBlkidUntrustedContext g) then None
  else if is_null (sFsckContext g) then None
  else if is_null (sFsckUntrustedContext g) then None
  else Some g.

(** ** coldboot *)

Definition DT_DIR : Z := 4.

(** A directory as [do_coldboot] sees it: whether its [uevent] file can be
    opened for writing, and the entries that [readdir] returns, each with
    its name, its [d_type] and what opening it as a directory gives. *)
Inductive Dir : Type :=
  | mkDir (uevent : bool) (entries : list Dirent)
with Dirent : Type :=
  | mkDirent (d_name : string) (d_type : Z) (node : Node)
with Node : Type :=
    (* [openat] fails *)
  | NoFd
    (* [openat] succeeds, [fdopendir] fails *)
  | NoStream
    (* both succeed *)
  | Stream (d : Dir).

Inductive FsOp : Type :=
  | openat_uevent (ok : bool)
  | write_add
  | close
  | readdir (name : option string)
  | openat_dir (name : string) (ok : bool)
  | fdopendir (ok : bool)
  | closedir
  | opendir (path : string) (ok : bool).

(** [de->d_name[0] == '.'] *)
Definition starts_with_dot (name : string) : bool := String.prefix "." name.

Fixpoint do_coldboot (d : Dir) (lvl : Z) {struct d} : list FsOp :=
  match d with
  | mkDir uevent entries =>
      (if uevent then [openat_uevent true; write_add; close]
       else [openat_uevent false])
      ++ (fix while_readdir (des : list Dirent) : list FsOp :=
            match des with
            | [] => [readdir None]
            | mkDirent d_name d_type node :: rest =>
                readdir (Some d_name)
                :: (if starts_with_dot d_name then []
                    else if negb (d_type =? DT_DIR) && (lvl >? 0) then []
                    else
                      match node with
                      | NoFd => [openat_dir d_name false]
                      | NoStream =>
                          [openat_dir d_name true; fdopendir false; close]
                      | Stream d2 =>
                          [openat_dir d_name true; fdopendir true]
                          ++ do_coldboot d2 (lvl + 1) ++ [closedir]
                      end)
                ++ while_readdir rest
            end) entries
  end.

(** [sys path]: what [opendir(path)] gives. *)
Definition coldboot (sys : string -> option Dir) (path : string) : list FsOp :=
  match sys path with
  | Some d => opendir path true :: do_coldboot d 0 ++ [closedir]
  | None => [opendir path false]
  end.

(** Descriptors and streams acquired and released by a trace. *)
Definition acquires (o : FsOp) : bool :=
  match o with
  | openat_uevent true | openat_dir _ true | opendir _ true => true
  | _ => false
  end.

Definition releases (o : FsOp) : bool :=
  match o with
  | close | closedir => true
  | _ => false
  end.

(** The number of descriptors open after a trace that started with [n]
    open ones; [None] if the trace releases one that is not open. *)
Fixpoint open_after (t : list FsOp) (n : nat) : option nat :=
  match t with
  | [] => Some n
  | o :: rest =>
      if acquires o then open_after rest (S n)
      else if releases o then
        match n with
        | O => None
        | S n' => open_after rest n'
        end
      else open_after rest n
  end.

(** The directories of a tree that [do_coldboot] enters, from level [lvl]
    on: the tree itself and, of its entries, those that do not start with a
    dot, are of type directory if below the top level, and can be opened. *)
Fixpoint visited (d : Dir) (lvl : Z) {struct d} : list Dir :=
  match d with
  | mkDir uevent entries =>
      d :: (fix each (des : list Dirent) : list Dir :=
              match des with
              | [] => []
              | mkDirent d_name d_type node :: rest =>
                  (if starts_with_dot d_name then []
                   else if negb (d_type =? DT_DIR) && (lvl >? 0) then []
                   else match node with
                        | Stream d2 => visited d2 (lvl + 1)
                        | _ => []
                        end)
                  ++ each rest
              end) entries
  end.

Definition has_uevent (d : Dir) : bool :=
  match d with
  | mkDir uevent _ => uevent
  end.

Definition is_write (o : FsOp) : bool :=
  match o with
  | write_add => true
  | _ => false
  end.

(** ** Reading the traces of the daemon *)

(** The disk sources a trace adds: pattern, nickname and flags, in the
    order of the calls. *)
Fixpoint added (t : list Event) : list (string * string * Z) :=
  match t with
  | [] => []
  | (addDiskSource sysPattern nickname flags, _) :: rest =>
      (sysPattern, nickname, flags) :: added rest
  | _ :: rest => added rest
  end.

(** The flags after the entries [es], from the flags [c]. *)
Definition flagsAfter (es : list FstabEntry) (c : VoldConfigs) : VoldConfigs :=
  mkVoldConfigs (has_adoptable c)
    (has_quota c || existsb (fun e => quota (fs_mgr_flags e)) es)
    (has_reserved c || existsb (fun e => reserved_size e >? 0) es)
    (has_compress c || existsb (fun e => fs_compress (fs_mgr_flags e)) es).

(** An entry that vold manages and that is removable. *)
Definition managed (e : FstabEntry) : bool :=
  vold_managed (fs_mgr_flags e) && negb (nonremovable (fs_mgr_flags e)).

(** What is known of the disk source added for the entry [e]. *)
Definition sourceOf (P : Platform) (e : FstabEntry) (d : string * string * Z)
  : Prop :=
  let '(sysPattern, nickname, flags) := d in
  nickname = label e
  /\ (logical (fs_mgr_flags e) = false -> sysPattern = blk_device e)
  /\ (no_emulated_sd (fs_mgr_flags e) = true -> flags = kDefaultPrimary P)
  /\ (flags = 0 \/ flags = kDefaultPrimary P).

(** The update of a logical partition failed for an entry that is not
    marked [no_fail]. *)
Definition isFatalUpdate (e : Event) : bool :=
  match e with
  | (fs_mgr_update_logical_partition entry, Updated ok _) =>
      negb ok && negb (no_fail (fs_mgr_flags entry))
  | _ => false
  end.

Definition isFatalLog (e : Event) : bool :=
  match e with
  | (PLOG FATAL _, _) => true
  | _ => false
  end.

Definition isLogd (e : Event) : bool :=
  match e with
  | (logd_logger _, _) => true
  | _ => false
  end.

(** The entry that ends the early boot: [fscrypt_init_user0_done] was read
    as true (which is done only after [access] has found /data/misc/vold). *)
Definition bootDone : Event := (fscrypt_init_user0_done, Bool true).

(** The variable that the option character [c] names. *)
Definition selected (c : Z) (g : Contexts) : option (option string) :=
  if c =? code "b" then Some (sBlkidContext g)
  else if c =? code "B" then Some (sBlkidUntrustedContext g)
  else if c =? code "f" then Some (sFsckContext g)
  else if c =? code "F" then Some (sFsckUntrustedContext g)
  else None.

(** Lines 199-214, the body of the loop for one entry, [readdir] included. *)
Definition enter (lvl : Z) (de : Dirent) : list FsOp :=
  match de with
  | mkDirent d_name d_type node =>
      readdir (Some d_name)
      :: (if starts_with_dot d_name then []
          else if negb (d_type =? DT_DIR) && (lvl >? 0) then []
          else
            match node with
            | NoFd => [openat_dir d_name false]
            | NoStream => [openat_dir d_name true; fdopendir false; close]
            | Stream d2 =>
                [openat_dir d_name true; fdopendir true]
                ++ do_coldboot d2 (lvl + 1) ++ [closedir]
            end)
  end.

(** The directories below an entry that [do_coldboot] enters. *)
Definition below (lvl : Z) (de : Dirent) : list Dir :=
  match de with
  | mkDirent d_name d_type node =>
      if starts_with_dot d_name then []
      else if negb (d_type =? DT_DIR) && (lvl >? 0) then []
      else match node with
           | Stream d2 => visited d2 (lvl + 1)
           | _ => []
           end
  end.

(** The height of a tree. *)
Fixpoint height (d : Dir) : nat :=
  match d with
  | mkDir _ entries =>
      S ((fix each (des : list Dirent) : nat :=
            match des with
            | [] => O
            | mkDirent _ _ node :: rest =>
                Nat.max (match node with
                         | Stream d2 => height d2
                         | _ => O
                         end) (each rest)
            end) entries)
  end.

(** ** Inputs of the examples *)

Definition plain (blk mnt lbl : string) (f : FsMgrFlags) : FstabEntry :=
  mkFstabEntry blk mnt lbl EmptyString 0 f.

Definition flags_none : FsMgrFlags :=
  mkFsMgrFlags false false false false false false false.

(** userdata with quota; an SD card slot managed by vold; an internal
    nonremovable volume; a USB slot with [no_emulated_sd]. *)
Definition fstab_example : list FstabEntry :=
  [ mkFstabEntry "/dev/block/by-name/userdata" "/data" EmptyString
      "/metadata/vold/metadata_encryption" 134217728
      (mkFsMgrFlags true true false false false false false);
    plain "/devices/platform/soc/sdhci*" "auto" "sdcard1"
      (mkFsMgrFlags false false false false true false false);
    plain "/devices/platform/soc/emmc*" "auto" "internal"
      (mkFsMgrFlags false false false false true true false);
    plain "/devices/platform/soc/usb*" "auto" "usbotg"
      (mkFsMgrFlags false false false false true false true) ].

(** A platform with the given fstab; the world is a counter of calls that
    answer an int, [access] fails while it is below [ready], and the update
    of logical partitions answers [upd]. *)
Definition board (ok : bool) (fstab : list FstabEntry) (ready : Z) (upd : bool)
  : Platform :=
  mkPlatform Z
    (fun c w => match c with
                | access _ _ => ((if w <? ready then -1 else 0), w + 1)
                | _ => (0, w + 1)
                end)
    (fun c w => (match c with
                 | fscrypt_init_user0_done => true
                 | _ => false
                 end, w))
    (fun w => ((ok, fstab), w))
    (fun e w => ((upd, "/dev/block/dm-0"), w))
    2.

Definition entry_of (s : LogSeverity) (msg : string) : LogLine :=
  mkLogLine 3 s "vold" "main.cpp" 0 msg.

(** /sys/block with a disk that has a partition, a hidden entry, a file at
    the top level and a symbolic link to a directory below it. *)
Definition sys_block : Dir :=
  mkDir false
    [ mkDirent "." 4 (Stream (mkDir false []));
      mkDirent "sda" 10
        (Stream (mkDir true
                   [ mkDirent "sda1" 4 (Stream (mkDir true []));
                     mkDirent "device" 10 (Stream (mkDir true []));
                     mkDirent "size" 8 NoFd;
                     mkDirent "queue" 4 NoStream ]));
      mkDirent "README" 8 NoFd ].

End Vold.

Close Scope daemon_scope.

(** * Proofs *)

(** ** Running a computation symbolically *)

#[local] Arguments String.append : simpl never.
#[local] Arguments to_string : simpl never.

Ltac oracle :=
  match goal with
  | |- context [sys_bool ?E ?c ?w] =>
      let b := fresh "b" in let w' := fresh "w" in
      destruct (sys_bool E c w) as [b w'] eqn:?
  | |- context [sys_int ?E ?c ?w] =>
      let r := fresh "r" in let w' := fresh "w" in
      destruct (sys_int E c w) as [r w'] eqn:?
  | |- context [sys_size ?E ?c ?w] =>
      let w' := fresh "w" in
      destruct (sys_size E c w) as [[? ?] w'] eqn:?
  | |- context [sys_users ?E ?c ?w] =>
      let us := fresh "us" in let w' := fresh "w" in
      destruct (sys_users E c w) as [us w'] eqn:?
  | |- context [sys_meta ?E ?c ?w] =>
      let w' := fresh "w" in
      destruct (sys_meta E c w) as [[? [[? ?] ?]] w'] eqn:?
  end.

Ltac unfold_m :=
  unfold bind, this, update, errno, call, ask, users, metadata,
    blockdev_size, log, when, ret, return_, child_exit, out_of_fuel, invoke,
    flow, final, events, vol, world in *.

Ltac branch :=
  match goal with
  | |- context [if ?b then _ else _] => destruct b eqn:?
  end.

Ltac exec := repeat (first [oracle | branch]; simpl).

Ltac in_cases H :=
  repeat match type of H with
         | In _ (_ :: _) => destruct H as [H | H]; [try discriminate H | ]
         | _ \/ _ => destruct H as [H | H]; [try discriminate H | ]
         | In _ [] => destruct H
         end.

(** ** doFormat *)

(** C10. A format request that resolves to no supported filesystem is
    answered with -EINVAL, and only after the device has been wiped: the run
    consists of the two support queries, the call of [WipeBlockDevice] (with
    a warning if it failed) and the error message; no [Format] call is made
    and the volume object is unchanged. *)
Theorem doFormat_unsupported_after_wipe E (s : St E) fsType v e :
  let r := doFormat E fsType s in
  In (vfat_IsSupported, RBool v) (events r) ->
  In (exfat_IsSupported, RBool e) (events r) ->
  unsupportedRequest fsType v e ->
  flow r = Return (- EINVAL)
  /\ (exists w,
        events r =
          [(vfat_IsSupported, RBool v); (exfat_IsSupported, RBool e);
           (WipeBlockDevice (mDevPath (vol s)), RInt w)]
          ++ (if w =? OK then []
              else [(LOG WARNING (getId (vol s) +++ " failed to wipe"), RUnit)])
          ++ [(LOG ERROR ("Unsupported filesystem " +++ fsType), RUnit)])
  /\ formatted (events r) = NONE
  /\ vol (final r) = vol s.
Proof.
  destruct s as [vl w0]. unfold doFormat. unfold_m. simpl.
  do 2 oracle. simpl.
  intros Hv He Hun.
  assert (v = b /\ e = b0) as [-> ->].
  { revert Hv He. clear. repeat (first [oracle | branch]; simpl);
      intuition congruence. }
  clear Hv He.
  assert (Hpick : String.eqb fsType "auto" && b && b0 = false
                  /\ String.eqb fsType "auto" && b0 = false
                  /\ String.eqb fsType "auto" && b = false
                  /\ String.eqb fsType "vfat" && b = false
                  /\ String.eqb fsType "exfat" && b0 = false).
  { destruct Hun as [(-> & -> & ->) | (Hna & Hnv & Hne)]; simpl; auto.
    apply String.eqb_neq in Hna. rewrite Hna. simpl.
    repeat split; auto.
    - destruct (String.eqb fsType "vfat") eqn:Ev; auto.
      apply String.eqb_eq in Ev. destruct b; auto. tauto.
    - destruct (String.eqb fsType "exfat") eqn:Ev; auto.
      apply String.eqb_eq in Ev. destruct b0; auto. tauto. }
  destruct Hpick as (H1 & H2 & H3 & H4 & H5).
  rewrite H1, H2, H3, H4, H5. simpl.
  oracle. simpl.
  destruct (r =? OK) eqn:Er; simpl; repeat split; eauto;
    exists r; rewrite Er; reflexivity.
Qed.

(** C1 (amended). With fsType "auto": when both filesystems are supported
    and the size of the device has been read, a size up to and including
    the threshold of 32896 MiB (so the threshold itself, and one byte below
    it) formats with vfat, and a size strictly above the threshold formats
    with exfat; when only one of the two is supported, that one is used and
    the size is not even read. *)
Theorem doFormat_auto_selection E (s : St E) v e :
  let r := doFormat E "auto" s in
  In (vfat_IsSupported, RBool v) (events r) ->
  In (exfat_IsSupported, RBool e) (events r) ->
  (v = true -> e = true ->
   forall size,
     In (GetBlockDevSize (mDevPath (vol s)), RSize OK size) (events r) ->
     0 <= size < 2 ^ 64 ->
     (size <= kAutoThreshold -> formatted (events r) = VFAT)
     /\ (kAutoThreshold < size -> formatted (events r) = EXFAT))
  /\ (v = true -> e = false ->
      formatted (events r) = VFAT
      /\ ~ called (GetBlockDevSize (mDevPath (vol s))) (events r))
  /\ (v = false -> e = true ->
      formatted (events r) = EXFAT
      /\ ~ called (GetBlockDevSize (mDevPath (vol s))) (events r)).
Proof.
  destruct s as [vl w0]. unfold doFormat, called. unfold_m. simpl.
  do 2 oracle. simpl.
  intros Hv He.
  assert (v = b /\ e = b0) as [-> ->].
  { revert Hv He. clear. repeat (first [oracle | branch]; simpl);
      intuition congruence. }
  clear Hv He.
  split; [|split].
  - intros -> -> size. simpl. oracle. simpl.
    destruct (z =? OK) eqn:Ez; simpl.
    + intros Hin Hsz.
      assert (z0 = size) as ->.
      { revert Hin. clear. repeat (first [oracle | branch]; simpl);
          intuition congruence. }
      rewrite Z.mod_small by exact Hsz.
      clear Hin. split; intros Hcmp.
      * destruct (size >? kAutoThreshold) eqn:Ec; [lia|].
        simpl. repeat (first [oracle | branch]; simpl); reflexivity.
      * destruct (size >? kAutoThreshold) eqn:Ec; [|lia].
        simpl. repeat (first [oracle | branch]; simpl); reflexivity.
    + intros [Hin | [Hin | [Hin | [Hin | []]]]]; inversion Hin; subst.
      discriminate.
  - intros -> ->. simpl.
    repeat (first [oracle | branch]; simpl); split; try reflexivity;
      intros [a Hin]; simpl in Hin; intuition discriminate.
  - intros -> ->. simpl.
    repeat (first [oracle | branch]; simpl); split; try reflexivity;
      intros [a Hin]; simpl in Hin; intuition discriminate.
Qed.

Lemma doFormat_auto_selection_witness :
  formatted (events (doFormat (Inputs.card (kAutoThreshold - 1)) "auto" Inputs.fresh))
  = VFAT.
Proof.
  destruct (doFormat_auto_selection (Inputs.card (kAutoThreshold - 1))
              Inputs.fresh true true) as [H _].
  - vm_compute. tauto.
  - vm_compute. tauto.
  - assert (Hin : In (GetBlockDevSize (mDevPath (vol Inputs.fresh)),
                      RSize OK (kAutoThreshold - 1))
                     (events (doFormat (Inputs.card (kAutoThreshold - 1)) "auto"
                                Inputs.fresh))).
    { vm_compute. tauto. }
    assert (Hsz : 0 <= kAutoThreshold - 1 < 2 ^ 64).
    { unfold kAutoThreshold. lia. }
    destruct (H eq_refl eq_refl (kAutoThreshold - 1) Hin Hsz) as [Hle _].
    apply Hle. vm_compute. discriminate.
Defined.

(** C1, as stated, fails for a device of exactly the threshold size: both
    filesystems are supported, the size read is 32896 MiB, and the device is
    formatted with vfat, not exfat. *)
Lemma doFormat_at_threshold_counterexample :
  let r := doFormat (Inputs.card kAutoThreshold) "auto" Inputs.fresh in
  In (vfat_IsSupported, RBool true) (events r)
  /\ In (exfat_IsSupported, RBool true) (events r)
  /\ In (GetBlockDevSize "/dev/block/vold/public:8,1", RSize OK kAutoThreshold)
        (events r)
  /\ kAutoThreshold = 32896 * 1024 * 1024
  /\ formatted (events r) = VFAT
  /\ formatted (events r) <> EXFAT.
Proof.
  vm_compute. intuition discriminate.
Qed.

Lemma doFormat_unsupported_after_wipe_witness :
  flow (doFormat (Inputs.supports Inputs.no_fs) "auto" Inputs.fresh)
  = Return (- EINVAL).
Proof.
  apply (doFormat_unsupported_after_wipe (Inputs.supports Inputs.no_fs)
           Inputs.fresh "auto" false false).
  - vm_compute. tauto.
  - vm_compute. tauto.
  - left. repeat split.
Defined.

(** ** The logic of call sets *)

Lemma only_app A t1 t2 : only A t1 -> only A t2 -> only A (t1 ++ t2).
Proof. unfold only. rewrite Forall_app. tauto. Qed.

Lemma only_cons A c a t : A c = true -> only A t -> only A ((c, a) :: t).
Proof. intros. constructor; assumption. Qed.

Lemma only_weaken (A B : Call -> bool) t :
  (forall c, A c = true -> B c = true) -> only A t -> only B t.
Proof.
  intros H. unfold only. apply Forall_impl. intros [c a]. simpl. apply H.
Qed.

Lemma only_not_in A t c a : only A t -> A c = false -> ~ In (c, a) t.
Proof.
  unfold only. rewrite Forall_forall. intros H Hc Hin.
  apply H in Hin. simpl in Hin. congruence.
Qed.

Section Logic.

Variable E : Env.

Lemma obeys_ret {X} A (x : X) : obeys A (ret (E:=E) x).
Proof. intros s. repeat split. constructor. Qed.

Lemma obeys_return {X} A r : obeys A (return_ (E:=E) (A:=X) r).
Proof. intros s. repeat split. constructor. Qed.

Lemma obeys_child_exit {X} A : obeys A (child_exit (E:=E) (A:=X)).
Proof. intros s. repeat split. constructor. Qed.

Lemma obeys_out_of_fuel {X} A : obeys A (out_of_fuel (E:=E) (A:=X)).
Proof. intros s. repeat split. constructor. Qed.

Lemma obeys_this A : obeys A (this (E:=E)).
Proof. intros s. repeat split. constructor. Qed.

Lemma obeys_update A f : keeps_owner f -> obeys A (update (E:=E) f).
Proof. intros H s. destruct (H (vol s)). repeat split; auto. constructor. Qed.

Lemma obeys_call A c : A c = true -> obeys A (call (E:=E) c).
Proof.
  intros H s. unfold call. destruct (sys_int E c (world s)).
  repeat split. repeat constructor. exact H.
Qed.

Lemma obeys_ask A c : A c = true -> obeys A (ask (E:=E) c).
Proof.
  intros H s. unfold ask. destruct (sys_bool E c (world s)).
  repeat split. repeat constructor. exact H.
Qed.

Lemma obeys_users A c : A c = true -> obeys A (users (E:=E) c).
Proof.
  intros H s. unfold users. destruct (sys_users E c (world s)).
  repeat split. repeat constructor. exact H.
Qed.

Lemma obeys_metadata A c : A c = true -> obeys A (metadata (E:=E) c).
Proof.
  intros H s. unfold metadata. destruct (sys_meta E c (world s)).
  repeat split. repeat constructor. exact H.
Qed.

Lemma obeys_blockdev_size A c : A c = true -> obeys A (blockdev_size (E:=E) c).
Proof.
  intros H s. unfold blockdev_size. destruct (sys_size E c (world s)).
  repeat split. repeat constructor. exact H.
Qed.

Lemma obeys_log A c : A c = true -> obeys A (log (E:=E) c).
Proof. intros H s. repeat split. repeat constructor. exact H. Qed.

Lemma obeys_errno A : A read_errno = true -> obeys A (errno (E:=E)).
Proof. apply obeys_call. Qed.

Lemma obeys_bind {X Y} A (m : M E X) (f : X -> M E Y) :
  obeys A m -> (forall x, obeys A (f x)) -> obeys A (bind m f).
Proof.
  intros Hm Hf s. unfold bind. specialize (Hm s).
  destruct (m s) as [[fl s1] t1]. unfold events, final in *. simpl in *.
  destruct Hm as (H1 & H2 & H3).
  destruct fl; simpl; auto.
  specialize (Hf a s1). destruct (f a s1) as [[fl2 s2] t2].
  unfold events, final in *. simpl in *.
  destruct Hf as (G1 & G2 & G3).
  repeat split; try congruence. apply only_app; assumption.
Qed.

Lemma obeys_invoke A (m : M E Z) : obeys A m -> obeys A (invoke m).
Proof.
  intros Hm s. unfold invoke. specialize (Hm s).
  destruct (m s) as [[fl s1] t1]. destruct fl; exact Hm.
Qed.

Lemma obeys_weaken {X} (A B : Call -> bool) (m : M E X) :
  (forall c, A c = true -> B c = true) -> obeys A m -> obeys B m.
Proof.
  intros H Hm s. destruct (Hm s) as (H1 & H2 & H3).
  repeat split; auto. eapply only_weaken; eauto.
Qed.

(** How [bind] runs, by the way its first part ends. *)
Lemma bind_run {X Y} (m : M E X) (f : X -> M E Y) s :
  bind m f s =
  match flow (m s) with
  | Next x =>
      let r' := f x (final (m s)) in
      (flow r', final r', events (m s) ++ events r')
  | Return z => (Return z, final (m s), events (m s))
  | ChildExit => (ChildExit, final (m s), events (m s))
  | OutOfFuel => (OutOfFuel, final (m s), events (m s))
  end.
Proof.
  unfold bind, flow, final, events. destruct (m s) as [[fl s1] t1]. simpl.
  destruct fl; try reflexivity. destruct (f a s1) as [[fl2 s2] t2]. reflexivity.
Qed.

End Logic.

Ltac keeps := intros ?; split; reflexivity.

Ltac obey :=
  repeat first
    [ progress intros
    | match goal with
      | |- obeys _ (ret _) => apply obeys_ret
      | |- obeys _ (return_ _) => apply obeys_return
      | |- obeys _ child_exit => apply obeys_child_exit
      | |- obeys _ out_of_fuel => apply obeys_out_of_fuel
      | |- obeys _ this => apply obeys_this
      | |- obeys _ (bind _ _) => apply obeys_bind
      | |- obeys _ (invoke _) => apply obeys_invoke
      | |- obeys _ (update _) => apply obeys_update; keeps
      | |- obeys _ errno => apply obeys_errno; reflexivity
      | |- obeys _ (call _) => apply obeys_call; reflexivity
      | |- obeys _ (ask _) => apply obeys_ask; reflexivity
      | |- obeys _ (users _) => apply obeys_users; reflexivity
      | |- obeys _ (metadata _) => apply obeys_metadata; reflexivity
      | |- obeys _ (blockdev_size _) => apply obeys_blockdev_size; reflexivity
      | |- obeys _ (log _) => apply obeys_log; reflexivity
      | |- obeys _ (when _ _) => unfold when
      | |- obeys _ (andalso _ _ _) => unfold andalso
      | |- obeys _ (if ?b then _ else _) => destruct b
      | |- obeys _ (match ?x with _ => _ end) => destruct x
      end ].

(** ** doUnmount *)

Section Unmount.

Variable E : Env.

Lemma unbindStartedUsers_obeys started user_id name :
  obeys unbindCalls (unbindStartedUsers E started user_id name).
Proof. induction started; simpl; obey; auto. Qed.

(** The loop over the started users falls through, leaves the object alone
    and force-unmounts and removes the mount path of every started user
    other than the owner. *)
Lemma unbindStartedUsers_run started user_id name (s : St E) :
  let r := unbindStartedUsers E started user_id name s in
  flow r = Next tt
  /\ vol (final r) = vol s
  /\ (forall u, In u started -> u <> user_id ->
        called (ForceUnmount (GetFuseMountPathForUser E u name)) (events r)
        /\ called (rmdir (GetFuseMountPathForUser E u name)) (events r)).
Proof.
  revert s. induction started as [|u0 rest IH]; intros s.
  - simpl. split; [reflexivity|]. split; [reflexivity|]. intros u [].
  - cbn [unbindStartedUsers]. destruct s as [v w].
    destruct (u0 =? user_id) eqn:Eu.
    + unfold_m. simpl. specialize (IH (v, w)).
      destruct (unbindStartedUsers E rest user_id name (v, w)) as [[fl s1] t1].
      unfold_m. simpl in *. destruct IH as (-> & Hv & Hc).
      split; [reflexivity|]. split; [assumption|].
      intros u [<- | Hin] Hne; [apply Z.eqb_eq in Eu; tauto|].
      apply Hc; assumption.
    + unfold_m. simpl. do 2 oracle. simpl.
      specialize (IH (v, w1)).
      destruct (unbindStartedUsers E rest user_id name (v, w1)) as [[fl s1] t1].
      unfold_m. simpl in *. destruct IH as (-> & Hv & Hc).
      split; [reflexivity|]. split; [assumption|].
      intros u [<- | Hin] Hne.
      * split; eexists; simpl; eauto.
      * destruct (Hc u Hin Hne) as [[a Ha] [a' Ha']].
        split; [exists a | exists a']; simpl; tauto.
Qed.

(** Lines 622-649.  Without a FUSE mount nothing happens.  With one, the
    started users are asked for, the loop runs, and [UnmountUserFuse] is
    called; if that fails the function returns [-errno] and the object is as
    before, otherwise the flag is cleared. *)
Lemma unmountFuse_run (s : St E) :
  let r := unmountFuse E s in
  let v := vol s in
  (mFuseMounted v = false -> r = (Next tt, s, []))
  /\ (mFuseMounted v = true ->
      exists started s1 res tail,
        let loop := unbindStartedUsers E started (getMountUserId v)
                      (stableNameOf v) s1 in
        vol s1 = v
        /\ events r =
             (getStartedUsers, RUsers started) :: events loop
             ++ (UnmountUserFuse (getMountUserId v) (getInternalPath v)
                   (stableNameOf v), RInt res) :: tail
        /\ (res = 0 ->
            tail = [] /\ flow r = Next tt
            /\ vol (final r) = set_mFuseMounted false v)
        /\ (res <> 0 ->
            exists e,
              tail = [(PLOG INFO "UnmountUserFuse failed on public fuse volume", RUnit);
                      (read_errno, RInt e)]
              /\ flow r = Return (- e) /\ vol (final r) = v)).
Proof.
  destruct s as [v w]. unfold unmountFuse. cbn zeta.
  split; intros Hf.
  - unfold_m. simpl in *. rewrite Hf. reflexivity.
  - unfold_m. simpl in *. rewrite Hf. oracle. simpl.
    pose proof (unbindStartedUsers_run us (getMountUserId v) (stableNameOf v)
                  (v, w0)) as Hloop.
    cbn zeta in Hloop.
    destruct (unbindStartedUsers E us (getMountUserId v) (stableNameOf v) (v, w0))
      as [[fl [v1 w1]] t1] eqn:El.
    unfold_m. simpl in *. destruct Hloop as (-> & -> & _).
    oracle. simpl. exists us, (v, w0), r.
    rewrite El. simpl.
    destruct (r =? OK) eqn:Er; simpl.
    + apply Z.eqb_eq in Er. unfold OK in Er. exists [].
      split; [reflexivity|]. split; [reflexivity|]. split.
      * intros _. repeat split.
      * intros Hne. contradiction.
    + apply Z.eqb_neq in Er. unfold OK in Er. oracle. simpl.
      eexists. split; [reflexivity|]. split; [reflexivity|]. split.
      * intros Hz. contradiction.
      * intros _. eexists. repeat split.
Qed.

(** Lines 653-668: with the overlay in use, the four paths are
    force-unmounted and removed, and their fields are cleared whatever the
    calls answered; without it nothing happens. *)
Lemma unmountSdcardFs_run (s : St E) :
  let r := unmountSdcardFs E s in
  let v := vol s in
  flow r = Next tt
  /\ (mUseSdcardFs v = true ->
      map fst (events r) = sdcardFsTeardown v
      /\ vol (final r) = set_mSdcardFs EmptyString EmptyString EmptyString EmptyString v)
  /\ (mUseSdcardFs v = false -> r = (Next tt, s, [])).
Proof.
  destruct s as [v w]. unfold unmountSdcardFs. unfold_m. simpl.
  destruct (mUseSdcardFs v).
  - repeat (oracle; simpl). repeat split; intros; discriminate.
  - repeat split; intros; discriminate.
Qed.

(** Lines 670-678: the raw path is force-unmounted; a failure is followed
    by the detached unmount; then the directory is removed and the field is
    cleared, whatever the calls answered. *)
Lemma unmountRawPath_run (s : St E) :
  let r := unmountRawPath E s in
  let v := vol s in
  flow r = Next tt
  /\ vol (final r) = set_mRawPath EmptyString v
  /\ exists f post,
       events r = (ForceUnmount (mRawPath v), RInt f) :: post
       /\ only rawTailCalls post
       /\ (f <> 0 ->
           exists x d rest,
             post = (umount2 (mRawPath v) MNT_DETACH, RInt x)
                    :: (PLOG INFO "use umount lazy if force unmount fail", RUnit)
                    :: (rmdir (mRawPath v), RInt d) :: rest)
       /\ (f = 0 -> exists d rest, post = (rmdir (mRawPath v), RInt d) :: rest).
Proof.
  destruct s as [v w]. unfold unmountRawPath. unfold_m. simpl.
  oracle. simpl.
  destruct (r =? 0) eqn:Er; simpl;
    [apply Z.eqb_eq in Er | apply Z.eqb_neq in Er].
  - oracle. simpl. destruct (r0 =? 0) eqn:Ed; simpl.
    + split; [reflexivity|]. split; [reflexivity|].
      eexists _, _. split; [reflexivity|].
      split; [repeat constructor|]. split; [tauto|]. eauto.
    + oracle. simpl. split; [reflexivity|]. split; [reflexivity|].
      eexists _, _. split; [reflexivity|].
      split; [repeat constructor|]. split; [tauto|]. eauto.
  - oracle. simpl. oracle. simpl. destruct (r1 =? 0) eqn:Ed; simpl.
    + split; [reflexivity|]. split; [reflexivity|].
      eexists _, _. split; [reflexivity|].
      split; [repeat constructor|]. split; [eauto|tauto].
    + oracle. simpl. split; [reflexivity|]. split; [reflexivity|].
      eexists _, _. split; [reflexivity|].
      split; [repeat constructor|]. split; [eauto|tauto].
Qed.

(** [doUnmount] as the sequence of its blocks. *)
Lemma doUnmount_run (s : St E) :
  let r := doUnmount E s in
  exists k s1,
    vol s1 = vol s
    /\ let rf := unmountFuse E s1 in
       let kill := (KillProcessesUsingPath (getPath (vol s)), RInt k) in
       (forall x, flow rf = Return x ->
          r = (Return x, final rf, kill :: events rf))
       /\ (flow rf = Next tt ->
           exists a s2,
             vol s2 = vol (final rf)
             /\ let rs := unmountSdcardFs E s2 in
                let rr := unmountRawPath E (final rs) in
                r = (Return OK, final rr,
                     kill :: events rf ++ (ForceUnmount kAsecPath, RInt a)
                          :: events rs ++ events rr)).
Proof.
  destruct s as [v w]. unfold doUnmount. unfold_m. simpl.
  oracle. simpl. exists r, (v, w0). split; [reflexivity|].
  destruct (unmountFuse E (v, w0)) as [[fl [v1 w1]] t1]. simpl.
  split.
  - intros x ->. reflexivity.
  - intros ->. oracle. simpl. exists r0, (v1, w2). split; [reflexivity|].
    pose proof (unmountSdcardFs_run (v1, w2)) as Hs. cbn zeta in Hs.
    destruct (unmountSdcardFs E (v1, w2)) as [[fl2 s2] t2].
    unfold_m. simpl in *. destruct Hs as (-> & _).
    pose proof (unmountRawPath_run s2) as Hr. cbn zeta in Hr.
    destruct (unmountRawPath E s2) as [[fl3 s3] t3].
    unfold_m. simpl in *. destruct Hr as (-> & _).
    rewrite app_nil_r. reflexivity.
Qed.


Lemma unmountFuse_next_vol (s : St E) :
  flow (unmountFuse E s) = Next tt ->
  vol (final (unmountFuse E s)) = set_mFuseMounted false (vol s).
Proof.
  intros Hfl. destruct (unmountFuse_run s) as [Hoff Hon].
  destruct (mFuseMounted (vol s)) eqn:Em.
  - destruct (Hon eq_refl) as (started & s1 & res & tail & _ & _ & H0 & Hn0).
    destruct (Z.eq_dec res 0) as [Hz | Hnz].
    + apply H0. exact Hz.
    + destruct (Hn0 Hnz) as (e & _ & Hfl' & _). congruence.
  - rewrite (Hoff eq_refl). destruct s as [v w]. simpl in *.
    destruct v. simpl in *. subst. reflexivity.
Qed.

(** [doUnmount], by the way the FUSE block ends: it returns early with what
    the block returns, or it goes through the secure-app unmount, the
    overlay teardown and the raw unmount and returns OK. *)
Lemma doUnmount_cases (s : St E) :
  let r := doUnmount E s in
  let v := vol s in
  exists k s1,
    vol s1 = v
    /\ let rf := unmountFuse E s1 in
       let kill := (KillProcessesUsingPath (getPath v), RInt k) in
       (forall x, flow rf = Return x ->
          r = (Return x, final rf, kill :: events rf))
       /\ (flow rf = Next tt ->
           flow r = Return OK
           /\ vol (final r) = unmounted v
           /\ exists a lower f post,
                events r =
                  (kill :: events rf ++ (ForceUnmount kAsecPath, RInt a) :: lower)
                  ++ (ForceUnmount (mRawPath v), RInt f) :: post
                /\ (mUseSdcardFs v = true -> map fst lower = sdcardFsTeardown v)
                /\ (mUseSdcardFs v = false -> lower = [])
                /\ only notUnmountUserFuse lower
                /\ only rawTailCalls post
                /\ (f <> 0 ->
                    exists x d rest,
                      post = (umount2 (mRawPath v) MNT_DETACH, RInt x)
                             :: (PLOG INFO "use umount lazy if force unmount fail",
                                 RUnit)
                             :: (rmdir (mRawPath v), RInt d) :: rest)
                /\ (f = 0 ->
                    exists d rest, post = (rmdir (mRawPath v), RInt d) :: rest)).
Proof.
  cbn zeta. destruct (doUnmount_run s) as (k & s1 & Hv & Hret & Hnext).
  exists k, s1. split; [exact Hv|]. split; [exact Hret|].
  intros Hfl. destruct (Hnext Hfl) as (a & s2 & Hv2 & Hr).
  pose proof (unmountFuse_next_vol s1 Hfl) as Hvf.
  rewrite Hvf, Hv in Hv2.
  destruct (unmountSdcardFs_run s2) as (_ & Hon & Hoff).
  destruct (unmountRawPath_run (final (unmountSdcardFs E s2)))
    as (_ & Hvr & f & post & Hev & Hpost & Hfail & Hok).
  cbn zeta in Hr. rewrite Hr. clear Hr Hret Hnext.
  unfold flow, final, events in *. cbn [fst snd].
  assert (Hraw : mRawPath (vol (final (unmountSdcardFs E s2))) = mRawPath (vol s)
                 /\ set_mRawPath EmptyString (vol (final (unmountSdcardFs E s2)))
                    = unmounted (vol s)).
  { unfold unmounted, final. destruct (mUseSdcardFs (vol s)) eqn:Eu.
    - destruct Hon as [_ ->]; [rewrite Hv2; exact Eu|].
      rewrite Hv2. split; reflexivity.
    - rewrite Hoff by (rewrite Hv2; exact Eu).
      cbn [fst snd]. rewrite Hv2. split; reflexivity. }
  unfold final in Hraw. destruct Hraw as [Hraw Hfin].
  split; [reflexivity|]. split; [rewrite <- Hfin; exact Hvr|].
  exists a, (snd (unmountSdcardFs E s2)), f, post.
  rewrite Hraw in *.
  split.
  { rewrite Hev. cbn [app]. rewrite <- app_assoc. reflexivity. }
  split.
  { intros Eu. destruct Hon as [-> _]; [rewrite Hv2; exact Eu|].
    unfold sdcardFsTeardown. rewrite Hv2. reflexivity. }
  split.
  { intros Eu. rewrite Hoff by (rewrite Hv2; exact Eu). reflexivity. }
  split.
  { destruct (mUseSdcardFs (vol s)) eqn:Eu.
    - destruct Hon as [Hm _]; [rewrite Hv2; exact Eu|].
      unfold only. rewrite Forall_forall. intros [c x] Hin.
      apply (in_map fst) in Hin. rewrite Hm in Hin. simpl in Hin |- *.
      repeat (destruct Hin as [<- | Hin]; [reflexivity|]). destruct Hin.
    - rewrite Hoff by (rewrite Hv2; exact Eu). constructor. }
  split; [exact Hpost|]. split; assumption.
Qed.


Lemma bridgeUnmountFailed_app t1 t2 :
  bridgeUnmountFailed (t1 ++ t2) <->
  bridgeUnmountFailed t1 \/ bridgeUnmountFailed t2.
Proof.
  unfold bridgeUnmountFailed. split.
  - intros (u & l & n & res & Hin & Hne). apply in_app_or in Hin.
    destruct Hin; [left | right]; eauto 8.
  - intros [(u & l & n & res & Hin & Hne) | (u & l & n & res & Hin & Hne)];
      exists u, l, n, res; split; auto; apply in_or_app; auto.
Qed.

Lemma only_not_failed t : only notUnmountUserFuse t -> ~ bridgeUnmountFailed t.
Proof.
  intros Ho (u & l & n & res & Hin & _).
  eapply only_not_in in Hin; eauto.
Qed.

Lemma unbindCalls_notUnmountUserFuse c :
  unbindCalls c = true -> notUnmountUserFuse c = true.
Proof. destruct c; simpl; congruence. Qed.

Lemma rawTailCalls_notUnmountUserFuse c :
  rawTailCalls c = true -> notUnmountUserFuse c = true.
Proof. destruct c; simpl; congruence. Qed.

Lemma rawTailCalls_notForceUnmount c :
  rawTailCalls c = true -> notForceUnmount c = true.
Proof. destruct c; simpl; congruence. Qed.

(** The FUSE block falls through without a failed [UnmountUserFuse], or it
    returns after a failed one and leaves the object as it was. *)
Lemma unmountFuse_flow (s : St E) :
  let rf := unmountFuse E s in
  (flow rf = Next tt /\ ~ bridgeUnmountFailed (events rf))
  \/ (exists x, flow rf = Return x /\ bridgeUnmountFailed (events rf)
                /\ vol (final rf) = vol s /\ mFuseMounted (vol s) = true).
Proof.
  cbn zeta. destruct (unmountFuse_run s) as [Hoff Hon].
  destruct (mFuseMounted (vol s)) eqn:Em.
  - destruct (Hon eq_refl) as (started & s1 & res & tail & _ & Hev & H0 & Hn0).
    destruct (Z.eq_dec res 0) as [Hz | Hnz].
    + left. destruct (H0 Hz) as (-> & Hfl & _). split; [exact Hfl|].
      rewrite Hev. change (?x :: ?l ++ ?m) with ((x :: l) ++ m).
      rewrite bridgeUnmountFailed_app. intros [Hb | Hb].
      * revert Hb. apply only_not_failed. apply only_cons; [reflexivity|].
        eapply only_weaken; [apply unbindCalls_notUnmountUserFuse|].
        apply unbindStartedUsers_obeys.
      * destruct Hb as (u & l & n & r & [Hin | []] & Hne). congruence.
    + right. destruct (Hn0 Hnz) as (e & _ & Hfl & Hvol).
      exists (- e). repeat split; auto.
      rewrite Hev. exists (getMountUserId (vol s)), (getInternalPath (vol s)),
        (stableNameOf (vol s)), res.
      split; [|exact Hnz]. right. apply in_or_app. right. left. reflexivity.
  - left. rewrite (Hoff eq_refl). split; [reflexivity|].
    intros (u & l & n & r & [] & _).
Qed.

End Unmount.

Lemma no_failed_UnmountUserFuse t :
  existsb isFailedUnmountUserFuse t = false -> ~ bridgeUnmountFailed t.
Proof.
  intros Hex (u & l & n & res & Hin & Hne).
  assert (Htrue : existsb isFailedUnmountUserFuse t = true).
  { apply existsb_exists. eexists. split; [exact Hin|]. simpl.
    apply negb_true_iff. apply Z.eqb_neq. exact Hne. }
  congruence.
Qed.

Lemma no_failed_check t :
  existsb isFailedCheck t = false ->
  forall p ip, ~ In (onVolumeChecking p ip, RBool false) t.
Proof.
  intros Hex p ip Hin.
  assert (Htrue : existsb isFailedCheck t = true).
  { apply existsb_exists. eexists. split; [exact Hin|]. reflexivity. }
  congruence.
Qed.

(** C3 (amended). [doUnmount] keeps the recorded paths only when it returns
    early because [UnmountUserFuse] failed: then the whole object is as
    before.  In every other run it returns OK with the raw path cleared and,
    when the overlay is in use, the four overlay paths cleared as well,
    whatever the unmount calls of those stages answered. *)
Theorem doUnmount_clears_paths E (s : St E) :
  let r := doUnmount E s in
  let v := vol s in
  (bridgeUnmountFailed (events r) -> vol (final r) = v)
  /\ (~ bridgeUnmountFailed (events r) ->
      flow r = Return OK
      /\ vol (final r) = unmounted v
      /\ mRawPath (vol (final r)) = EmptyString
      /\ mFuseMounted (vol (final r)) = false
      /\ (mUseSdcardFs v = true ->
          mSdcardFsDefault (vol (final r)) = EmptyString
          /\ mSdcardFsRead (vol (final r)) = EmptyString
          /\ mSdcardFsWrite (vol (final r)) = EmptyString
          /\ mSdcardFsFull (vol (final r)) = EmptyString)).
Proof.
  cbn zeta. destruct (doUnmount_cases E s) as (k & s1 & Hv & Hret & Hnext).
  destruct (unmountFuse_flow E s1) as [[Hfl Hnb] | (x & Hfl & Hb & Hvol & _)].
  - destruct (Hnext Hfl)
      as (Hflow & Hfin & a & lower & f & post & Hev & _ & _ & Hlow & Hpost & _).
    split.
    + intros Hb. exfalso. rewrite Hev in Hb.
      rewrite bridgeUnmountFailed_app in Hb.
      change (?x :: ?l ++ ?m) with ((x :: l) ++ m) in Hb.
      rewrite bridgeUnmountFailed_app in Hb.
      change (?x :: ?l) with ([x] ++ l) in Hb.
      rewrite !bridgeUnmountFailed_app in Hb.
      destruct Hb as [[[Hb | Hb] | [Hb | Hb]] | [Hb | Hb]]; try tauto.
      * destruct Hb as (? & ? & ? & ? & [Hin | []] & _). discriminate.
      * destruct Hb as (? & ? & ? & ? & [Hin | []] & _). discriminate.
      * revert Hb. apply only_not_failed. exact Hlow.
      * destruct Hb as (? & ? & ? & ? & [Hin | []] & _). discriminate.
      * revert Hb. apply only_not_failed.
        eapply only_weaken; [apply rawTailCalls_notUnmountUserFuse|exact Hpost].
    + intros _. rewrite Hfin. unfold unmounted.
      split; [exact Hflow|]. split; [reflexivity|].
      destruct (mUseSdcardFs (vol s)); repeat split; discriminate.
  - rewrite (Hret x Hfl). unfold flow, final, events in *. cbn [fst snd].
    split.
    + intros _. congruence.
    + intros Hnb. exfalso. apply Hnb.
      change (?x :: ?l) with ([x] ++ l). rewrite bridgeUnmountFailed_app. tauto.
Qed.

Lemma doUnmount_clears_paths_witness :
  mRawPath (vol (final (doUnmount Inputs.busy Inputs.with_fuse))) = EmptyString.
Proof.
  assert (Hnb : ~ bridgeUnmountFailed
                    (events (doUnmount Inputs.busy Inputs.with_fuse))).
  { apply no_failed_UnmountUserFuse. vm_compute. reflexivity. }
  destruct (doUnmount_clears_paths Inputs.busy Inputs.with_fuse) as [_ H].
  destruct (H Hnb) as (_ & _ & Hraw & _). exact Hraw.
Defined.

(** C3, as stated, fails on a busy volume: the forced unmount of the
    overlay paths, the forced unmount of the raw path and its detached
    unmount all fail, and the fields are cleared all the same. *)
Lemma doUnmount_failed_stage_counterexample :
  let s := Inputs.raw_only in
  let r := doUnmount Inputs.busy s in
  In (ForceUnmount (mRawPath (vol s)), RInt (-1)) (events r)
  /\ In (umount2 (mRawPath (vol s)) MNT_DETACH, RInt (-1)) (events r)
  /\ In (ForceUnmount (mSdcardFsDefault (vol s)), RInt (-1)) (events r)
  /\ mRawPath (vol s) = "/mnt/media_rw/1234-ABCD"
  /\ mRawPath (vol (final r)) = EmptyString
  /\ mSdcardFsDefault (vol s) = "/mnt/runtime/default/1234-ABCD"
  /\ mSdcardFsDefault (vol (final r)) = EmptyString.
Proof. vm_compute. intuition. Qed.

(** C4 (amended). On a volume without a FUSE mount [doUnmount] returns OK
    and runs no bridge teardown: after [KillProcessesUsingPath] the next
    call is the unmount of the secure-app path.  The overlay teardown is
    skipped only if the overlay is not in use; if it is in use the four
    overlay paths are force-unmounted and removed.  Then the raw path is
    force-unmounted and its directory removed. *)
Theorem doUnmount_without_fuse E (s : St E) :
  let r := doUnmount E s in
  let v := vol s in
  mFuseMounted v = false ->
  flow r = Return OK
  /\ exists k a lower f post,
       events r =
         (KillProcessesUsingPath (getPath v), RInt k)
         :: (ForceUnmount kAsecPath, RInt a)
         :: lower ++ (ForceUnmount (mRawPath v), RInt f) :: post
       /\ (mUseSdcardFs v = false -> lower = [])
       /\ (mUseSdcardFs v = true -> map fst lower = sdcardFsTeardown v)
       /\ only rawTailCalls post
       /\ called (rmdir (mRawPath v)) post.
Proof.
  cbn zeta. intros Hoff.
  destruct (doUnmount_cases E s) as (k & s1 & Hv & _ & Hnext).
  destruct (unmountFuse_run E s1) as [Hrf _].
  rewrite Hv in Hrf. specialize (Hrf Hoff). rewrite Hrf in Hnext.
  destruct (Hnext eq_refl)
    as (Hflow & _ & a & lower & f & post & Hev & Hon & Hno & _ & Hpost & Hf & Hz).
  split; [exact Hflow|].
  exists k, a, lower, f, post.
  split; [exact Hev|]. split; [exact Hno|]. split; [exact Hon|].
  split; [exact Hpost|].
  destruct (Z.eq_dec f 0) as [Hf0 | Hf0].
  - destruct (Hz Hf0) as (d & rest & ->). exists (RInt d). left. reflexivity.
  - destruct (Hf Hf0) as (x & d & rest & ->). exists (RInt d).
    right. right. left. reflexivity.
Qed.

Lemma doUnmount_without_fuse_witness :
  flow (doUnmount Inputs.busy Inputs.raw_only) = Return OK.
Proof.
  apply (doUnmount_without_fuse Inputs.busy Inputs.raw_only). reflexivity.
Defined.

(** C4, as stated, fails when the overlay is in use: only the raw mount
    succeeded, no FUSE mount exists, and [doUnmount] still force-unmounts
    and removes the overlay paths. *)
Lemma doUnmount_overlay_not_skipped_counterexample :
  let s := Inputs.raw_only in
  let r := doUnmount Inputs.busy s in
  mFuseMounted (vol s) = false
  /\ mUseSdcardFs (vol s) = true
  /\ called (ForceUnmount "/mnt/runtime/default/1234-ABCD") (events r)
  /\ called (ForceUnmount "/mnt/runtime/full/1234-ABCD") (events r)
  /\ called (rmdir "/mnt/runtime/full/1234-ABCD") (events r).
Proof.
  vm_compute. repeat split; eexists; intuition.
Qed.

(** C9. In a run of [doUnmount] that gets to the raw stage (no
    [UnmountUserFuse] failed) the last [ForceUnmount] is the one of the raw
    path; if it fails, the next call is [umount2] on the raw path with
    [MNT_DETACH], then the directory of the raw path is removed, and
    [doUnmount] returns OK. *)
Theorem doUnmount_lazy_escalation E (s : St E) :
  let r := doUnmount E s in
  let v := vol s in
  ~ bridgeUnmountFailed (events r) ->
  flow r = Return OK
  /\ exists pre f post,
       events r = pre ++ (ForceUnmount (mRawPath v), RInt f) :: post
       /\ only notForceUnmount post
       /\ (f <> 0 ->
           exists x d rest,
             post = (umount2 (mRawPath v) MNT_DETACH, RInt x)
                    :: (PLOG INFO "use umount lazy if force unmount fail", RUnit)
                    :: (rmdir (mRawPath v), RInt d) :: rest).
Proof.
  cbn zeta. intros Hnb.
  destruct (doUnmount_cases E s) as (k & s1 & Hv & Hret & Hnext).
  destruct (unmountFuse_flow E s1) as [[Hfl _] | (x & Hfl & Hb & _)].
  - destruct (Hnext Hfl)
      as (Hflow & _ & a & lower & f & post & Hev & _ & _ & _ & Hpost & Hf & _).
    split; [exact Hflow|].
    eexists _, f, post. split; [exact Hev|].
    split; [|exact Hf].
    eapply only_weaken; [apply rawTailCalls_notForceUnmount|exact Hpost].
  - exfalso. apply Hnb. rewrite (Hret x Hfl). unfold events. cbn [snd].
    change (?x :: ?l) with ([x] ++ l). rewrite bridgeUnmountFailed_app. tauto.
Qed.

Lemma doUnmount_lazy_escalation_witness :
  flow (doUnmount Inputs.busy Inputs.raw_only) = Return OK
  /\ called (umount2 "/mnt/media_rw/1234-ABCD" MNT_DETACH)
            (events (doUnmount Inputs.busy Inputs.raw_only)).
Proof.
  destruct (doUnmount_lazy_escalation Inputs.busy Inputs.raw_only)
    as (Hflow & pre & f & post & Hev & Hpost & Hf).
  - apply no_failed_UnmountUserFuse. vm_compute. reflexivity.
  - split; [exact Hflow|]. exists (RInt (-1)). vm_compute. tauto.
Defined.

(** ** doMount *)

Ltac sets :=
  let c := fresh "c" in
  intros c; destruct c;
  try match goal with sv : Severity |- _ => destruct sv end;
  simpl; congruence.

Section Mount.

Variable E : Env.

Ltac by_lemma L := solve [eapply obeys_weaken; [|apply L]; sets].

Lemma doUnmount_obeys : obeys unmountCalls (doUnmount E).
Proof.
  unfold doUnmount, unmountFuse, unmountSdcardFs, unmountRawPath. obey.
  by_lemma (unbindStartedUsers_obeys E).
Qed.

Lemma mountRaw_obeys : obeys rawCalls (mountRaw E).
Proof. unfold mountRaw, prepareRaw, mountRawFs, readMetadata. obey. Qed.

Lemma stageAsec_obeys : obeys asecCalls (stageAsec E).
Proof. unfold stageAsec, initAsecStage. obey. Qed.

Lemma any_fails_obeys A cs :
  Forall (fun c => A c = true) cs -> obeys A (any_fails E cs).
Proof.
  induction 1; simpl; obey; auto. apply obeys_call. assumption.
Qed.

Lemma waitForSdcardFs_obeys fuel before start path :
  obeys sdcardFsCalls (waitForSdcardFs E fuel before start path).
Proof. induction fuel; simpl; obey; auto. Qed.

Lemma startSdcardFs_obeys fuel name :
  obeys sdcardFsCalls (startSdcardFs E fuel name).
Proof.
  unfold startSdcardFs, prepareSdcardFsDirs, spinUpSdcardFs, sdcardFsChild.
  obey; try apply waitForSdcardFs_obeys.
  all: apply any_fails_obeys; repeat constructor.
Qed.

Lemma mountFuse_obeys name : obeys fuseCalls (mountFuse E name).
Proof.
  unfold mountFuse. obey.
  all: by_lemma doUnmount_obeys.
Qed.

Lemma bindStartedUsers_obeys started name :
  obeys afterFuseCalls (bindStartedUsers E started name).
Proof.
  induction started; simpl; unfold bindMountForUser; obey; auto.
Qed.

Lemma afterFuse_obeys name : obeys afterFuseCalls (afterFuse E name).
Proof.
  unfold afterFuse, configureFuse, bindForStartedUsers. obey.
  apply bindStartedUsers_obeys.
Qed.

Lemma beforeFuse_obeys fuel : obeys beforeFuseCalls (beforeFuse E fuel).
Proof.
  unfold beforeFuse. obey.
  all: first [ by_lemma mountRaw_obeys | by_lemma stageAsec_obeys
             | by_lemma (startSdcardFs_obeys fuel (snd x)) ].
Qed.

Lemma afterAsecCalls_intro c :
  sdcardFsCalls c = true \/ fuseCalls c = true \/ afterFuseCalls c = true ->
  afterAsecCalls c = true.
Proof.
  unfold afterAsecCalls. rewrite !orb_true_iff. tauto.
Qed.

Lemma afterAsec_obeys fuel x : obeys afterAsecCalls (afterAsec E fuel x).
Proof.
  unfold afterAsec, configureFuse, bindForStartedUsers.
  assert (Hs : forall c, sdcardFsCalls c = true -> afterAsecCalls c = true)
    by (intros; apply afterAsecCalls_intro; tauto).
  assert (Hf : forall c, fuseCalls c = true -> afterAsecCalls c = true)
    by (intros; apply afterAsecCalls_intro; tauto).
  assert (Ha : forall c, afterFuseCalls c = true -> afterAsecCalls c = true)
    by (intros; apply afterAsecCalls_intro; tauto).
  obey.
  all: first
    [ eapply obeys_weaken; [exact Hs|]; apply startSdcardFs_obeys
    | eapply obeys_weaken; [exact Hf|]; apply mountFuse_obeys
    | eapply obeys_weaken; [exact Ha|]; apply bindStartedUsers_obeys ].
Qed.

Lemma doUnmount_returns (s : St E) : exists z, flow (doUnmount E s) = Return z.
Proof.
  destruct (doUnmount_cases E s) as (k & s1 & _ & Hret & Hnext).
  destruct (unmountFuse_flow E s1) as [[Hfl _] | (x & Hfl & _)].
  - exists OK. apply Hnext. exact Hfl.
  - exists x. rewrite (Hret x Hfl). reflexivity.
Qed.

(** Lines 542-563, by the answers of [MountUserFuse] and of the readiness
    check. *)
Lemma mountFuse_run name (s : St E) :
  let r := mountFuse E name s in
  let v := vol s in
  exists res s1,
    vol s1 = v
    /\ let info := (LOG INFO "Mounting public fuse volume", RUnit) in
       let muf := (MountUserFuse (getMountUserId v) (getInternalPath v) name,
                   RInt res) in
       (res <> 0 ->
        r = (Return (- res), final (doUnmount E s1),
             info :: muf
             :: (LOG ERROR "Failed to mount public fuse volume", RUnit)
             :: events (doUnmount E s1)))
       /\ (res = 0 ->
           (mMountCallback (base v) = false ->
            r = (Next tt, (set_mFuseMounted true v, world s1), [info; muf]))
           /\ (mMountCallback (base v) = true ->
               exists ready s2,
                 vol s2 = set_mFuseMounted true v
                 /\ let chk := (onVolumeChecking (getPath v) (getInternalPath v),
                                RBool ready) in
                    (ready = true -> r = (Next tt, s2, [info; muf; chk]))
                    /\ (ready = false ->
                        r = (Return (- EIO), final (doUnmount E s2),
                             info :: muf :: chk
                             :: (LOG ERROR "Failed to complete public volume mount",
                                 RUnit)
                             :: events (doUnmount E s2))))).
Proof.
  destruct s as [v w]. unfold mountFuse. unfold_m. simpl.
  oracle. simpl. exists r, (v, w0). split; [reflexivity|].
  destruct (r =? 0) eqn:Er; simpl;
    [apply Z.eqb_eq in Er | apply Z.eqb_neq in Er].
  - split; [intros Hne; contradiction|]. intros _.
    destruct (mMountCallback (base v)); simpl.
    + split; [discriminate|]. intros _. oracle. simpl.
      exists b, (set_mFuseMounted true v, w1). split; [reflexivity|].
      destruct b; simpl.
      * split; [reflexivity | discriminate].
      * split; [discriminate|]. intros _.
        destruct (doUnmount_returns (set_mFuseMounted true v, w1)) as [z Hz].
        destruct (doUnmount E (set_mFuseMounted true v, w1)) as [[fl s2] t2].
        unfold flow in Hz. simpl in Hz. subst fl. simpl.
        rewrite app_nil_r. reflexivity.
    + split; [reflexivity | discriminate].
  - split; [|intros Hz; contradiction]. intros _.
    destruct (doUnmount_returns (v, w0)) as [z Hz].
    destruct (doUnmount E (v, w0)) as [[fl s2] t2].
    unfold flow in Hz. simpl in Hz. subst fl. simpl.
    rewrite app_nil_r. reflexivity.
Qed.


(** The bind fan-out falls through and leaves the object alone; it makes as
    many [BindMount] calls as [getSharedStorageUser] answered with the
    owner, whatever [PrepareMountDirForUser], [PrepareDir] and [BindMount]
    answer; every user for whom the owner was answered gets its directory
    prepared and its bind mount attempted; and every bind mount is for a
    started user other than the owner. *)
Lemma bindStartedUsers_run started name (s : St E) :
  let r := bindStartedUsers E started name s in
  let owner := getMountUserId (vol s) in
  let nm := stableNameOf (vol s) in
  flow r = Next tt
  /\ vol (final r) = vol s
  /\ bindCount (events r) = sharingCount owner (events r)
  /\ (forall u,
        In (getSharedStorageUser u, RInt owner) (events r) ->
        called (PrepareMountDirForUser u) (events r)
        /\ called (BindMount (GetFuseMountPathForUser E owner nm)
                             (GetFuseMountPathForUser E u nm)) (events r))
  /\ (forall src dst a,
        In (BindMount src dst, a) (events r) ->
        exists u, In u started /\ u <> owner
                  /\ src = GetFuseMountPathForUser E owner nm
                  /\ dst = GetFuseMountPathForUser E u nm).
Proof.
  revert s. induction started as [|u0 rest IH]; intros [v w]; cbn zeta.
  - simpl. repeat split; try (intros; contradiction).
  - cbn [bindStartedUsers]. unfold bindMountForUser. unfold_m. simpl.
    destruct (u0 =? getMountUserId v) eqn:Eu; simpl.
    { specialize (IH (v, w)). cbn zeta in IH.
      destruct (bindStartedUsers E rest name (v, w)) as [[fl s1] t1].
      unfold_m. simpl in *.
      destruct IH as (-> & Hv & Hc & Hs & Hb).
      split; [reflexivity|]. split; [exact Hv|]. split; [exact Hc|].
      split; [exact Hs|].
      intros src dst a Hin. destruct (Hb src dst a Hin) as (u & ? & ?).
      exists u. tauto. }
    apply Z.eqb_neq in Eu.
    oracle. simpl.
    destruct (getMountUserId v =? r) eqn:Es; simpl.
    2:{ specialize (IH (v, w0)). cbn zeta in IH.
        destruct (bindStartedUsers E rest name (v, w0)) as [[fl s1] t1].
        unfold_m. simpl in *.
        destruct IH as (-> & Hv & Hc & Hs & Hb).
        split; [reflexivity|]. split; [exact Hv|].
        split.
        { unfold bindCount, sharingCount in *. simpl. rewrite Es. exact Hc. }
        apply Z.eqb_neq in Es.
        split.
        - intros u [H | H]; [inversion H; subst; congruence|].
          destruct (Hs u H) as [[a Ha] [a' Ha']].
          split; [exists a | exists a']; right; assumption.
        - intros src dst a [Hin | Hin]; [discriminate|].
          destruct (Hb src dst a Hin) as (u & ? & ?). exists u. tauto. }
    apply Z.eqb_eq in Es. subst r.
    oracle; simpl. destruct (r =? OK); simpl;
      do 2 (oracle; simpl); destruct (r1 =? OK); simpl;
      (specialize (IH (v, w3)); cbn zeta in IH;
       destruct (bindStartedUsers E rest name (v, w3)) as [[fl s1] t1];
       unfold_m; simpl in *;
       destruct IH as (-> & Hv & Hc & Hs & Hb);
       split; [reflexivity|]; split; [exact Hv|];
       split;
       [ unfold bindCount, sharingCount in *; simpl; rewrite Z.eqb_refl; simpl;
         f_equal; exact Hc |];
       split;
       [ intros u Hin; in_cases Hin;
         [ inversion Hin; subst; split; eexists; simpl; eauto 12
         | destruct (Hs u Hin) as [[a Ha] [a' Ha']];
           split; [exists a | exists a']; simpl; tauto ]
       | intros src dst a Hin; in_cases Hin;
         [ inversion Hin; subst; exists u0; tauto
         | destruct (Hb src dst a Hin) as (u & ? & ?); exists u; tauto ] ]).
Qed.

(** *** The time-out message *)

Lemma ends_quiet {X} A mk z (m : M E X) :
  obeys A m -> A (fst mk) = false -> ends_with mk z m.
Proof.
  intros Hm HA s Hin. destruct (Hm s) as (Ho & _).
  destruct mk as [c a]. eapply only_not_in in Hin; eauto. contradiction.
Qed.

Lemma ends_bind {X Y} mk z (m : M E X) (f : X -> M E Y) :
  ends_with mk z m -> (forall x, ends_with mk z (f x)) ->
  ends_with mk z (bind m f).
Proof.
  intros Hm Hf s. specialize (Hm s). unfold bind.
  destruct (m s) as [[fl s1] t1]. unfold flow, events in *. simpl in *.
  destruct fl; simpl;
    [| intros Hin; destruct (Hm Hin) as [Hr Ht];
       first [discriminate Hr | inversion Hr; split; [reflexivity | exact Ht]] ..].
  specialize (Hf a s1). destruct (f a s1) as [[fl2 s2] t2].
  unfold flow, events in *. simpl in *.
  intros Hin. apply in_app_or in Hin. destruct Hin as [Hin | Hin].
  - destruct (Hm Hin) as [Hfl _]. discriminate.
  - destruct (Hf Hin) as [Hfl [t Ht]]. split; [exact Hfl|].
    exists (t1 ++ t). rewrite Ht, app_assoc. reflexivity.
Qed.

Lemma ends_marker {X} c z :
  ends_with (c, RUnit) z (bind (log (E:=E) c) (fun _ => return_ (A:=X) z)).
Proof.
  intros s _. split; [reflexivity|]. exists []. reflexivity.
Qed.

Ltac silent :=
  solve [ eapply (ends_quiet notTimeoutLog); [|reflexivity]; obey ].

Ltac ends :=
  repeat first
    [ progress intros
    | apply ends_marker
    | silent
    | match goal with
      | |- ends_with _ _ (bind _ _) => apply ends_bind
      | |- ends_with _ _ (if ?b then _ else _) => destruct b
      end ].

Lemma waitForSdcardFs_ends fuel before start path :
  ends_with timedOut (- ETIMEDOUT) (waitForSdcardFs E fuel before start path).
Proof. induction fuel; simpl; ends; auto. Qed.

Lemma beforeFuse_ends fuel :
  ends_with timedOut (- ETIMEDOUT) (beforeFuse E fuel).
Proof.
  unfold beforeFuse, startSdcardFs, spinUpSdcardFs. ends.
  all: first
    [ apply waitForSdcardFs_ends
    | eapply (ends_quiet rawCalls); [apply mountRaw_obeys | reflexivity]
    | eapply (ends_quiet asecCalls); [apply stageAsec_obeys | reflexivity]
    | eapply (ends_quiet notTimeoutLog); [|reflexivity];
      unfold prepareSdcardFsDirs, sdcardFsChild; obey;
      apply any_fails_obeys; repeat constructor ].
Qed.

(** *** The pipeline in three parts *)

Lemma doMount_split fuel (s : St E) :
  doMount E fuel s =
  bind (beforeFuse E fuel)
       (fun name => bind (mountFuse E name) (fun _ => afterFuse E name)) s.
Proof.
  unfold doMount, beforeFuse, afterFuse, bind.
  destruct (mountRaw E s) as [[[x | | |] s1] t1]; try reflexivity.
  destruct (stageAsec E s1) as [[[[] | | |] s2] t2]; try reflexivity.
  destruct (negb (fst x)); unfold return_, ret; try reflexivity.
  destruct (startSdcardFs E fuel (snd x) s2) as [[[[] | | |] s3] t3];
    try reflexivity.
  destruct (mountFuse E (snd x) s3) as [[[[] | | |] s4] t4];
    [| simpl; repeat (rewrite app_nil_r || rewrite app_assoc); reflexivity ..].
  destruct (configureFuse E (snd x) s4) as [[[[] | | |] s5] t5];
    [| simpl; repeat (rewrite app_nil_r || rewrite app_assoc); reflexivity ..].
  destruct (bindForStartedUsers E (snd x) s5) as [[[[] | | |] s6] t6];
    simpl; repeat (rewrite app_nil_r || rewrite app_assoc); reflexivity.
Qed.

Lemma doMount_after_asec fuel (s : St E) :
  doMount E fuel s =
  bind (mountRaw E) (fun x => bind (stageAsec E) (fun _ => afterAsec E fuel x)) s.
Proof. reflexivity. Qed.

(** Lines 565-594: tuning and bind fan-out always end with [return OK]. *)
Lemma afterFuse_run name (s : St E) :
  let r := afterFuse E name s in
  let owner := getMountUserId (vol s) in
  let nm := stableNameOf (vol s) in
  flow r = Return OK
  /\ vol (final r) = vol s
  /\ only afterFuseCalls (events r)
  /\ bindCount (events r) = sharingCount owner (events r)
  /\ (forall u,
        In (getSharedStorageUser u, RInt owner) (events r) ->
        called (PrepareMountDirForUser u) (events r)
        /\ called (BindMount (GetFuseMountPathForUser E owner nm)
                             (GetFuseMountPathForUser E u nm)) (events r)).
Proof.
  cbn zeta. destruct (afterFuse_obeys name s) as (Ho & _). 
  split; [|split; [|split; [exact Ho|]]].
  all: clear Ho; destruct s as [v w];
    unfold afterFuse, configureFuse, bindForStartedUsers; unfold_m; simpl;
    do 3 (oracle; simpl);
    pose proof (bindStartedUsers_run us name (v, w2)) as Hl; cbn zeta in Hl;
    destruct (bindStartedUsers E us name (v, w2)) as [[fl s1] t1];
    unfold_m; simpl in *; destruct Hl as (-> & Hv & Hc & Hs & _); simpl.
  - reflexivity.
  - exact Hv.
  - rewrite app_nil_r. split.
    + unfold bindCount, sharingCount in *. simpl. exact Hc.
    + intros u Hin. in_cases Hin.
      destruct (Hs u Hin) as [[a Ha] [a' Ha']].
      split; [exists a | exists a']; simpl; tauto.
Qed.

(** From the FUSE mount on there are three kinds of runs: the mount fails,
    the readiness check fails, or the volume gets mounted and the tuning and
    the bind fan-out follow. *)
Lemma fuseOnward_cases name (s : St E) :
  let r := fuseOnward E name s in
  let v := vol s in
  let info := (LOG INFO "Mounting public fuse volume", RUnit) in
  exists res,
    let muf := (MountUserFuse (getMountUserId v) (getInternalPath v) name,
                RInt res) in
    (res <> 0
     /\ exists s1,
          vol s1 = v
          /\ r = (Return (- res), final (doUnmount E s1),
                  info :: muf
                  :: (LOG ERROR "Failed to mount public fuse volume", RUnit)
                  :: events (doUnmount E s1)))
    \/ (res = 0
        /\ exists s2,
             vol s2 = set_mFuseMounted true v
             /\ r = (Return (- EIO), final (doUnmount E s2),
                     info :: muf
                     :: (onVolumeChecking (getPath v) (getInternalPath v),
                         RBool false)
                     :: (LOG ERROR "Failed to complete public volume mount", RUnit)
                     :: events (doUnmount E s2)))
    \/ (res = 0
        /\ exists ready tail,
             (ready = []
              \/ ready = [(onVolumeChecking (getPath v) (getInternalPath v),
                           RBool true)])
             /\ events r = info :: muf :: ready ++ tail
             /\ flow r = Return OK
             /\ vol (final r) = set_mFuseMounted true v
             /\ only afterFuseCalls tail
             /\ bindCount tail = sharingCount (getMountUserId v) tail
             /\ (forall u,
                   In (getSharedStorageUser u, RInt (getMountUserId v)) tail ->
                   called (PrepareMountDirForUser u) tail
                   /\ called (BindMount
                                (GetFuseMountPathForUser E (getMountUserId v)
                                   (stableNameOf v))
                                (GetFuseMountPathForUser E u (stableNameOf v)))
                             tail)).
Proof.
  cbn zeta. unfold fuseOnward.
  destruct (mountFuse_run name s) as (res & s1 & Hv1 & Hfail & Hok).
  exists res. destruct (Z.eq_dec res 0) as [Hz | Hnz].
  - right. destruct (Hok Hz) as [Hnocb Hcb].
    destruct (mMountCallback (base (vol s))) eqn:Ecb.
    + destruct (Hcb eq_refl) as (ready & s2 & Hv2 & Hready & Hnot).
      destruct ready.
      * right. split; [exact Hz|].
        pose proof (afterFuse_run name s2) as Ha. cbn zeta in Ha.
        rewrite Hv2 in Ha. destruct Ha as (Hfl & Hvf & Ho & Hc & Hs).
        eexists [_], (events (afterFuse E name s2)).
        split; [right; reflexivity|].
        unfold bind. rewrite (Hready eq_refl).
        destruct (afterFuse E name s2) as [[fl s3] t3].
        unfold flow, final, events in *. simpl in *.
        repeat split; auto; apply Hs; assumption.
      * left. split; [exact Hz|]. exists s2. split; [exact Hv2|].
        unfold bind. rewrite (Hnot eq_refl). reflexivity.
    + right. split; [exact Hz|].
      pose proof (afterFuse_run name (set_mFuseMounted true (vol s), world s1))
        as Ha. cbn zeta in Ha.
      destruct Ha as (Hfl & Hvf & Ho & Hc & Hs).
      exists [], (events (afterFuse E name (set_mFuseMounted true (vol s), world s1))).
      split; [left; reflexivity|].
      unfold bind. rewrite (Hnocb eq_refl).
      destruct (afterFuse E name (set_mFuseMounted true (vol s), world s1))
        as [[fl s3] t3].
      unfold flow, final, events in *. simpl in *.
      repeat split; auto; apply Hs; assumption.
  - left. split; [exact Hnz|]. exists s1. split; [exact Hv1|].
    unfold bind. rewrite (Hfail Hnz). reflexivity.
Qed.

(** [doMount] stops before the FUSE mount, or goes on from it; the time-out
    message, if any, is the last entry of a run that stopped. *)
Lemma doMount_cases fuel (s : St E) :
  let r := doMount E fuel s in
  exists pre s0,
    only beforeFuseCalls pre
    /\ getMountUserId (vol s0) = getMountUserId (vol s)
    /\ ((events r = pre /\ final r = s0
         /\ (forall z, flow r = Return z ->
                flow (beforeFuse E fuel s) = Return z)
         /\ (In timedOut pre ->
             flow r = Return (- ETIMEDOUT) /\ exists t, pre = t ++ [timedOut]))
        \/ (~ In timedOut pre
            /\ exists name,
                 let r' := fuseOnward E name s0 in
                 flow r = flow r' /\ final r = final r'
                 /\ events r = pre ++ events r')).
Proof.
  cbn zeta. rewrite doMount_split.
  destruct (beforeFuse_obeys fuel s) as (Ho & _ & Hu).
  pose proof (beforeFuse_ends fuel s) as He.
  exists (events (beforeFuse E fuel s)), (final (beforeFuse E fuel s)).
  split; [exact Ho|]. split; [exact Hu|].
  rewrite bind_run. fold (fuseOnward E).
  destruct (flow (beforeFuse E fuel s)) as [name | z | |] eqn:Efl.
  - right. split.
    + intros Hin. destruct (He Hin) as [Hfl _]. discriminate.
    + exists name. cbn zeta. repeat split.
  - left. split; [reflexivity|]. split; [reflexivity|]. split.
    + intros z0 Hz. inversion Hz. reflexivity.
    + intros Hin. destruct (He Hin) as [Hfl Ht]. inversion Hfl.
      split; [reflexivity | exact Ht].
  - left. split; [reflexivity|]. split; [reflexivity|]. split.
    + intros z0 Hz. discriminate.
    + intros Hin. destruct (He Hin) as [Hfl _]. discriminate.
  - left. split; [reflexivity|]. split; [reflexivity|]. split.
    + intros z0 Hz. discriminate.
    + intros Hin. destruct (He Hin) as [Hfl _]. discriminate.
Qed.

Lemma flow_triple {X} (fl : Flow X) (s : St E) t : flow (fl, s, t) = fl.
Proof. reflexivity. Qed.

Lemma final_triple {X} (fl : Flow X) (s : St E) t : final (fl, s, t) = s.
Proof. reflexivity. Qed.

Lemma events_triple {X} (fl : Flow X) (s : St E) t : events (fl, s, t) = t.
Proof. reflexivity. Qed.

Lemma not_in_doUnmount c a (s : St E) :
  unmountCalls c = false -> ~ In (c, a) (events (doUnmount E s)).
Proof.
  intros Hc. destruct (doUnmount_obeys s) as (Ho & _).
  eapply only_not_in; eauto.
Qed.

Lemma beforeFuseCalls_notUnmount c :
  beforeFuseCalls c = true -> notUnmount c = true.
Proof. revert c. sets. Qed.

End Mount.

Ltac absurd_in H :=
  exfalso;
  first
    [ match goal with
      | Ho : only ?A ?t |- _ =>
          solve [eapply (only_not_in A t) in H; [exact H | exact Ho | reflexivity]]
      end
    | solve [eapply not_in_doUnmount in H; [exact H | reflexivity]]
    | tauto ].




(** An entry outside [A] between two traces inside [A] is found at one place
    only. *)
Lemma split_unique (A : Call -> bool) a x b pre y post :
  only A a -> only A b -> A (fst y) = false ->
  a ++ x :: b = pre ++ y :: post ->
  pre = a /\ y = x /\ post = b.
Proof.
  intros Ha Hb Hy. revert pre. induction a as [|a0 a IH]; intros pre Heq.
  - destruct pre as [|p pre]; simpl in Heq.
    + inversion Heq. auto.
    + inversion Heq; subst. exfalso.
      destruct y as [c r]. eapply only_not_in; [exact Hb | exact Hy |].
      apply in_or_app. right. left. reflexivity.
  - inversion Ha as [|? ? Ha0 Ha']; subst.
    destruct pre as [|p pre]; simpl in Heq.
    + inversion Heq; subst. congruence.
    + inversion Heq as [[Hp Hrest]]; subst.
      destruct (IH Ha' pre Hrest) as (-> & -> & ->). auto.
Qed.

Lemma unmountCalls_notMountUserFuse c :
  unmountCalls c = true -> notMountUserFuse c = true.
Proof. revert c. sets. Qed.

Lemma afterFuseCalls_notMountUserFuse c :
  afterFuseCalls c = true -> notMountUserFuse c = true.
Proof. revert c. sets. Qed.

Lemma beforeFuseCalls_notMountUserFuse c :
  beforeFuseCalls c = true -> notMountUserFuse c = true.
Proof. revert c. sets. Qed.


(** ** The secure-app staging *)

Ltac in_inv :=
  repeat match goal with
         | H : _ \/ _ |- _ => destruct H
         | H : In _ (_ :: _) |- _ => simpl in H
         | H : In _ [] |- _ => destruct H
         | H : False |- _ => destruct H
         | H : (_, _) = (_, _) |- _ =>
             inversion H; clear H; subst; simpl in *; try discriminate
         end.

Section Asec.

Variable E : Env.

Lemma prepareRaw_obeys : obeys prepareRawCalls (prepareRaw E).
Proof. unfold prepareRaw, readMetadata. obey. Qed.

Lemma prepareRawCalls_rawCalls c :
  prepareRawCalls c = true -> rawCalls c = true.
Proof. revert c. sets. Qed.

(** A raw mount that answered OK is the last entry of the raw stages, which
    then fall through; the mount was made on the recorded raw path. *)
Lemma mountRaw_mounted (s : St E) c :
  isRawMount c = true ->
  In (c, RInt 0) (events (mountRaw E s)) ->
  exists x pre,
    flow (mountRaw E s) = Next x
    /\ events (mountRaw E s) = pre ++ [(c, RInt 0)]
    /\ only rawCalls pre
    /\ rawMountTarget c = mRawPath (vol (final (mountRaw E s))).
Proof.
  intros Hc. unfold mountRaw. rewrite bind_run.
  destruct (prepareRaw_obeys s) as (Ho & _).
  assert (Ho' : only rawCalls (events (prepareRaw E s)))
    by (eapply only_weaken; [apply prepareRawCalls_rawCalls | exact Ho]).
  destruct (flow (prepareRaw E s)) as [x | z | |];
    try (rewrite events_triple; intros Hin; exfalso;
         destruct c; try discriminate Hc;
         (eapply (only_not_in prepareRawCalls) in Hin;
          [exact Hin | exact Ho | reflexivity])).
  cbn zeta. rewrite flow_triple, final_triple, events_triple.
  destruct (final (prepareRaw E s)) as [v1 w1].
  intros Hin. apply in_app_or in Hin. destruct Hin as [Hin | Hin].
  { exfalso. destruct c; try discriminate Hc;
      (eapply (only_not_in prepareRawCalls) in Hin;
       [exact Hin | exact Ho | reflexivity]). }
  revert Hin. unfold mountRawFs. unfold_m. simpl.
  exec; intros Hin; in_inv.
  all: exists x, (snd (prepareRaw E s)); repeat split; assumption.
Qed.

Lemma nonzero_true z : nonzero z = true -> z <> 0.
Proof. unfold nonzero. destruct (Z.eqb_spec z 0); simpl; congruence. Qed.

Lemma nonzero_false z : nonzero z = false -> z = 0.
Proof. unfold nonzero. destruct (Z.eqb_spec z 0); simpl; congruence. Qed.

Ltac to_props :=
  repeat match goal with
         | H : nonzero _ = true |- _ => apply nonzero_true in H
         | H : nonzero _ = false |- _ => apply nonzero_false in H
         | H : negb _ = true |- _ => apply negb_true_iff in H
         | H : negb _ = false |- _ => apply negb_false_iff in H
         | H : (_ =? _) = true |- _ => apply Z.eqb_eq in H
         | H : (_ =? _) = false |- _ => apply Z.eqb_neq in H
         end.

Ltac chain :=
  repeat first
    [ progress intros
    | contradiction
    | congruence
    | reflexivity
    | match goal with
      | |- _ /\ _ => split
      | |- exists _, _ => eexists
      end ].

(** The staging of the secure-app directory, call by call. *)
Lemma initAsecStage_run (s : St E) :
  let v := vol s in
  recoversLegacy (getId v)
    (mRawPath v +++ "/android_secure") (mRawPath v +++ "/.android_secure")
    (flow (initAsecStage E s)) (events (initAsecStage E s)).
Proof.
  destruct s as [v w]. unfold initAsecStage, andalso, recoversLegacy, stagesAsec.
  unfold_m. simpl. exec; to_props; subst; chain.
Qed.

Lemma initAsecStage_returns (s : St E) :
  exists z, flow (initAsecStage E s) = Return z.
Proof.
  destruct s as [v w]. unfold initAsecStage, andalso.
  unfold_m. simpl. exec; eexists; reflexivity.
Qed.

(** Lines 467-469: nothing on a volume that is not primary,
    [initAsecStage] on a primary one; its result is ignored. *)
Lemma stageAsec_run (s : St E) :
  let r := stageAsec E s in
  flow r = Next tt
  /\ (isPrimary E (vol s) = false -> r = (Next tt, s, []))
  /\ (isPrimary E (vol s) = true -> events r = events (initAsecStage E s)).
Proof.
  cbn zeta. unfold stageAsec. unfold_m. simpl.
  destruct (isPrimary E (fst s)); simpl.
  - destruct (initAsecStage_returns s) as [z Hz].
    destruct (initAsecStage E s) as [[fl s1] t1]. unfold flow in Hz.
    simpl in *. subst fl. simpl. rewrite app_nil_r.
    repeat split; try discriminate.
  - destruct s. repeat split; try discriminate.
Qed.

End Asec.

Lemma rawCalls_notAsecStaging c : rawCalls c = true -> notAsecStaging c = true.
Proof. revert c. sets. Qed.

Lemma afterAsecCalls_notAsecStaging c :
  afterAsecCalls c = true -> notAsecStaging c = true.
Proof. revert c. unfold afterAsecCalls. sets. Qed.

Lemma isPrimary_flags E v v' :
  getMountFlags v' = getMountFlags v -> isPrimary E v' = isPrimary E v.
Proof. unfold isPrimary. intros ->. reflexivity. Qed.


(** ** The wait for sdcardfs *)

#[local] Arguments Z.mul : simpl never.
#[local] Arguments Z.add : simpl never.
#[local] Arguments Z.sub : simpl never.
#[local] Arguments Z.quot : simpl never.
#[local] Arguments Z.of_nat : simpl never.
#[local] Arguments Z.gtb : simpl never.

Section SpinUp.

Variable E : Env.
Variable clock : World E -> Z.
Hypothesis Hclock : keepsTime E clock.

Lemma ms_of_polls k : nanoseconds_to_milliseconds (50000000 * k) = 50 * k.
Proof.
  unfold nanoseconds_to_milliseconds.
  replace (50000000 * k) with (50 * k * 1000000) by lia.
  apply Z.quot_mul. discriminate.
Qed.

(** With [n] polls still below the budget, the loop sleeps [n + 1] times
    and returns the time-out. *)
Lemma waitForSdcardFs_frozen path d start :
  deviceFrozen E path d ->
  forall n fuel v w,
    (n < fuel)%nat -> (n <= 100)%nat ->
    clock w = start + 50000000 * (100 - Z.of_nat n) ->
    let r := waitForSdcardFs E fuel d start path (v, w) in
    flow r = Return (- ETIMEDOUT)
    /\ clock (world (final r)) = start + 50000000 * 101
    /\ vol (final r) = v.
Proof.
  intros Hdev. destruct Hclock as [Hread Hstep].
  induction n as [|n IH]; intros fuel v w Hfuel Hn Hw;
    (destruct fuel as [|fuel]; [lia|]);
    cbn [waitForSdcardFs]; unfold_m; simpl.
  - pose proof (Hdev w) as Hd. pose proof (Hstep (GetDevice path) w) as H1.
    destruct (sys_int E (GetDevice path) w) as [cur w1]. simpl in *. subst cur.
    rewrite Z.eqb_refl. simpl.
    pose proof (Hstep (usleep 50000) w1) as H2.
    destruct (sys_int E (usleep 50000) w1) as [x w2]. simpl in *.
    pose proof (Hread w2) as H3. pose proof (Hstep systemTime w2) as H4.
    destruct (sys_int E systemTime w2) as [now w3]. simpl in *. subst now.
    replace (clock w2 - start) with (50000000 * 101) by lia.
    rewrite ms_of_polls. simpl. repeat split. lia.
  - pose proof (Hdev w) as Hd. pose proof (Hstep (GetDevice path) w) as H1.
    destruct (sys_int E (GetDevice path) w) as [cur w1]. simpl in *. subst cur.
    rewrite Z.eqb_refl. simpl.
    pose proof (Hstep (usleep 50000) w1) as H2.
    destruct (sys_int E (usleep 50000) w1) as [x w2]. simpl in *.
    pose proof (Hread w2) as H3. pose proof (Hstep systemTime w2) as H4.
    destruct (sys_int E systemTime w2) as [now w3]. simpl in *. subst now.
    replace (clock w2 - start) with (50000000 * (100 - Z.of_nat n)) by lia.
    rewrite ms_of_polls.
    destruct (50 * (100 - Z.of_nat n) >? 5000) eqn:Egt; [lia|].
    simpl.
    assert (Hfuel' : (n < fuel)%nat) by lia.
    assert (Hn' : (n <= 100)%nat) by lia.
    assert (Hw' : clock w3 = start + 50000000 * (100 - Z.of_nat n)) by lia.
    specialize (IH fuel v w3 Hfuel' Hn' Hw'). cbn zeta in IH.
    destruct (waitForSdcardFs E fuel d start path (v, w3)) as [[fl s1] t1].
    unfold_m. simpl in *. exact IH.
Qed.

End SpinUp.



(** ** The bind mounts of the other users and the owner's FUSE mount *)



(** ** Examples of the mount pipeline *)



(** * Further properties *)

#[local] Arguments String.append : simpl never.
#[local] Arguments to_string : simpl never.

(** Symbolic execution of the run [m] in one place: the goal is restated
    for any run [r] equal to [m], and the equation is executed. *)
Ltac run_as m :=
  let r := fresh "r" in
  let H := fresh "Hr" in
  remember m as r eqn:H; revert r H.

(** Case analysis on one membership hypothesis. *)
Ltac pick H :=
  repeat match type of H with
         | In _ (_ :: _) => destruct H as [H | H]; [try discriminate H | ]
         | _ \/ _ => destruct H as [H | H]; [try discriminate H | ]
         | In _ [] => destruct H
         | False => destruct H
         end.

Ltac props :=
  repeat match goal with
         | H : nonzero _ = true |- _ => apply nonzero_true in H
         | H : nonzero _ = false |- _ => apply nonzero_false in H
         | H : negb _ = true |- _ => apply negb_true_iff in H
         | H : negb _ = false |- _ => apply negb_false_iff in H
         | H : (_ =? _) = true |- _ => apply Z.eqb_eq in H
         | H : (_ =? _) = false |- _ => apply Z.eqb_neq in H
         | H : (_ =? _)%string = true |- _ => apply String.eqb_eq in H
         | H : (_ =? _)%string = false |- _ => apply String.eqb_neq in H
         | H : _ && _ = true |- _ => apply andb_true_iff in H; destruct H
         end.

(** ** What a computation leaves alone *)

Section Frame.

Variable E : Env.
Context {Y : Type} (f : PublicVolume -> Y).

Lemma preserves_ret {X} (x : X) : preserves f (ret (E:=E) x).
Proof. intros s. reflexivity. Qed.

Lemma preserves_return {X} r : preserves f (return_ (E:=E) (A:=X) r).
Proof. intros s. reflexivity. Qed.

Lemma preserves_child_exit {X} : preserves f (child_exit (E:=E) (A:=X)).
Proof. intros s. reflexivity. Qed.

Lemma preserves_out_of_fuel {X} : preserves f (out_of_fuel (E:=E) (A:=X)).
Proof. intros s. reflexivity. Qed.

Lemma preserves_this : preserves f (this (E:=E)).
Proof. intros s. reflexivity. Qed.

Lemma preserves_update g :
  (forall v, f (g v) = f v) -> preserves f (update (E:=E) g).
Proof. intros H s. apply H. Qed.

Lemma preserves_call c : preserves f (call (E:=E) c).
Proof. intros s. unfold call. destruct (sys_int E c (world s)). reflexivity. Qed.

Lemma preserves_ask c : preserves f (ask (E:=E) c).
Proof. intros s. unfold ask. destruct (sys_bool E c (world s)). reflexivity. Qed.

Lemma preserves_users c : preserves f (users (E:=E) c).
Proof. intros s. unfold users. destruct (sys_users E c (world s)). reflexivity. Qed.

Lemma preserves_metadata c : preserves f (metadata (E:=E) c).
Proof.
  intros s. unfold metadata. destruct (sys_meta E c (world s)). reflexivity.
Qed.

Lemma preserves_blockdev_size c : preserves f (blockdev_size (E:=E) c).
Proof.
  intros s. unfold blockdev_size. destruct (sys_size E c (world s)).
  reflexivity.
Qed.

Lemma preserves_log c : preserves f (log (E:=E) c).
Proof. intros s. reflexivity. Qed.

Lemma preserves_bind {X Z'} (m : M E X) (k : X -> M E Z') :
  preserves f m -> (forall x, preserves f (k x)) -> preserves f (bind m k).
Proof.
  intros Hm Hk s. rewrite bind_run. specialize (Hm s).
  destruct (flow (m s)); try exact Hm.
  cbn zeta. rewrite final_triple. rewrite Hk. exact Hm.
Qed.

Lemma preserves_invoke (m : M E Z) : preserves f m -> preserves f (invoke m).
Proof.
  intros Hm s. unfold invoke. specialize (Hm s).
  destruct (m s) as [[fl s1] t1]. destruct fl; exact Hm.
Qed.

End Frame.

Ltac keep :=
  repeat first
    [ progress intros
    | match goal with
      | |- preserves _ (ret _) => apply preserves_ret
      | |- preserves _ (return_ _) => apply preserves_return
      | |- preserves _ child_exit => apply preserves_child_exit
      | |- preserves _ out_of_fuel => apply preserves_out_of_fuel
      | |- preserves _ this => apply preserves_this
      | |- preserves _ (bind _ _) => apply preserves_bind
      | |- preserves _ (invoke _) => apply preserves_invoke
      | |- preserves _ (update _) => apply preserves_update; reflexivity
      | |- preserves _ errno => apply preserves_call
      | |- preserves _ (call _) => apply preserves_call
      | |- preserves _ (ask _) => apply preserves_ask
      | |- preserves _ (users _) => apply preserves_users
      | |- preserves _ (metadata _) => apply preserves_metadata
      | |- preserves _ (blockdev_size _) => apply preserves_blockdev_size
      | |- preserves _ (log _) => apply preserves_log
      | |- preserves _ (when _ _) => unfold when
      | |- preserves _ (andalso _ _ _) => unfold andalso
      | |- preserves _ (if ?b then _ else _) => destruct b
      | |- preserves _ (match ?x with _ => _ end) => destruct x
      end ].

Section Frames.

Variable E : Env.

Lemma unbindStartedUsers_preserves {Y} (f : PublicVolume -> Y) started u name :
  preserves f (unbindStartedUsers E started u name).
Proof. induction started; simpl; keep; auto. Qed.

Lemma doUnmount_frame : preserves unmountFrame (doUnmount E).
Proof.
  unfold doUnmount, unmountFuse, unmountSdcardFs, unmountRawPath. keep.
  apply unbindStartedUsers_preserves.
Qed.

Lemma doUnmount_identity : preserves identity (doUnmount E).
Proof.
  unfold doUnmount, unmountFuse, unmountSdcardFs, unmountRawPath. keep.
  apply unbindStartedUsers_preserves.
Qed.

Lemma any_fails_preserves {Y} (f : PublicVolume -> Y) cs :
  preserves f (any_fails E cs).
Proof. induction cs; simpl; keep; auto. Qed.

Lemma waitForSdcardFs_preserves {Y} (f : PublicVolume -> Y) fuel b st p :
  preserves f (waitForSdcardFs E fuel b st p).
Proof. induction fuel; simpl; keep; auto. Qed.

Lemma bindStartedUsers_preserves {Y} (f : PublicVolume -> Y) started name :
  preserves f (bindStartedUsers E started name).
Proof. induction started; simpl; unfold bindMountForUser; keep; auto. Qed.

Lemma mountRawFs_preserves {Y} (f : PublicVolume -> Y) vis :
  preserves f (mountRawFs E vis).
Proof. unfold mountRawFs. keep. Qed.

Lemma stageAsec_preserves {Y} (f : PublicVolume -> Y) :
  preserves f (stageAsec E).
Proof. unfold stageAsec, initAsecStage. keep. Qed.

Lemma startSdcardFs_preserves {Y} (f : PublicVolume -> Y) fuel name :
  preserves f (startSdcardFs E fuel name).
Proof.
  unfold startSdcardFs, prepareSdcardFsDirs, spinUpSdcardFs, sdcardFsChild.
  keep; first [apply any_fails_preserves | apply waitForSdcardFs_preserves].
Qed.

Lemma afterFuse_preserves {Y} (f : PublicVolume -> Y) name :
  preserves f (afterFuse E name).
Proof.
  unfold afterFuse, configureFuse, bindForStartedUsers. keep.
  apply bindStartedUsers_preserves.
Qed.

Lemma doMount_identity fuel : preserves identity (doMount E fuel).
Proof.
  unfold doMount, mountRaw, prepareRaw, readMetadata, mountRawFs, mountFuse,
    configureFuse, bindForStartedUsers.
  keep;
    first [ apply stageAsec_preserves | apply startSdcardFs_preserves
          | apply doUnmount_identity | apply bindStartedUsers_preserves ].
Qed.

End Frames.

(** ** doFormat *)

Lemma explicitRequest_vfat fsType v e :
  explicitRequest fsType v e = VFAT -> fsType = "vfat" /\ v = true.
Proof.
  unfold explicitRequest.
  destruct (String.eqb_spec fsType "vfat"), v; simpl; try (intros; tauto).
  all: destruct (fsType =? "exfat")%string, e; simpl; discriminate.
Qed.

Lemma explicitRequest_exfat fsType v e :
  explicitRequest fsType v e = EXFAT ->
  fsType = "exfat" /\ e = true /\ (fsType =? "vfat")%string && v = false.
Proof.
  unfold explicitRequest.
  destruct ((fsType =? "vfat")%string && v); [discriminate|].
  destruct (String.eqb_spec fsType "exfat"), e; simpl; try discriminate.
  tauto.
Qed.


(** X2. The result of [doFormat] is the result of the one [Format] call it
    makes: OK if the call answered 0; otherwise the failure is logged and
    the negated [errno] is returned.  The [Format] call comes after the
    wipe, nothing but the failure message and the reading of [errno] come
    after it, and the object is left as it was. *)
Theorem doFormat_result E (s : St E) fsType c f :
  let r := doFormat E fsType s in
  isFormat c = true ->
  In (c, RInt f) (events r) ->
  vol (final r) = vol s
  /\ exists pre,
       only notFormat pre
       /\ called (WipeBlockDevice (mDevPath (vol s))) pre
       /\ ((f = 0 /\ events r = pre ++ [(c, RInt f)] /\ flow r = Return OK)
           \/ (f <> 0
               /\ exists x,
                    events r =
                      pre ++ [(c, RInt f);
                              (LOG ERROR (getId (vol s) +++ " failed to format"),
                               RUnit);
                              (read_errno, RInt x)]
                    /\ flow r = Return (- x))).
Proof.
  cbn zeta. intros Hc. destruct s as [v0 w].
  run_as (doFormat E fsType (v0, w)).
  unfold doFormat, called. unfold_m. simpl.
  exec; intros ? -> Hin; simpl in *; in_inv; props; subst.
  all: split; [reflexivity|].
  all: match goal with
       | |- exists pre, _ /\ _ /\ (_ \/ (_ /\ exists x, ?t = _ /\ _)) =>
           match t with
           | context [(read_errno, _)] =>
               exists (removelast (removelast (removelast t)))
           | _ => exists (removelast t)
           end
       end; simpl.
  all: split; [repeat constructor|]; split; [eexists; simpl; eauto|].
  all: first [ left; repeat split; reflexivity
             | right; split; [assumption|]; eexists; split; reflexivity ].
Qed.

(** X3. If the size of the device cannot be read, [doFormat] gives up with the
    result of the query before it has touched the device: the query is
    followed by the error message, and by no wipe and no format. *)
Theorem doFormat_size_query_failure E (s : St E) fsType d res size :
  let r := doFormat E fsType s in
  In (GetBlockDevSize d, RSize res size) (events r) ->
  res <> 0 ->
  flow r = Return res
  /\ events r =
       [(vfat_IsSupported, RBool true); (exfat_IsSupported, RBool true);
        (GetBlockDevSize (mDevPath (vol s)), RSize res size);
        (LOG ERROR ("Couldn't get device size " +++ mDevPath (vol s)), RUnit)]
  /\ vol (final r) = vol s.
Proof.
  cbn zeta. destruct s as [v0 w].
  run_as (doFormat E fsType (v0, w)).
  unfold doFormat. unfold_m. simpl.
  exec; intros ? -> Hin Hres; simpl in *; in_inv; props; subst;
    try contradiction; try discriminate.
  all: repeat split; reflexivity.
Qed.

(** ** Runs that stop at a failure *)

Lemma terminal_failsWithErrno E : terminal (failsWithErrno (E:=E)).
Proof.
  split.
  - intros e sf t (pre & msg & x & _ & H). discriminate.
  - intros e fl sf t t0 (pre & msg & x & -> & H).
    exists (t0 ++ pre), msg, x. rewrite app_assoc. auto.
Qed.

Lemma terminal_failsWithEIO E : terminal (failsWithEIO (E:=E)).
Proof.
  split.
  - intros e sf t (pre & c & _ & _ & H). discriminate.
  - intros e fl sf t t0 (pre & c & -> & Hc & H).
    exists (t0 ++ pre), c. rewrite app_assoc. auto.
Qed.

Lemma terminal_becomesSdcard E : terminal (becomesSdcard (E:=E)).
Proof.
  split.
  - intros e sf t (H & _). discriminate.
  - intros e fl sf t t0 (H & pre & name & x & tail & -> & Ht).
    split; [exact H|]. exists (t0 ++ pre), name, x, tail.
    rewrite app_assoc. auto.
Qed.

Section Stops.

Variable E : Env.
Variable p : Entry -> bool.
Variable Q : Verdict E.
Hypothesis HQ : terminal Q.

Lemma halts_quiet {X} A (m : M E X) :
  obeys A m -> (forall c a, p (c, a) = true -> A c = false) -> halts p Q m.
Proof.
  intros Hm HA s [c a] Hin Hp. destruct (Hm s) as (Ho & _).
  eapply only_not_in in Hin; eauto. contradiction.
Qed.

Lemma halts_bind {X Y} (m : M E X) (k : X -> M E Y) :
  halts p Q m -> (forall x, halts p Q (k x)) -> halts p Q (bind m k).
Proof.
  intros Hm Hk s e. rewrite bind_run. specialize (Hm s e).
  destruct HQ as [Hnext Hpre].
  destruct (flow (m s)) as [x | z | |] eqn:Efl;
    try (rewrite flow_triple, final_triple, events_triple; exact Hm).
  cbn zeta. rewrite flow_triple, final_triple, events_triple.
  intros Hin Hp. apply in_app_or in Hin. destruct Hin as [Hin | Hin].
  - exfalso. eapply Hnext. apply Hm; eassumption.
  - apply Hpre. apply Hk; assumption.
Qed.

(** A call that can fail, followed by the code that handles its answer. *)
Lemma halts_call {Y} c (k : Z -> M E Y) :
  (forall x s,
     p (c, RInt x) = true ->
     let r := k x s in
     Q (c, RInt x) (ending (flow r)) (final r) ((c, RInt x) :: events r)) ->
  (forall x, halts p Q (k x)) ->
  halts p Q (bind (call c) k).
Proof.
  intros Hfail Hk [v w] e. unfold bind, call. simpl.
  destruct (sys_int E c w) as [x w1] eqn:Ec. simpl.
  specialize (Hfail x (v, w1)). specialize (Hk x (v, w1) e).
  destruct (k x (v, w1)) as [[fl s2] t2]. cbn zeta in Hfail.
  unfold flow, final, events in *. simpl in *.
  intros [<- | Hin] Hp.
  - apply Hfail. exact Hp.
  - destruct HQ as [_ Hpre]. apply (Hpre _ _ _ _ [(c, RInt x)]).
    apply Hk; assumption.
Qed.

End Stops.

(** No entry picked by [p] is a call of the set [A]. *)
Ltac misses :=
  let c := fresh "c" in
  let a := fresh "a" in
  let H := fresh "H" in
  intros c a H; destruct c; try reflexivity;
  try match goal with sv : Severity |- _ => destruct sv; try reflexivity end;
  destruct a; simpl in H; discriminate.

(** [halt A HQ fin]: the program is taken apart bind by bind; a part that
    stays inside [A] has no entry of the kind looked for, and the handling
    of a call that can fail is run by [fin]. *)
Ltac halt A HQ fin :=
  repeat first
    [ progress intros
    | solve [eapply (halts_quiet _ _ _ A); [obey | misses]]
    | match goal with
      | |- halts _ _ (bind (call _) _) =>
          apply (halts_call _ _ _ HQ); [solve [fin] | ]
      | |- halts _ _ (bind _ _) => apply (halts_bind _ _ _ HQ)
      | |- halts _ _ (andalso _ _ _) => unfold andalso
      | |- halts _ _ (when _ _) => unfold when
      | |- halts _ _ (if ?b then _ else _) => destruct b
      end ].

(** The handling of a failed call, run to its end. *)
Ltac handle :=
  let x := fresh "x" in
  let s := fresh "s" in
  let H := fresh "H" in
  intros x s H; simpl in H; try discriminate H;
  try (apply Z.eqb_eq in H; subst x);
  destruct s; unfold_m; simpl; try rewrite H; simpl;
  repeat (first [oracle | branch]; simpl).

Section Failures.

Variable E : Env.

Ltac errno_found :=
  handle; eexists [], _, _; split; reflexivity.

Ltac eio_found :=
  handle; eexists [], _; repeat split; reflexivity.

Lemma prepareRaw_setup : halts isFailedSetup failsWithErrno (prepareRaw E).
Proof.
  unfold prepareRaw, readMetadata.
  halt notSetupCalls (terminal_failsWithErrno E) errno_found.
Qed.

Ltac found_at_end :=
  match goal with
  | |- exists pre msg x, ?t = _ /\ _ =>
      exists (removelast (removelast (removelast t)))
  end; simpl; eexists _, _; split; reflexivity.

Lemma prepareSdcardFsDirs_setup :
  halts isFailedSetup failsWithErrno (prepareSdcardFsDirs E).
Proof.
  intros [v w] [c a]. run_as (prepareSdcardFsDirs E (v, w)).
  unfold prepareSdcardFsDirs, failsWithErrno. cbn [any_fails]. unfold_m. simpl.
  exec; intros ? -> Hin Hp; simpl in *; in_inv; simpl in Hp;
    try congruence; found_at_end.
Qed.

Lemma waitForSdcardFs_polls fuel before start path :
  obeys pollCalls (waitForSdcardFs E fuel before start path).
Proof. induction fuel; simpl; obey; auto. Qed.

Lemma spinUpSdcardFs_setup fuel name :
  halts isFailedSetup failsWithErrno (spinUpSdcardFs E fuel name).
Proof.
  unfold spinUpSdcardFs, sdcardFsChild.
  halt notSetupCalls (terminal_failsWithErrno E) errno_found.
  eapply (halts_quiet _ _ _ pollCalls); [apply waitForSdcardFs_polls | misses].
Qed.

Ltac child_found :=
  handle; unfold becomesSdcard; simpl;
  match goal with H : isPrimary _ _ = _ |- _ => rewrite H end;
  (split; [reflexivity|]); eexists [], _, _, _;
  (split; [reflexivity | repeat constructor]).

Lemma spinUpSdcardFs_child fuel name :
  halts isForkedChild becomesSdcard (spinUpSdcardFs E fuel name).
Proof.
  unfold spinUpSdcardFs, sdcardFsChild.
  halt notFork (terminal_becomesSdcard E) child_found.
  eapply (halts_quiet _ _ _ pollCalls); [apply waitForSdcardFs_polls | misses].
Qed.

Lemma mountRaw_fsop : halts isFailedFsOp failsWithEIO (mountRaw E).
Proof.
  unfold mountRaw, prepareRaw, readMetadata, mountRawFs.
  halt notFsOpCalls (terminal_failsWithEIO E) eio_found.
Qed.

Lemma beforeFuse_setup fuel :
  halts isFailedSetup failsWithErrno (beforeFuse E fuel).
Proof.
  unfold beforeFuse, mountRaw, startSdcardFs.
  halt notSetupCalls (terminal_failsWithErrno E) errno_found.
  all: first
    [ apply prepareRaw_setup
    | apply prepareSdcardFsDirs_setup
    | apply spinUpSdcardFs_setup
    | eapply (halts_quiet _ _ _ asecCalls); [apply stageAsec_obeys | misses]
    | unfold mountRawFs;
      halt notSetupCalls (terminal_failsWithErrno E) errno_found ].
Qed.

Lemma beforeFuse_child fuel :
  halts isForkedChild becomesSdcard (beforeFuse E fuel).
Proof.
  unfold beforeFuse, startSdcardFs.
  halt notFork (terminal_becomesSdcard E) child_found.
  all: first
    [ apply spinUpSdcardFs_child
    | eapply (halts_quiet _ _ _ rawCalls); [apply mountRaw_obeys | misses]
    | eapply (halts_quiet _ _ _ asecCalls); [apply stageAsec_obeys | misses]
    | eapply (halts_quiet _ _ _ notFork);
      [unfold prepareSdcardFsDirs; obey; apply any_fails_obeys;
       repeat constructor | misses] ].
Qed.

(** An entry of a kind that only the stages before the FUSE mount can
    produce, and that stops them: [doMount] ends as these stages do, and
    nothing of the FUSE stage or of the unmount is run. *)
Lemma doMount_before_fuse p (Q : Verdict E) fuel (s : St E) e :
  terminal Q ->
  halts p Q (beforeFuse E fuel) ->
  (forall c a, p (c, a) = true -> fuseCalls c = false /\ afterFuseCalls c = false) ->
  let r := doMount E fuel s in
  In e (events r) -> p e = true ->
  Q e (ending (flow r)) (final r) (events r)
  /\ only beforeFuseCalls (events r).
Proof.
  intros [Hnext _] Hh Hp. cbn zeta. rewrite doMount_split, bind_run.
  specialize (Hh s e). destruct (beforeFuse_obeys E fuel s) as (Ho & _).
  destruct (flow (beforeFuse E fuel s)) as [name | z | |] eqn:Efl;
    try (rewrite flow_triple, final_triple, events_triple; intros Hin He;
         split; [apply Hh; assumption | exact Ho]).
  cbn zeta. rewrite events_triple. intros Hin He. exfalso.
  apply in_app_or in Hin. destruct Hin as [Hin | Hin].
  - eapply Hnext. apply Hh; eassumption.
  - destruct e as [c a]. destruct (Hp c a He) as [Hf Ha].
    rewrite bind_run in Hin.
    destruct (mountFuse_obeys E name (final (beforeFuse E fuel s))) as (Hm & _).
    destruct (flow (mountFuse E name (final (beforeFuse E fuel s))));
      try (rewrite events_triple in Hin;
           solve [exact (only_not_in _ _ _ _ Hm Hf Hin)]).
    cbn zeta in Hin. rewrite events_triple in Hin.
    apply in_app_or in Hin. destruct Hin as [Hin | Hin].
    + exact (only_not_in _ _ _ _ Hm Hf Hin).
    + destruct (afterFuse_obeys E name
                  (final (mountFuse E name (final (beforeFuse E fuel s)))))
        as (Hm' & _).
      exact (only_not_in _ _ _ _ Hm' Ha Hin).
Qed.

(** The same for the raw stages. *)
Lemma doMount_raw_stage p (Q : Verdict E) fuel (s : St E) e :
  terminal Q ->
  halts p Q (mountRaw E) ->
  (forall c a, p (c, a) = true -> asecCalls c = false /\ afterAsecCalls c = false) ->
  let r := doMount E fuel s in
  In e (events r) -> p e = true ->
  Q e (ending (flow r)) (final r) (events r)
  /\ only rawCalls (events r).
Proof.
  intros [Hnext _] Hh Hp. cbn zeta. rewrite doMount_after_asec, bind_run.
  specialize (Hh s e). destruct (mountRaw_obeys E s) as (Ho & _).
  destruct (flow (mountRaw E s)) as [x | z | |] eqn:Efl;
    try (rewrite flow_triple, final_triple, events_triple; intros Hin He;
         split; [apply Hh; assumption | exact Ho]).
  cbn zeta. rewrite events_triple. intros Hin He. exfalso.
  apply in_app_or in Hin. destruct Hin as [Hin | Hin].
  - eapply Hnext. apply Hh; eassumption.
  - destruct e as [c a]. destruct (Hp c a He) as [Hf Ha].
    rewrite bind_run in Hin.
    destruct (stageAsec_obeys E (final (mountRaw E s))) as (Hm & _).
    destruct (flow (stageAsec E (final (mountRaw E s))));
      try (rewrite events_triple in Hin;
           solve [exact (only_not_in _ _ _ _ Hm Hf Hin)]).
    cbn zeta in Hin. rewrite events_triple in Hin.
    apply in_app_or in Hin. destruct Hin as [Hin | Hin].
    + exact (only_not_in _ _ _ _ Hm Hf Hin).
    + destruct (afterAsec_obeys E fuel x
                  (final (stageAsec E (final (mountRaw E s)))))
        as (Hm' & _).
      exact (only_not_in _ _ _ _ Hm' Ha Hin).
Qed.

End Failures.

Ltac outside :=
  let c := fresh "c" in
  let a := fresh "a" in
  let H := fresh "H" in
  intros c a H; destruct c; try (split; reflexivity);
  try match goal with sv : Severity |- _ => destruct sv; try (split; reflexivity) end;
  destruct a; simpl in H; discriminate.

Lemma ending_return {X} (fl : Flow X) z : ending fl = Return z -> fl = Return z.
Proof. destruct fl; simpl; congruence. Qed.

Lemma ending_child {X} (fl : Flow X) : ending fl = ChildExit -> fl = ChildExit.
Proof. destruct fl; simpl; congruence. Qed.

(** ** doMount: failures before the FUSE mount *)

(** X4. When a mount point cannot be created ([fs_prepare_dir] fails on the raw
    mount point or on one of the four overlay directories) or the sdcard
    process cannot be forked, [doMount] logs the failure, reads [errno] and
    returns its negation; the failed call is followed by nothing else, and
    the run has no FUSE mount and no unmount of what was mounted before. *)
Theorem doMount_setup_failure E fuel (s : St E) e :
  let r := doMount E fuel s in
  In e (events r) ->
  isFailedSetup e = true ->
  (exists pre msg x,
     events r = pre ++ [e; (PLOG ERROR msg, RUnit); (read_errno, RInt x)]
     /\ flow r = Return (- x))
  /\ only beforeFuseCalls (events r).
Proof.
  cbn zeta. intros Hin He.
  destruct (doMount_before_fuse E isFailedSetup failsWithErrno fuel s e
              (terminal_failsWithErrno E) (beforeFuse_setup E fuel))
    as [(pre & msg & x & Hev & Hfl) Ho]; [outside | exact Hin | exact He |].
  split; [|exact Ho]. exists pre, msg, x. split; [exact Hev|].
  apply ending_return. exact Hfl.
Qed.

(** X5. When the filesystem check or the raw mount fails, [doMount] logs an
    error and returns -EIO; the failed call is followed by nothing else: no
    secure-app staging, no overlay, no FUSE mount, and no removal of the
    mount point. *)
Theorem doMount_check_or_mount_failure E fuel (s : St E) e :
  let r := doMount E fuel s in
  In e (events r) ->
  isFailedFsOp e = true ->
  (exists pre c,
     events r = pre ++ [e; (c, RUnit)] /\ isErrorLog c = true
     /\ flow r = Return (- EIO))
  /\ only rawCalls (events r).
Proof.
  cbn zeta. intros Hin He.
  destruct (doMount_raw_stage E isFailedFsOp failsWithEIO fuel s e
              (terminal_failsWithEIO E) (mountRaw_fsop E))
    as [(pre & c & Hev & Hc & Hfl) Ho]; [outside | exact Hin | exact He |].
  split; [|exact Ho]. exists pre, c. repeat split; try assumption.
  apply ending_return. exact Hfl.
Qed.


(** ** doMount: the raw stages *)

Section Raw.

Variable E : Env.

Lemma bind_events_incl {X Y} (m : M E X) (k : X -> M E Y) s e :
  In e (events (m s)) -> In e (events (bind m k s)).
Proof.
  intros Hin. rewrite bind_run. destruct (flow (m s)); try exact Hin.
  cbn zeta. rewrite events_triple. apply in_or_app. left. exact Hin.
Qed.

Lemma doMount_events_raw fuel (s : St E) c a :
  In (c, a) (events (doMount E fuel s)) ->
  asecCalls c = false -> afterAsecCalls c = false ->
  In (c, a) (events (mountRaw E s)).
Proof.
  rewrite doMount_after_asec, bind_run. intros Hin Hc Hc'.
  destruct (flow (mountRaw E s)) as [x | z | |]; try exact Hin.
  cbn zeta in Hin. rewrite events_triple in Hin.
  apply in_app_or in Hin. destruct Hin as [Hin | Hin]; [exact Hin|].
  exfalso. rewrite bind_run in Hin.
  destruct (stageAsec_obeys E (final (mountRaw E s))) as (Hm & _).
  destruct (flow (stageAsec E (final (mountRaw E s))));
    try (rewrite events_triple in Hin;
         solve [exact (only_not_in _ _ _ _ Hm Hc Hin)]).
  cbn zeta in Hin. rewrite events_triple in Hin.
  apply in_app_or in Hin. destruct Hin as [Hin | Hin].
  - exact (only_not_in _ _ _ _ Hm Hc Hin).
  - destruct (afterAsec_obeys E fuel x
                (final (stageAsec E (final (mountRaw E s))))) as (Hm' & _).
    exact (only_not_in _ _ _ _ Hm' Hc' Hin).
Qed.

Lemma mountRawFs_obeys vis : obeys rawFsCalls (mountRawFs E vis).
Proof. unfold mountRawFs. obey. Qed.

Lemma mountRaw_run (s : St E) :
  mountRaw E s =
  match flow (prepareRaw E s) with
  | Next x =>
      let r' := mountRawFs E (fst x) (final (prepareRaw E s)) in
      (match flow r' with
       | Next _ => Next x
       | Return z => Return z
       | ChildExit => ChildExit
       | OutOfFuel => OutOfFuel
       end, final r', events (prepareRaw E s) ++ events r')
  | Return z => (Return z, final (prepareRaw E s), events (prepareRaw E s))
  | ChildExit => (ChildExit, final (prepareRaw E s), events (prepareRaw E s))
  | OutOfFuel => (OutOfFuel, final (prepareRaw E s), events (prepareRaw E s))
  end.
Proof.
  unfold mountRaw. rewrite bind_run.
  destruct (flow (prepareRaw E s)); try reflexivity.
  cbn zeta. rewrite bind_run.
  destruct (flow (mountRawFs E (fst a) (final (prepareRaw E s))));
    try reflexivity.
  cbn zeta. unfold ret. rewrite flow_triple, final_triple, events_triple.
  rewrite app_nil_r. reflexivity.
Qed.

Lemma mountRaw_events_prepare (s : St E) c a :
  In (c, a) (events (mountRaw E s)) ->
  rawFsCalls c = false ->
  In (c, a) (events (prepareRaw E s)).
Proof.
  rewrite mountRaw_run. intros Hin Hc.
  destruct (flow (prepareRaw E s)) as [x | z | |]; try exact Hin.
  cbn zeta in Hin. rewrite events_triple in Hin.
  apply in_app_or in Hin. destruct Hin as [Hin | Hin]; [exact Hin|].
  exfalso.
  destruct (mountRawFs_obeys (fst x) (final (prepareRaw E s))) as (Hm & _).
  exact (only_not_in _ _ _ _ Hm Hc Hin).
Qed.

(** Lines 453-465 on a vfat or exfat volume: one mount call; its failure is
    logged and ends the function with -EIO. *)
Lemma mountRawFs_run vis (s : St E) :
  let v := vol s in
  let r := mountRawFs E vis s in
  mFsType v = "vfat" \/ mFsType v = "exfat" ->
  exists m,
    vol (final r) = v
    /\ (m = 0 ->
        flow r = Next tt
        /\ events r = [(rawMount (mFsType v) (mDevPath v) (mRawPath v) vis, RInt m)])
    /\ (m <> 0 ->
        flow r = Return (- EIO)
        /\ events r =
             [(rawMount (mFsType v) (mDevPath v) (mRawPath v) vis, RInt m);
              (PLOG ERROR (getId v +++ " failed to mount " +++ mDevPath v),
               RUnit)]).
Proof.
  destruct s as [v w]. cbn zeta. unfold mountRawFs, rawMount. unfold_m. simpl.
  intros [Ht | Ht]; rewrite Ht; simpl; oracle; simpl; exists r;
    destruct (nonzero r) eqn:En; props; simpl;
    (split; [reflexivity|]); split; intros; try contradiction;
    subst; split; reflexivity.
Qed.

(** Lines 410-451 fall through only for a vfat or exfat volume, with the
    visibility of the mount flags and the stable name, and with the paths
    of the object derived from the stable name. *)
Lemma prepareRaw_next (s : St E) x :
  flow (prepareRaw E s) = Next x ->
  exists res t u l,
    In (ReadMetadataUntrusted (mDevPath (vol s)), RMeta res t u l)
       (events (prepareRaw E s))
    /\ (t = "vfat" \/ t = "exfat")
    /\ x = (isVisibleForWrite E (vol s),
            if String.eqb u EmptyString then getId (vol s) else u)
    /\ vol (final (prepareRaw E s))
       = withPaths (isVisibleForWrite E (vol s)) t u l (vol s).
Proof.
  destruct s as [v w]. run_as (prepareRaw E (v, w)).
  unfold prepareRaw, readMetadata, andalso, withPaths.
  unfold_m. simpl.
  exec; intros ? -> Hx; try discriminate Hx; inversion Hx; subst; clear Hx;
    eexists _, _, _, _; (split; [left; reflexivity|]);
    props; (split; [tauto|]); split; reflexivity.
Qed.

(** The raw stages fall through only after a raw mount that answered OK,
    made with the arguments of lines 453-465 on the path derived from the
    stable name. *)
Lemma mountRaw_next (s : St E) x :
  flow (mountRaw E s) = Next x ->
  exists res t u l,
    let vis := isVisibleForWrite E (vol s) in
    let name := if String.eqb u EmptyString then getId (vol s) else u in
    In (ReadMetadataUntrusted (mDevPath (vol s)), RMeta res t u l)
       (events (prepareRaw E s))
    /\ (t = "vfat" \/ t = "exfat")
    /\ x = (vis, name)
    /\ vol (final (mountRaw E s)) = withPaths vis t u l (vol s)
    /\ events (mountRaw E s) =
         events (prepareRaw E s)
         ++ [(rawMount t (mDevPath (vol s)) ("/mnt/media_rw/" +++ name) vis,
              RInt 0)].
Proof.
  rewrite mountRaw_run.
  destruct (flow (prepareRaw E s)) as [x' | z | |] eqn:Efl;
    try (rewrite flow_triple; discriminate).
  destruct (prepareRaw_next s x' Efl) as (res & t & u & l & Hin & Ht & Hx & Hv).
  cbn zeta. rewrite flow_triple, final_triple, events_triple.
  destruct (mountRawFs_run (fst x') (final (prepareRaw E s)))
    as (m & Hv' & Hok & Hfail); [rewrite Hv; exact Ht|].
  intros Hfl. exists res, t, u, l. cbn zeta.
  destruct (Z.eq_dec m 0) as [Hm | Hm].
  - destruct (Hok Hm) as [Hfl' Hev]. rewrite Hfl' in Hfl.
    injection Hfl as <-. rewrite Hv', Hev, Hv. subst x' m.
    repeat split; assumption.
  - destruct (Hfail Hm) as [Hfl' _]. rewrite Hfl' in Hfl. discriminate.
Qed.

End Raw.



Section RawStage.

Variable E : Env.

Lemma rawOrAsecCalls_raw c : rawCalls c = true -> rawOrAsecCalls c = true.
Proof. unfold rawOrAsecCalls. intros ->. reflexivity. Qed.

Lemma rawOrAsecCalls_asec c : asecCalls c = true -> rawOrAsecCalls c = true.
Proof. unfold rawOrAsecCalls. intros ->. apply orb_true_r. Qed.

(** Lines 410-426 when the volume carries no supported filesystem. *)
Lemma prepareRaw_unsupported (s : St E) d res t u l :
  let r := prepareRaw E s in
  In (ReadMetadataUntrusted d, RMeta res t u l) (events r) ->
  t <> "vfat" \/ In (vfat_IsSupported, RBool false) (events r) ->
  t <> "exfat" \/ In (exfat_IsSupported, RBool false) (events r) ->
  flow r = Return (- EIO)
  /\ vol (final r) = set_metadata t u l (vol s)
  /\ only unsupportedCalls (events r)
  /\ exists pre,
       events r =
         pre ++ [(LOG ERROR (getId (vol s) +++ " unsupported filesystem " +++ t),
                  RUnit)].
Proof.
  cbn zeta. destruct s as [v w]. run_as (prepareRaw E (v, w)).
  unfold prepareRaw, readMetadata, andalso. unfold_m. simpl.
  exec; intros ? -> Hm Hv He; simpl in Hm, Hv, He |- *;
    pick Hm; injection Hm as <- <- <- <- <-; pick Hv; pick He;
    props; subst; try congruence.
  all: split; [reflexivity|]; split; [reflexivity|];
    split; [repeat constructor|].
  all: match goal with
       | |- exists pre, ?t = _ => exists (removelast t)
       end; reflexivity.
Qed.

Lemma doMount_events_prepare fuel (s : St E) c a :
  In (c, a) (events (doMount E fuel s)) ->
  checkStageCalls c = true ->
  In (c, a) (events (prepareRaw E s)).
Proof.
  intros Hin Hc. apply mountRaw_events_prepare.
  - apply (doMount_events_raw E fuel); [exact Hin | |];
      destruct c; try discriminate Hc; reflexivity.
  - destruct c; try discriminate Hc; reflexivity.
Qed.

Lemma doMount_stops_in_prepareRaw fuel (s : St E) z :
  flow (prepareRaw E s) = Return z ->
  doMount E fuel s = (Return z, final (prepareRaw E s), events (prepareRaw E s)).
Proof.
  intros Hfl. rewrite doMount_after_asec, bind_run, mountRaw_run, Hfl.
  rewrite flow_triple, final_triple, events_triple. reflexivity.
Qed.

Lemma doMount_events_incl fuel (s : St E) e :
  In e (events (prepareRaw E s)) -> In e (events (doMount E fuel s)).
Proof.
  intros Hin. rewrite doMount_after_asec. apply bind_events_incl.
  unfold mountRaw. apply bind_events_incl. exact Hin.
Qed.

End RawStage.

(** X7. A volume whose filesystem is not one of the supported ones (neither
    vfat nor exfat, or the one it is is not supported on this device) is
    not mounted: [doMount] logs the type and returns -EIO.  It has then only
    read the metadata, told the listener and asked for the support; nothing
    was checked, created or mounted, and of the object only the metadata
    changed. *)
Theorem doMount_unsupported_filesystem E fuel (s : St E) d res t u l :
  let r := doMount E fuel s in
  In (ReadMetadataUntrusted d, RMeta res t u l) (events r) ->
  t <> "vfat" \/ In (vfat_IsSupported, RBool false) (events r) ->
  t <> "exfat" \/ In (exfat_IsSupported, RBool false) (events r) ->
  flow r = Return (- EIO)
  /\ vol (final r) = set_metadata t u l (vol s)
  /\ only unsupportedCalls (events r)
  /\ exists pre,
       events r =
         pre ++ [(LOG ERROR (getId (vol s) +++ " unsupported filesystem " +++ t),
                  RUnit)].
Proof.
  cbn zeta. intros Hm Hv He.
  apply doMount_events_prepare in Hm; [|reflexivity].
  assert (Hv' : t <> "vfat"
                \/ In (vfat_IsSupported, RBool false) (events (prepareRaw E s))).
  { destruct Hv as [Hv | Hv]; [left; exact Hv | right].
    apply doMount_events_prepare in Hv; [exact Hv | reflexivity]. }
  assert (He' : t <> "exfat"
                \/ In (exfat_IsSupported, RBool false) (events (prepareRaw E s))).
  { destruct He as [He | He]; [left; exact He | right].
    apply doMount_events_prepare in He; [exact He | reflexivity]. }
  destruct (prepareRaw_unsupported E s d res t u l Hm Hv' He')
    as (Hfl & Hvol & Ho & Hev).
  rewrite (doMount_stops_in_prepareRaw E fuel s _ Hfl).
  rewrite flow_triple, final_triple, events_triple.
  repeat split; assumption.
Qed.

(** X8. The raw mount is made from the device node on /mnt/media_rw/<stable
    name>, the stable name being the UUID just read or, if there is none,
    the id of the volume; the files belong to root, the group is
    AID_MEDIA_RW on a volume that is visible to apps and
    AID_EXTERNAL_STORAGE on one that is not, and the permission mask is
    0007.  The filesystem mounted is the one that was detected. *)
Theorem doMount_raw_mount_arguments E fuel (s : St E) c a :
  let r := doMount E fuel s in
  isRawMount c = true ->
  In (c, a) (events r) ->
  exists res t u l,
    In (ReadMetadataUntrusted (mDevPath (vol s)), RMeta res t u l) (events r)
    /\ (t = "vfat" \/ t = "exfat")
    /\ c = rawMount t (mDevPath (vol s))
             ("/mnt/media_rw/"
              +++ (if String.eqb u EmptyString then getId (vol s) else u))
             (isVisibleForWrite E (vol s)).
Proof.
  cbn zeta. intros Hc Hin.
  apply doMount_events_raw in Hin;
    [| destruct c; try discriminate Hc; reflexivity ..].
  rewrite mountRaw_run in Hin.
  destruct (prepareRaw_obeys E s) as (Ho & _).
  assert (Hno : ~ In (c, a) (events (prepareRaw E s))).
  { eapply only_not_in; [exact Ho|].
    destruct c; try discriminate Hc; reflexivity. }
  destruct (flow (prepareRaw E s)) as [x | z | |] eqn:Efl;
    try (rewrite events_triple in Hin; contradiction).
  cbn zeta in Hin. rewrite events_triple in Hin.
  apply in_app_or in Hin. destruct Hin as [Hin | Hin]; [contradiction|].
  destruct (prepareRaw_next E s x Efl) as (res & t & u & l & Hm & Ht & Hx & Hv).
  subst x. cbn [fst] in Hin.
  destruct (mountRawFs_run E (isVisibleForWrite E (vol s))
              (final (prepareRaw E s)))
    as (m & _ & Hok & Hfail); [rewrite Hv; exact Ht|].
  exists res, t, u, l. split; [apply doMount_events_incl; exact Hm|].
  split; [exact Ht|].
  rewrite Hv in Hok, Hfail. simpl in Hok, Hfail.
  destruct (Z.eq_dec m 0) as [Hz | Hnz].
  - destruct (Hok Hz) as [_ Hev]. rewrite Hev in Hin.
    pick Hin. injection Hin as <- _. reflexivity.
  - destruct (Hfail Hnz) as [_ Hev]. rewrite Hev in Hin.
    pick Hin.
    + injection Hin as <- _. reflexivity.
    + injection Hin as <- _. discriminate Hc.
Qed.

(** X9. On a volume that is not visible to apps [doMount] is over after the
    raw mount and the secure-app staging: it makes no call of the overlay,
    of the FUSE stage or of the bind fan-out, and once the raw mount has
    answered OK it returns OK, whatever the staging did; the volume's path
    is then the raw mount point itself. *)
Theorem doMount_not_visible E fuel (s : St E) :
  let r := doMount E fuel s in
  isVisibleForWrite E (vol s) = false ->
  only rawOrAsecCalls (events r)
  /\ (forall c,
        isRawMount c = true -> In (c, RInt 0) (events r) ->
        flow r = Return OK
        /\ exists res t u l,
             In (ReadMetadataUntrusted (mDevPath (vol s)), RMeta res t u l)
                (events r)
             /\ vol (final r) = withPaths false t u l (vol s)).
Proof.
  cbn zeta. intros Hvis.
  pose proof (doMount_events_raw E fuel s) as Hraw.
  rewrite doMount_after_asec in *. rewrite bind_run in *.
  destruct (mountRaw_obeys E s) as (Ho & _).
  apply (only_weaken _ _ _ (rawOrAsecCalls_raw)) in Ho.
  destruct (flow (mountRaw E s)) as [x | z | |] eqn:Efl.
  - destruct (mountRaw_next E s x Efl) as (res & t & u & l & Hm & Ht & Hx & Hv & _).
    cbn zeta in Hx, Hv. rewrite Hvis in Hx, Hv. subst x.
    cbn zeta. rewrite bind_run.
    destruct (stageAsec_run E (final (mountRaw E s))) as (Hfl & _).
    destruct (stageAsec_obeys E (final (mountRaw E s))) as (Ha & _).
    apply (only_weaken _ _ _ (rawOrAsecCalls_asec)) in Ha.
    assert (Hafter : forall n s', afterAsec E fuel (false, n) s'
                                  = (Return OK, s', [])) by reflexivity.
    rewrite Hfl. cbn zeta. rewrite Hafter.
    rewrite !flow_triple, !final_triple, !events_triple.
    rewrite app_nil_r.
    split; [apply only_app; assumption|].
    intros c Hc Hin. split; [reflexivity|].
    exists res, t, u, l. split.
    + apply in_or_app. left. unfold mountRaw. apply bind_events_incl. exact Hm.
    + rewrite (stageAsec_preserves E (fun v => v)). exact Hv.
  - rewrite flow_triple, final_triple, events_triple in *.
    split; [exact Ho|]. intros c Hc Hin.
    destruct (mountRaw_mounted E s c Hc Hin) as (x & pre & Hfl & _).
    congruence.
  - rewrite flow_triple, final_triple, events_triple in *.
    split; [exact Ho|]. intros c Hc Hin.
    destruct (mountRaw_mounted E s c Hc Hin) as (x & pre & Hfl & _).
    congruence.
  - rewrite flow_triple, final_triple, events_triple in *.
    split; [exact Ho|]. intros c Hc Hin.
    destruct (mountRaw_mounted E s c Hc Hin) as (x & pre & Hfl & _).
    congruence.
Qed.

(** ** doMount: from the overlay to the FUSE mount *)

Section Bridge.

Variable E : Env.

(** The poll loop falls through only on a poll that saw another device. *)
Lemma waitForSdcardFs_next fuel before start path (s : St E) :
  let r := waitForSdcardFs E fuel before start path s in
  flow r = Next tt ->
  exists polls cur,
    events r = polls ++ [(GetDevice path, RInt cur)]
    /\ cur <> before
    /\ only pollCalls polls.
Proof.
  cbn zeta. revert s. induction fuel as [|fuel IH]; intros [v w]; simpl.
  - discriminate.
  - unfold_m. simpl. oracle. simpl.
    destruct (before =? r) eqn:Eb; simpl.
    + oracle. simpl. oracle. simpl.
      destruct (nanoseconds_to_milliseconds (r1 - start) >? 5000); simpl;
        [discriminate|].
      specialize (IH (v, w2)).
      destruct (waitForSdcardFs E fuel before start path (v, w2))
        as [[fl s1] t1].
      unfold_m. simpl in *. intros Hfl.
      destruct (IH Hfl) as (polls & cur & -> & Hc & Ho).
      eexists (_ :: _ :: _ :: _ :: polls), cur.
      split; [reflexivity|]. split; [exact Hc|].
      repeat (apply only_cons; [reflexivity|]). exact Ho.
    + intros _. exists [], r. split; [reflexivity|].
      apply Z.eqb_neq in Eb. split; [congruence | constructor].
Qed.

(** Lines 485-537 fall through only in the parent, after a poll that saw
    another device on the overlay path; the child is then waited for. *)
Lemma spinUpSdcardFs_next fuel name (s : St E) :
  let r := spinUpSdcardFs E fuel name s in
  let p := mSdcardFsFull (vol s) in
  flow r = Next tt ->
  exists before pid start polls cur x,
    events r =
      (GetDevice p, RInt before) :: (fork, RInt pid) :: (systemTime, RInt start)
      :: polls ++ [(GetDevice p, RInt cur); (waitpid pid, RInt x)]
    /\ cur <> before
    /\ only pollCalls polls.
Proof.
  cbn zeta. destruct s as [v w].
  unfold spinUpSdcardFs, sdcardFsChild. unfold_m. simpl.
  oracle. simpl. oracle. simpl.
  destruct (r0 =? 0) eqn:E0; simpl.
  { exec; discriminate. }
  destruct (r0 =? -1) eqn:E1; simpl.
  { exec; discriminate. }
  oracle. simpl.
  pose proof (waitForSdcardFs_next fuel r r1 (mSdcardFsFull v) (v, w2)) as Hw.
  cbn zeta in Hw.
  destruct (waitForSdcardFs E fuel r r1 (mSdcardFsFull v) (v, w2))
    as [[fl s1] t1].
  unfold_m. simpl in *. destruct fl as [[] | | |]; simpl; try discriminate.
  destruct (Hw eq_refl) as (polls & cur & -> & Hc & Ho).
  oracle. simpl. intros _.
  exists r, r0, r1, polls, cur, r2. rewrite <- app_assoc.
  repeat split; assumption.
Qed.

Lemma bind_this {X} (k : PublicVolume -> M E X) s :
  bind this k s = k (vol s) s.
Proof.
  unfold bind, this. destruct (k (vol s) s) as [[fl s2] t2]. reflexivity.
Qed.

Lemma final_ret {X} (x : X) (s : St E) : final (ret x s) = s.
Proof. reflexivity. Qed.

Lemma events_ret {X} (x : X) (s : St E) : events (ret x s) = [].
Proof. reflexivity. Qed.

(** A sequence falls through only if both parts do. *)
Lemma bind_next {X Y} (m : M E X) (k : X -> M E Y) s y :
  flow (bind m k s) = Next y ->
  exists x,
    flow (m s) = Next x
    /\ flow (k x (final (m s))) = Next y
    /\ final (bind m k s) = final (k x (final (m s)))
    /\ events (bind m k s) = events (m s) ++ events (k x (final (m s))).
Proof.
  rewrite bind_run. destruct (flow (m s)) as [x | z | |];
    try (rewrite flow_triple; discriminate).
  cbn zeta. rewrite flow_triple, final_triple, events_triple.
  intros H. exists x. repeat split. exact H.
Qed.

Lemma prepareSdcardFsDirs_obeys :
  obeys notFork (prepareSdcardFsDirs E).
Proof.
  unfold prepareSdcardFsDirs. obey. apply any_fails_obeys. repeat constructor.
Qed.

Lemma startSdcardFs_next fuel name (s : St E) :
  let r := startSdcardFs E fuel name s in
  let p := mSdcardFsFull (vol s) in
  flow r = Next tt ->
  mUseSdcardFs (vol s) = true ->
  exists pre before pid start polls cur x,
    events r =
      pre ++ (GetDevice p, RInt before) :: (fork, RInt pid)
          :: (systemTime, RInt start)
          :: polls ++ [(GetDevice p, RInt cur); (waitpid pid, RInt x)]
    /\ cur <> before
    /\ only pollCalls polls.
Proof.
  cbn zeta. intros Hfl Hu. revert Hfl.
  unfold startSdcardFs. rewrite bind_this, Hu, bind_run.
  assert (Hp : vol (final (prepareSdcardFsDirs E s)) = vol s).
  { unfold prepareSdcardFsDirs. rewrite bind_this.
    set (k := bind _ _).
    assert (Hk : preserves (fun v => v) k)
      by (unfold k; keep; apply any_fails_preserves).
    apply Hk. }
  destruct (flow (prepareSdcardFsDirs E s)) as [[] | | |];
    try (rewrite flow_triple; discriminate).
  cbn zeta. rewrite flow_triple, events_triple. simpl app.
  intros Hfl.
  destruct (spinUpSdcardFs_next fuel name _ Hfl)
    as (before & pid & start & polls & cur & x & Hev & Hc & Ho).
  rewrite Hp in Hev.
  exists (events (prepareSdcardFsDirs E s)), before, pid, start, polls, cur, x.
  rewrite Hev. repeat split; assumption.
Qed.

(** The stages before the FUSE mount fall through only on a visible
    volume whose raw mount succeeded; the object then has the paths derived
    from the stable name, and with sdcardfs in use the last thing done was
    to wait for the overlay and to reap the sdcard process. *)
Lemma beforeFuse_next fuel (s : St E) name :
  let r := beforeFuse E fuel s in
  flow r = Next name ->
  exists res t u l,
    In (ReadMetadataUntrusted (mDevPath (vol s)), RMeta res t u l) (events r)
    /\ name = (if String.eqb u EmptyString then getId (vol s) else u)
    /\ vol (final r) = withPaths true t u l (vol s)
    /\ (mUseSdcardFs (vol s) = true ->
        exists pre before pid start polls cur x,
          let p := "/mnt/runtime/full/" +++ name in
          events r =
            pre ++ (GetDevice p, RInt before) :: (fork, RInt pid)
                :: (systemTime, RInt start)
                :: polls ++ [(GetDevice p, RInt cur); (waitpid pid, RInt x)]
          /\ cur <> before
          /\ only pollCalls polls).
Proof.
  cbn zeta. unfold beforeFuse. intros Hfl.
  apply bind_next in Hfl as (x & Hraw & Hfl & -> & ->).
  apply bind_next in Hfl as ([] & Hasec & Hfl & -> & ->).
  apply bind_next in Hfl as ([] & Hvis & Hfl & -> & ->).
  apply bind_next in Hfl as ([] & Hstart & Hfl & -> & ->).
  destruct (mountRaw_next E s x Hraw) as (res & t & u & l & Hm & Ht & Hx & Hv & _).
  cbn zeta in Hx, Hv. subst x. cbn [fst snd] in *.
  set (nm := if String.eqb u EmptyString then getId (vol s) else u) in *.
  pose proof (stageAsec_preserves E (fun v => v) (final (mountRaw E s))) as Hva.
  cbn beta in Hva.
  set (s1 := final (stageAsec E (final (mountRaw E s)))) in *.
  destruct (isVisibleForWrite E (vol s)) eqn:Evis; [|discriminate Hvis].
  cbn [negb] in *. rewrite !final_ret, !events_ret in *.
  injection Hfl as <-.
  pose proof (startSdcardFs_preserves E (fun v => v) fuel nm s1) as Hvs.
  cbn beta in Hvs.
  exists res, t, u, l.
  split.
  { apply in_or_app. left. unfold mountRaw. apply bind_events_incl. exact Hm. }
  split; [reflexivity|]. split; [rewrite Hvs, Hva; exact Hv|].
  intros Hu.
  destruct (startSdcardFs_next fuel nm s1 Hstart)
    as (pre & before & pid & start & polls & cur & x & Hev & Hc & Ho);
    [rewrite Hva, Hv; exact Hu |].
  rewrite Hva, Hv in Hev. cbn [withPaths mSdcardFsFull set_mSdcardFs setPath
    setInternalPath set_base] in Hev.
  exists (events (mountRaw E s)
          ++ events (stageAsec E (final (mountRaw E s))) ++ pre),
    before, pid, start, polls, cur, x.
  split; [|split; assumption].
  rewrite Hev. simpl app. rewrite !app_nil_r, <- !app_assoc. reflexivity.
Qed.

(** The one [MountUserFuse] call of the FUSE stage: it is made for the
    owner on the internal path; if it answers 0 and the readiness check
    does not fail, the volume is flagged as mounted and OK is returned. *)
Lemma fuseOnward_muf name (s : St E) u l n a :
  let r := fuseOnward E name s in
  In (MountUserFuse u l n, a) (events r) ->
  u = getMountUserId (vol s) /\ l = getInternalPath (vol s) /\ n = name
  /\ (a = RInt 0 ->
      (forall p1 p2, ~ In (onVolumeChecking p1 p2, RBool false) (events r)) ->
      flow r = Return OK /\ vol (final r) = set_mFuseMounted true (vol s)).
Proof.
  cbn zeta. intros Hin.
  destruct (fuseOnward_cases E name s)
    as (res & [(Hres & s1 & Hv & Hr) | [(Hres & s2 & Hv & Hr)
                | (Hres & ready & tail & Hready & Hev & Hfl & Hvol & Ho & _)]]).
  - rewrite Hr in *. rewrite events_triple in Hin.
    pick Hin.
    + injection Hin as <- <- <- <-. do 3 (split; [reflexivity|]).
      intros Ha. injection Ha as ->. contradiction.
    + exfalso. eapply not_in_doUnmount in Hin; [exact Hin | reflexivity].
  - rewrite Hr in *. rewrite events_triple in Hin.
    pick Hin.
    + injection Hin as <- <- <- <-. do 3 (split; [reflexivity|]).
      intros _ Hno. exfalso. eapply Hno. rewrite events_triple.
      right. right. left. reflexivity.
    + exfalso. eapply not_in_doUnmount in Hin; [exact Hin | reflexivity].
  - rewrite Hev in Hin. pick Hin.
    + injection Hin as <- <- <- <-. do 3 (split; [reflexivity|]).
      intros _ _. split; assumption.
    + exfalso. apply in_app_or in Hin. destruct Hin as [Hin | Hin].
      * destruct Hready as [-> | ->]; pick Hin.
      * eapply only_not_in in Hin; [exact Hin | exact Ho | reflexivity].
Qed.

End Bridge.

(** X10. With sdcardfs in use the FUSE mount comes after the overlay is up:
    before any [MountUserFuse] the sdcard process was forked, the device
    of the overlay path /mnt/runtime/full/<stable name> was polled until it
    had changed, and the process was reaped. *)
Theorem doMount_fuse_after_sdcardfs E fuel (s : St E) u l n a :
  let r := doMount E fuel s in
  In (MountUserFuse u l n, a) (events r) ->
  mUseSdcardFs (vol s) = true ->
  exists pre before pid start polls cur x post,
    let p := "/mnt/runtime/full/" +++ n in
    events r =
      (pre ++ (GetDevice p, RInt before) :: (fork, RInt pid)
           :: (systemTime, RInt start)
           :: polls ++ [(GetDevice p, RInt cur); (waitpid pid, RInt x)])
      ++ post
    /\ cur <> before
    /\ only pollCalls polls
    /\ only notMountUserFuse pre
    /\ In (MountUserFuse u l n, a) post.
Proof.
  cbn zeta. intros Hin Hu. revert Hin.
  rewrite doMount_split, bind_run.
  destruct (beforeFuse_obeys E fuel s) as (Ho & _).
  pose proof (beforeFuse_next E fuel s) as Hn. cbn zeta in Hn.
  destruct (flow (beforeFuse E fuel s)) as [name | z | |];
    try (rewrite events_triple; intros Hin; exfalso;
         solve [eapply only_not_in in Hin; [exact Hin | exact Ho | reflexivity]]).
  cbn zeta. rewrite events_triple. fold (fuseOnward E name).
  intros Hin. apply in_app_or in Hin. destruct Hin as [Hin | Hin].
  { exfalso. eapply only_not_in in Hin; [exact Hin | exact Ho | reflexivity]. }
  destruct (fuseOnward_muf E name _ u l n a Hin) as (_ & _ & -> & _).
  destruct (Hn name eq_refl) as (res & t & uu & lbl & _ & _ & _ & Hs).
  destruct (Hs Hu) as (pre & before & pid & start & polls & cur & x & Hev & Hc & Hp).
  exists pre, before, pid, start, polls, cur, x,
    (events (fuseOnward E name (final (beforeFuse E fuel s)))).
  cbn zeta. rewrite <- Hev. repeat split; try assumption.
  rewrite Hev in Ho. unfold only in *. rewrite Forall_app in Ho.
  destruct Ho as [Ho _]. revert Ho. apply Forall_impl.
  intros [c y]. apply beforeFuseCalls_notMountUserFuse.
Qed.

(** X11. When [MountUserFuse] has answered 0 and the readiness check (if a
    callback is registered) has not failed, [doMount] returns OK with the
    volume flagged as FUSE-mounted; the mount was made for the owner of the
    volume, on the raw mount point /mnt/media_rw/<stable name> and under
    the stable name, and the object holds the paths derived from that name,
    /storage/<stable name> being the path of the volume. *)
Theorem doMount_mounted_state E fuel (s : St E) u l n :
  let r := doMount E fuel s in
  In (MountUserFuse u l n, RInt 0) (events r) ->
  (forall p1 p2, ~ In (onVolumeChecking p1 p2, RBool false) (events r)) ->
  flow r = Return OK
  /\ u = getMountUserId (vol s)
  /\ l = "/mnt/media_rw/" +++ n
  /\ exists res t uu lbl,
       In (ReadMetadataUntrusted (mDevPath (vol s)), RMeta res t uu lbl)
          (events r)
       /\ n = (if String.eqb uu EmptyString then getId (vol s) else uu)
       /\ vol (final r) = set_mFuseMounted true (withPaths true t uu lbl (vol s)).
Proof.
  cbn zeta. rewrite doMount_split, bind_run.
  destruct (beforeFuse_obeys E fuel s) as (Ho & _ & Hown).
  pose proof (beforeFuse_next E fuel s) as Hn. cbn zeta in Hn.
  destruct (flow (beforeFuse E fuel s)) as [name | z | |];
    try (rewrite events_triple; intros Hin; exfalso;
         solve [eapply only_not_in in Hin; [exact Hin | exact Ho | reflexivity]]).
  cbn zeta. rewrite flow_triple, final_triple, events_triple.
  fold (fuseOnward E name).
  intros Hin Hno. apply in_app_or in Hin. destruct Hin as [Hin | Hin].
  { exfalso. eapply only_not_in in Hin; [exact Hin | exact Ho | reflexivity]. }
  destruct (fuseOnward_muf E name _ u l n _ Hin) as (-> & -> & -> & Hok).
  destruct Hok as [Hfl Hvol]; [reflexivity | |].
  { intros p1 p2 Hc. apply (Hno p1 p2). apply in_or_app. right. exact Hc. }
  destruct (Hn name eq_refl) as (res & t & uu & lbl & Hm & Hname & Hv & _).
  split; [exact Hfl|]. split; [exact Hown|].
  split; [rewrite Hv, Hname; reflexivity|].
  exists res, t, uu, lbl.
  split; [apply in_or_app; left; exact Hm|].
  split; [exact Hname|]. rewrite Hvol, Hv. reflexivity.
Qed.

(** X12. [doMount] never changes what identifies the volume: its id, device and
    device node, its mount flags and owner, the registered listener and
    callback, and whether sdcardfs is used; not even when it rolls back. *)
Theorem doMount_keeps_identity E fuel (s : St E) :
  identity (vol (final (doMount E fuel s))) = identity (vol s).
Proof. apply doMount_identity. Qed.

(** X13. [doUnmount] clears the raw path, the overlay paths and the FUSE flag at
    most: the path and the internal path of the volume (fields of the base
    class), the metadata and the identity of the volume are never written,
    whatever the unmount calls answer. *)
Theorem doUnmount_keeps_paths_and_metadata E (s : St E) :
  let v := vol (final (doUnmount E s)) in
  getPath v = getPath (vol s)
  /\ getInternalPath v = getInternalPath (vol s)
  /\ (mFsType v, mFsUuid v, mFsLabel v)
     = (mFsType (vol s), mFsUuid (vol s), mFsLabel (vol s))
  /\ identity v = identity (vol s).
Proof.
  cbn zeta. pose proof (doUnmount_frame E s) as H.
  pose proof (doUnmount_identity E s) as Hid.
  unfold unmountFrame in H. injection H as Hb _ _ Ht Hu Hl _.
  unfold getPath, getInternalPath. rewrite Hb, Ht, Hu, Hl.
  repeat split. exact Hid.
Qed.

(** X14. When [MountUserFuse] fails on a volume that was not flagged as
    FUSE-mounted, the rollback of [doMount] goes through all stages of
    [doUnmount]: the raw path is cleared again, and so are the overlay paths
    if sdcardfs is in use, while the path and the internal path of the
    volume stay as [doMount] has set them. *)
Theorem doMount_rollback_state E fuel (s : St E) u l n res :
  let r := doMount E fuel s in
  In (MountUserFuse u l n, RInt res) (events r) ->
  res <> 0 ->
  mFuseMounted (vol s) = false ->
  exists rs t uu lbl,
    In (ReadMetadataUntrusted (mDevPath (vol s)), RMeta rs t uu lbl) (events r)
    /\ vol (final r) = unmounted (withPaths true t uu lbl (vol s))
    /\ mRawPath (vol (final r)) = EmptyString
    /\ getPath (vol (final r))
       = "/storage/" +++ (if String.eqb uu EmptyString then getId (vol s) else uu).
Proof.
  cbn zeta. rewrite doMount_split, bind_run.
  destruct (beforeFuse_obeys E fuel s) as (Ho & _).
  pose proof (beforeFuse_next E fuel s) as Hn. cbn zeta in Hn.
  destruct (flow (beforeFuse E fuel s)) as [name | z | |];
    try (rewrite events_triple; intros Hin; exfalso;
         solve [eapply only_not_in in Hin; [exact Hin | exact Ho | reflexivity]]).
  cbn zeta. rewrite final_triple, events_triple.
  fold (fuseOnward E name).
  intros Hin Hres Hoff. apply in_app_or in Hin. destruct Hin as [Hin | Hin].
  { exfalso. eapply only_not_in in Hin; [exact Hin | exact Ho | reflexivity]. }
  destruct (Hn name eq_refl) as (rs & t & uu & lbl & Hm & Hname & Hv & _).
  exists rs, t, uu, lbl. split; [apply in_or_app; left; exact Hm|].
  assert (Hfin : vol (final (fuseOnward E name (final (beforeFuse E fuel s))))
                 = unmounted (withPaths true t uu lbl (vol s))).
  { destruct (fuseOnward_cases E name (final (beforeFuse E fuel s)))
      as (res' & [(Hres' & s1 & Hv1 & Hr) | [(Hres' & s2 & Hv2 & Hr)
                  | (Hres' & ready & tail & Hready & Hev & _ & _ & Hot & _)]]).
    - rewrite Hr. rewrite final_triple.
      destruct (doUnmount_cases E s1) as (k & s1' & Hv1' & _ & Hnext).
      destruct (unmountFuse_run E s1') as [Hskip _].
      rewrite Hv1', Hv1, Hv in Hskip. specialize (Hskip Hoff).
      destruct Hnext as (_ & Hvol & _); [rewrite Hskip; reflexivity|].
      rewrite Hvol, Hv1, Hv. reflexivity.
    - exfalso. rewrite Hr, events_triple in Hin. pick Hin.
      + injection Hin as _ _ _ Hz. congruence.
      + eapply not_in_doUnmount in Hin; [exact Hin | reflexivity].
    - exfalso. rewrite Hev in Hin. pick Hin.
      + injection Hin as _ _ _ Hz. congruence.
      + apply in_app_or in Hin. destruct Hin as [Hin | Hin].
        * destruct Hready as [-> | ->]; pick Hin.
        * eapply only_not_in in Hin; [exact Hin | exact Hot | reflexivity]. }
  rewrite Hfin. repeat split.
  unfold unmounted.
  destruct (mUseSdcardFs (withPaths true t uu lbl (vol s))); reflexivity.
Qed.

(** ** Examples *)


Lemma doFormat_result_witness :
  exists pre x,
    events (doFormat Faults.format_fails "vfat" (Sim.volume 5 false, 0))
    = pre ++ [(vfat_Format "/dev/block/vold/public:8,1" 0, RInt (-1));
              (LOG ERROR ("public:8,1" +++ " failed to format"), RUnit);
              (read_errno, RInt x)]
    /\ flow (doFormat Faults.format_fails "vfat" (Sim.volume 5 false, 0))
       = Return (- x).
Proof.
  destruct (doFormat_result Faults.format_fails (Sim.volume 5 false, 0) "vfat"
              (vfat_Format "/dev/block/vold/public:8,1" 0) (-1) eq_refl)
    as (_ & pre & _ & _ & [(H & _) | (_ & x & Hev & Hfl)]).
  - vm_compute. tauto.
  - discriminate H.
  - exists pre, x. split; [exact Hev | exact Hfl].
Defined.

Lemma doFormat_size_query_failure_witness :
  flow (doFormat Faults.no_size "auto" (Sim.volume 5 false, 0)) = Return (-22).
Proof.
  apply (doFormat_size_query_failure Faults.no_size (Sim.volume 5 false, 0)
           "auto" "/dev/block/vold/public:8,1" (-22) 0).
  - vm_compute. tauto.
  - discriminate.
Defined.

Lemma doMount_setup_failure_witness :
  exists pre msg x,
    events (doMount Faults.no_dirs 0 (Inputs.primary, 0))
    = pre ++ [(fs_prepare_dir "/mnt/media_rw/1234-ABCD" 448 AID_ROOT AID_ROOT,
               RInt (-1));
              (PLOG ERROR msg, RUnit); (read_errno, RInt x)]
    /\ flow (doMount Faults.no_dirs 0 (Inputs.primary, 0)) = Return (- x).
Proof.
  apply (doMount_setup_failure Faults.no_dirs 0 (Inputs.primary, 0)
           (fs_prepare_dir "/mnt/media_rw/1234-ABCD" 448 AID_ROOT AID_ROOT,
            RInt (-1))).
  - vm_compute. tauto.
  - reflexivity.
Defined.

Lemma doMount_check_or_mount_failure_witness :
  only rawCalls (events (doMount Faults.dirty 0 (Inputs.primary, 0))).
Proof.
  apply (doMount_check_or_mount_failure Faults.dirty 0 (Inputs.primary, 0)
           (vfat_Check "/dev/block/vold/public:8,1", RInt 4)).
  - vm_compute. tauto.
  - reflexivity.
Defined.


Lemma doMount_unsupported_filesystem_witness :
  flow (doMount Faults.ext4_card 0 (Inputs.primary, 0)) = Return (- EIO).
Proof.
  apply (doMount_unsupported_filesystem Faults.ext4_card 0 (Inputs.primary, 0)
           "/dev/block/vold/public:8,1" 0 "ext4" "57f8f4bc" EmptyString).
  - vm_compute. tauto.
  - left. discriminate.
  - left. discriminate.
Defined.

Lemma doMount_raw_mount_arguments_witness :
  exists res t u l,
    In (ReadMetadataUntrusted "/dev/block/vold/public:8,1", RMeta res t u l)
       (events (doMount (Inputs.card 0) 0 (Faults.hidden, 0)))
    /\ (t = "vfat" \/ t = "exfat")
    /\ vfat_Mount "/dev/block/vold/public:8,1" "/mnt/media_rw/1234-ABCD"
         false false false AID_ROOT AID_EXTERNAL_STORAGE 7 true
       = rawMount t "/dev/block/vold/public:8,1"
           ("/mnt/media_rw/"
            +++ (if String.eqb u EmptyString then "public:8,1" else u))
           false.
Proof.
  apply (doMount_raw_mount_arguments (Inputs.card 0) 0 (Faults.hidden, 0)
           (vfat_Mount "/dev/block/vold/public:8,1" "/mnt/media_rw/1234-ABCD"
              false false false AID_ROOT AID_EXTERNAL_STORAGE 7 true)
           (RInt 0) eq_refl).
  vm_compute. tauto.
Defined.

Lemma doMount_not_visible_witness :
  flow (doMount (Inputs.card 0) 0 (Faults.hidden, 0)) = Return OK.
Proof.
  destruct (doMount_not_visible (Inputs.card 0) 0 (Faults.hidden, 0) eq_refl)
    as [_ H].
  apply (H (vfat_Mount "/dev/block/vold/public:8,1" "/mnt/media_rw/1234-ABCD"
              false false false AID_ROOT AID_EXTERNAL_STORAGE 7 true) eq_refl).
  vm_compute. tauto.
Defined.

Lemma doMount_fuse_after_sdcardfs_witness :
  exists pre before pid start polls cur x post,
    events (doMount Faults.slow_start 10 (Sim.volume 5 true, 0)) =
      (pre ++ (GetDevice "/mnt/runtime/full/1234-ABCD", RInt before)
           :: (fork, RInt pid) :: (systemTime, RInt start)
           :: polls ++ [(GetDevice "/mnt/runtime/full/1234-ABCD", RInt cur);
                        (waitpid pid, RInt x)])
      ++ post
    /\ cur <> before.
Proof.
  destruct (doMount_fuse_after_sdcardfs Faults.slow_start 10
              (Sim.volume 5 true, 0) 0 "/mnt/media_rw/1234-ABCD" "1234-ABCD"
              (RInt 0))
    as (pre & before & pid & start & polls & cur & x & post & Hev & Hc & _).
  - vm_compute. tauto.
  - reflexivity.
  - exists pre, before, pid, start, polls, cur, x, post.
    split; [exact Hev | exact Hc].
Defined.

Lemma doMount_mounted_state_witness :
  flow (doMount Inputs.three_users 0 (Inputs.primary, 0)) = Return OK.
Proof.
  apply (doMount_mounted_state Inputs.three_users 0 (Inputs.primary, 0)
           0 "/mnt/media_rw/1234-ABCD" "1234-ABCD").
  - vm_compute. tauto.
  - apply no_failed_check. vm_compute. reflexivity.
Defined.

Lemma doMount_rollback_state_witness :
  mRawPath (vol (final (doMount Inputs.fuse_fails 0 (Inputs.primary, 0))))
  = EmptyString.
Proof.
  destruct (doMount_rollback_state Inputs.fuse_fails 0 (Inputs.primary, 0)
              0 "/mnt/media_rw/1234-ABCD" "1234-ABCD" 5)
    as (rs & t & uu & lbl & _ & _ & H & _).
  - vm_compute. tauto.
  - discriminate.
  - reflexivity.
  - exact H.
Defined.

(** * The daemon *)

Import Vold.
Open Scope daemon_scope.

Ltac vunfold :=
  unfold Vold.bind, Vold.ret, Vold.abort, Vold.get, Vold.modify, Vold.call,
    Vold.ask, Vold.proc, Vold.read_fstab, Vold.update_logical, Vold.log,
    Vold.when, Vold.andalso, Vold.orelse, outcome, globals, trace in *.

Ltac voracle :=
  match goal with
  | |- context [p_bool ?P ?c ?w] =>
      let b := fresh "b" in let w' := fresh "w" in
      destruct (p_bool P c w) as [b w'] eqn:?
  | |- context [p_int ?P ?c ?w] =>
      let r := fresh "r" in let w' := fresh "w" in
      destruct (p_int P c w) as [r w'] eqn:?
  | |- context [p_update ?P ?c ?w] =>
      let w' := fresh "w" in
      destruct (p_update P c w) as [[? ?] w'] eqn:?
  | |- context [p_fstab ?P ?w] =>
      let w' := fresh "w" in
      destruct (p_fstab P w) as [[? ?] w'] eqn:?
  end.

Ltac vexec := repeat (first [voracle | branch]; simpl).

(** ** process_config *)

Section Config.

Variable P : Platform.

Lemma vbind_run {G X Y} (m : V P G X) (k : X -> V P G Y) s :
  Vold.bind m k s =
  match outcome (m s) with
  | Value x =>
      let r' := k x (snd (fst (m s))) in
      (outcome r', snd (fst r'), trace (m s) ++ trace r')
  | Aborted => (Aborted, snd (fst (m s)), trace (m s))
  end.
Proof.
  unfold Vold.bind, outcome, trace. destruct (m s) as [[o s1] t1]. simpl.
  destruct o; try reflexivity. destruct (k a s1) as [[o2 s2] t2]. reflexivity.
Qed.

Lemma outcome_triple {G X} (o : Outcome X) (s : G * Outside P) t :
  outcome (o, s, t) = o.
Proof. reflexivity. Qed.

Lemma globals_triple {G X} (o : Outcome X) (s : G * Outside P) t :
  globals (o, s, t) = fst s.
Proof. reflexivity. Qed.

Lemma trace_triple {G X} (o : Outcome X) (s : G * Outside P) t :
  trace (o, s, t) = t.
Proof. reflexivity. Qed.

Lemma flagsAfter_nil c : flagsAfter [] c = c.
Proof.
  destruct c. unfold flagsAfter. simpl. rewrite !orb_false_r. reflexivity.
Qed.

Lemma flagsAfter_cons e es c :
  flagsAfter (e :: es) c = flagsAfter es (flagsAfter [e] c).
Proof.
  unfold flagsAfter. simpl. rewrite !orb_false_r, !orb_assoc. reflexivity.
Qed.

(** The body of the loop for one entry: it ends in [abort()] exactly when
    the update of a logical partition has failed for an entry without
    [no_fail]; otherwise it has raised the flags of the entry and added one
    disk source if the entry is managed and removable, none if it is not. *)
Lemma process_entry_run e (s : VoldConfigs * Outside P) :
  let r := process_entry P e s in
  (outcome r = Value tt ->
   globals r = flagsAfter [e] (fst s)
   /\ Forall2 (sourceOf P) (if managed e then [e] else []) (added (trace r))
   /\ existsb isFatalUpdate (trace r) = false)
  /\ (outcome r = Aborted ->
      exists pre ev msg,
        trace r = pre ++ [ev; (PLOG FATAL msg, Done)]
        /\ isFatalUpdate ev = true
        /\ existsb isFatalUpdate pre = false).
Proof.
  destruct s as [c w].
  destruct e as [blk mnt lbl mkd rs [q fc lg nf vm nr ne]].
  cbn zeta. run_as (process_entry P
    (mkFstabEntry blk mnt lbl mkd rs (mkFsMgrFlags q fc lg nf vm nr ne)) (c, w)).
  unfold process_entry, flagsAfter, managed, sourceOf. vunfold. simpl.
  destruct c as [ca cq cr cc].
  vexec; intros ? ->; simpl; (split; intros Ho; try discriminate Ho).
  all: try (split;
              [unfold set_has_compress, set_has_reserved, set_has_quota; simpl;
               rewrite ?orb_true_r, ?orb_false_r; reflexivity|];
            split;
              [repeat constructor; intros; try discriminate; tauto
              | rewrite ?orb_false_r; first [assumption | reflexivity]]).
  all: match goal with
       | |- exists pre ev msg, ?t = _ /\ _ =>
           exists (removelast (removelast t))
       end; simpl; eexists _, _; (split; [reflexivity|]);
       simpl; split; [assumption | reflexivity].
Qed.

Lemma added_app t1 t2 : added (t1 ++ t2) = added t1 ++ added t2.
Proof.
  induction t1 as [|[c a] t1 IH]; [reflexivity|].
  destruct c; simpl; rewrite IH; reflexivity.
Qed.

Lemma for_each_entry_run es (s : VoldConfigs * Outside P) :
  let r := for_each_entry P es s in
  (outcome r = Value tt ->
   globals r = flagsAfter es (fst s)
   /\ Forall2 (sourceOf P) (filter managed es) (added (trace r))
   /\ existsb isFatalUpdate (trace r) = false)
  /\ (outcome r = Aborted ->
      exists pre ev msg,
        trace r = pre ++ [ev; (PLOG FATAL msg, Done)]
        /\ isFatalUpdate ev = true
        /\ existsb isFatalUpdate pre = false).
Proof.
  cbn zeta. revert s. induction es as [|e es IH]; intros s.
  - simpl. split; [|discriminate]. intros _. rewrite flagsAfter_nil.
    repeat split. constructor.
  - cbn [for_each_entry]. rewrite vbind_run.
    destruct (process_entry_run e s) as [Hval Hab].
    destruct (outcome (process_entry P e s)) as [[]|] eqn:Eo.
    + destruct (Hval eq_refl) as (Hg & Hsrc & Hno). clear Hval Hab.
      cbn zeta. rewrite !outcome_triple, !globals_triple, !trace_triple.
      cbn [fst snd].
      specialize (IH (snd (fst (process_entry P e s)))).
      destruct IH as [IHval IHab].
      unfold globals in Hg, IHval. rewrite Hg in IHval.
      split.
      * intros Ho. destruct (IHval Ho) as (Hg' & Hsrc' & Hno').
        split; [rewrite flagsAfter_cons; exact Hg'|].
        rewrite added_app, existsb_app, Hno, Hno'.
        split; [|reflexivity].
        cbn [filter]. destruct (managed e).
        -- change (e :: filter managed es) with ([e] ++ filter managed es).
           apply Forall2_app; assumption.
        -- change (filter managed es) with ([] ++ filter managed es).
           apply Forall2_app; assumption.
      * intros Ho. destruct (IHab Ho) as (pre & ev & msg & Ht & Hev & Hpre).
        exists (trace (process_entry P e s) ++ pre), ev, msg.
        rewrite Ht, app_assoc, existsb_app, Hno, Hpre. repeat split. exact Hev.
    + rewrite !outcome_triple, !trace_triple.
      split; [discriminate|]. intros _. apply Hab. reflexivity.
Qed.

(** [process_config] by the answer of [ReadDefaultFstab]. *)
Lemma process_config_read (s : VoldConfigs * Outside P) entries w :
  p_fstab P (snd s) = ((true, entries), w) ->
  process_config P s =
  let c := mkVoldConfigs false false false false in
  let r' := for_each_entry P entries (c, w) in
  (match outcome r' with
   | Value _ => Value 0
   | Aborted => Aborted
   end, snd (fst r'), (ReadDefaultFstab, Fstab true entries) :: trace r').
Proof.
  intros H. destruct s as [c w0]. simpl in H.
  unfold process_config, Vold.bind, read_fstab, modify, Vold.ret. simpl.
  rewrite H. simpl. unfold outcome, trace.
  destruct (for_each_entry P entries _) as [[[[]|] s1] t1]; simpl;
    rewrite ?app_nil_r; reflexivity.
Qed.

Lemma process_config_unread (s : VoldConfigs * Outside P) entries w :
  p_fstab P (snd s) = ((false, entries), w) ->
  process_config P s =
  (Value (-1), (fst s, w),
   [(ReadDefaultFstab, Fstab false entries);
    (PLOG ERROR "Failed to open default fstab", Done)]).
Proof.
  intros H. destruct s as [c w0]. simpl in H.
  unfold process_config, Vold.bind, read_fstab, Vold.log, Vold.ret. simpl.
  rewrite H. reflexivity.
Qed.

End Config.

Lemma existsb_last {A} (f : A -> bool) pre x :
  existsb f (pre ++ [x]) = existsb f pre || f x.
Proof. rewrite existsb_app. simpl. rewrite orb_false_r. reflexivity. Qed.

(** X15. When the fstab has been read, [process_config] returns 0 unless it is
    aborted, and it leaves the flags as the entries dictate: [has_quota] if
    some entry has the quota flag, [has_reserved] if some entry reserves
    space, [has_compress] if some entry has the compression flag, whatever
    the flags were before; [has_adoptable] is always false. *)
Theorem process_config_flags P (s : VoldConfigs * Outside P) entries w z :
  let r := process_config P s in
  p_fstab P (snd s) = ((true, entries), w) ->
  outcome r = Value z ->
  z = 0
  /\ globals r =
       mkVoldConfigs false
         (existsb (fun e => quota (fs_mgr_flags e)) entries)
         (existsb (fun e => reserved_size e >? 0) entries)
         (existsb (fun e => fs_compress (fs_mgr_flags e)) entries).
Proof.
  cbn zeta. intros H. rewrite (process_config_read P s entries w H).
  cbn zeta. rewrite outcome_triple, globals_triple.
  destruct (for_each_entry_run P entries
              (mkVoldConfigs false false false false, w)) as [Hval _].
  destruct (outcome (for_each_entry P entries _)) as [[]|]; [|discriminate].
  destruct (Hval eq_refl) as (Hg & _). intros Hz. injection Hz as <-.
  split; [reflexivity|]. exact Hg.
Qed.


(** X17. [process_config] is aborted exactly when the update of a logical
    partition has failed for an entry that is not marked [no_fail]; the
    failed update and the FATAL line are then the last two entries of the
    run, so that no later entry of the fstab is looked at.  If it returns,
    it returns 0, or -1 when the fstab could not be read; in that case
    nothing else was done and the flags are as they were. *)
Theorem process_config_outcome P (s : VoldConfigs * Outside P) :
  let r := process_config P s in
  (outcome r = Aborted <-> existsb isFatalUpdate (trace r) = true)
  /\ (outcome r = Aborted ->
      exists pre ev msg,
        trace r = pre ++ [ev; (PLOG FATAL msg, Done)]
        /\ isFatalUpdate ev = true)
  /\ (forall z,
        outcome r = Value z ->
        (z = 0 /\ fst (fst (p_fstab P (snd s))) = true)
        \/ (z = -1 /\ fst (fst (p_fstab P (snd s))) = false
            /\ globals r = fst s /\ added (trace r) = [])).
Proof.
  cbn zeta. destruct (p_fstab P (snd s)) as [[ok entries] w] eqn:Ef.
  destruct ok.
  - rewrite (process_config_read P s entries w Ef). cbn zeta.
    rewrite outcome_triple, trace_triple.
    destruct (for_each_entry_run P entries
                (mkVoldConfigs false false false false, w)) as [Hval Hab].
    destruct (outcome (for_each_entry P entries _)) as [[]|].
    + destruct (Hval eq_refl) as (_ & _ & Hno). simpl. rewrite Hno.
      split; [split; discriminate|]. split; [discriminate|].
      intros z Hz. injection Hz as <-. left. split; reflexivity.
    + destruct (Hab eq_refl) as (pre & ev & msg & Ht & Hev & Hpre).
      split; [|split].
      * split; [|reflexivity]. intros _. rewrite Ht. simpl.
        rewrite existsb_app. simpl. rewrite Hev. apply orb_true_r.
      * intros _. exists ((ReadDefaultFstab, Fstab true entries) :: pre), ev, msg.
        rewrite Ht. split; [reflexivity | exact Hev].
      * discriminate.
  - rewrite (process_config_unread P s entries w Ef).
    rewrite outcome_triple, trace_triple, globals_triple. simpl.
    split; [split; discriminate|]. split; [discriminate|].
    intros z Hz. injection Hz as <-. right. repeat split.
Qed.

(** ** VoldLogger *)

Section Logger.

Variable P : Platform.

(** One line: it goes to logd; if it is a warning or worse and the early
    boot is not over, /data/misc/vold is looked for, and the line goes to
    the kernel log as well unless the early boot is found to be over. *)
Lemma VoldLogger_run l (s : bool * Outside P) :
  let r := VoldLogger P l s in
  let look a := (access "/data/misc/vold" F_OK, Int a) in
  outcome r = Value tt
  /\ exists rest,
       trace r = (logd_logger l, Done) :: rest
       /\ ((rank (severity l) < rank WARNING \/ fst s = true) ->
           rest = [] /\ globals r = fst s)
       /\ (rank WARNING <= rank (severity l) -> fst s = false ->
           (exists a, a <> 0 /\ rest = [look a; (KernelLogger l, Done)]
                      /\ globals r = false)
           \/ (rest = [look 0; (fscrypt_init_user0_done, Bool false);
                       (KernelLogger l, Done)]
               /\ globals r = false)
           \/ (rest = [look 0; bootDone] /\ globals r = true)).
Proof.
  destruct s as [done w]. cbn zeta. unfold VoldLogger. vunfold. simpl.
  voracle. simpl.
  destruct (3 <=? rank (severity l)) eqn:Er; simpl;
    [apply Z.leb_le in Er | apply Z.leb_gt in Er].
  - destruct done; simpl.
    + split; [reflexivity|]. exists []. split; [reflexivity|].
      split; [intros _; split; reflexivity | intros _ H; discriminate H].
    + voracle. simpl. destruct (r0 =? 0) eqn:Ea; simpl;
        [apply Z.eqb_eq in Ea; subst r0 | apply Z.eqb_neq in Ea].
      * voracle. simpl. destruct b; simpl.
        -- split; [reflexivity|]. eexists. split; [reflexivity|].
           split; [intros [H | H]; [lia | discriminate H]|].
           intros _ _. right. right. split; reflexivity.
        -- voracle. simpl. split; [reflexivity|]. eexists.
           split; [reflexivity|].
           split; [intros [H | H]; [lia | discriminate H]|].
           intros _ _. right. left. split; reflexivity.
      * voracle. simpl. split; [reflexivity|]. eexists.
        split; [reflexivity|].
        split; [intros [H | H]; [lia | discriminate H]|].
        intros _ _. left. exists r0. repeat split. exact Ea.
  - split; [reflexivity|]. exists []. split; [reflexivity|].
    split; [intros _; split; reflexivity | intros H; lia].
Qed.

Lemma logAll_cons l ls (s : bool * Outside P) :
  logAll P (l :: ls) s =
  let r' := logAll P ls (snd (fst (VoldLogger P l s))) in
  (outcome r', snd (fst r'), trace (VoldLogger P l s) ++ trace r').
Proof.
  cbn [logAll]. rewrite vbind_run.
  destruct (VoldLogger_run l s) as [-> _]. reflexivity.
Qed.

(** Once the early boot is over, the lines go to logd and nowhere else. *)
Lemma logAll_done ls (s : bool * Outside P) :
  fst s = true ->
  trace (logAll P ls s) = map (fun l => (logd_logger l, Done)) ls
  /\ globals (logAll P ls s) = true.
Proof.
  revert s. induction ls as [|l ls IH]; intros s Hs.
  - split; [reflexivity | exact Hs].
  - rewrite logAll_cons. cbn zeta. rewrite trace_triple, globals_triple.
    destruct (VoldLogger_run l s) as (_ & rest & Ht & Hquiet & _).
    destruct Hquiet as [-> Hg]; [right; exact Hs|].
    unfold globals in Hg. rewrite Hs in Hg.
    destruct (IH (snd (fst (VoldLogger P l s))) Hg) as [IHt IHg].
    rewrite Ht, IHt. split; [reflexivity | exact IHg].
Qed.

End Logger.

Lemma last_marker {A} (a b m : A) pre post :
  a <> m -> b <> m -> [a; b; m] = pre ++ m :: post -> post = [].
Proof.
  intros Ha Hb H. destruct pre as [|p0 [|p1 [|p2 pre]]]; simpl in H;
    inversion H; subst; try congruence.
  destruct pre; discriminate.
Qed.

(** X18. The early boot ends once: after [fscrypt_init_user0_done] has been read
    as true, every line goes to logd and nowhere else, and the line at
    which it was read does not reach the kernel log either. *)
Theorem VoldLogger_latch P ls (s : bool * Outside P) pre post :
  trace (logAll P ls s) = pre ++ bootDone :: post ->
  Forall (fun e => isLogd e = true) post
  /\ globals (logAll P ls s) = true.
Proof.
  revert s pre. induction ls as [|l ls IH]; intros s pre.
  - simpl. intros H. destruct pre; discriminate H.
  - rewrite logAll_cons. cbn zeta. rewrite trace_triple, globals_triple.
    destruct (VoldLogger_run P l s) as (_ & rest & Ht & Hquiet & Hloud).
    set (s1 := snd (fst (VoldLogger P l s))) in *.
    assert (Hlater : forall t1,
              ~ In bootDone t1 ->
              t1 ++ trace (logAll P ls s1) = pre ++ bootDone :: post ->
              Forall (fun e => isLogd e = true) post
              /\ fst (snd (fst (logAll P ls s1))) = true).
    { intros t1 Hnot H. apply app_eq_app in H.
      destruct H as (m & [[H1 H2] | [H1 H2]]).
      - destruct m as [|e m].
        + rewrite app_nil_r in H1. simpl in H2. symmetry in H2.
          apply (IH s1 []). exact H2.
        + exfalso. apply Hnot. rewrite H1. apply in_or_app. right.
          injection H2 as <- _. left. reflexivity.
      - apply (IH s1 m). exact H2. }
    destruct (Z_lt_le_dec (rank (severity l)) (rank WARNING)) as [Hr | Hr].
    { destruct Hquiet as [-> _]; [left; exact Hr|]. rewrite Ht.
      apply Hlater. intros [H | []]. discriminate H. }
    destruct (fst s) eqn:Es.
    { destruct Hquiet as [-> _]; [right; reflexivity|]. rewrite Ht.
      apply Hlater. intros [H | []]. discriminate H. }
    destruct (Hloud Hr eq_refl)
      as [(a & Ha & -> & _) | [(-> & _) | (-> & Hg)]]; rewrite Ht.
    + apply Hlater. intros H. pick H.
    + apply Hlater. intros H. pick H.
    + destruct (logAll_done P ls s1 Hg) as [Hlog Hfin].
      unfold globals in Hfin. rewrite Hlog. intros H.
      assert (Hmap : forall x,
                In x (map (fun l => (logd_logger l, Done)) ls) ->
                isLogd x = true).
      { intros x Hx. apply in_map_iff in Hx. destruct Hx as (l' & <- & _).
        reflexivity. }
      apply app_eq_app in H. destruct H as (m & [[H1 H2] | [H1 H2]]).
      * destruct m as [|e m].
        -- exfalso. simpl in H2.
           assert (Hb : isLogd bootDone = true)
             by (apply Hmap; rewrite <- H2; left; reflexivity).
           discriminate Hb.
        -- injection H2 as He Hp. subst e post.
           apply last_marker in H1; [|discriminate ..]. subst m.
           split; [|exact Hfin]. rewrite Forall_forall. exact Hmap.
      * exfalso.
        assert (Hb : isLogd bootDone = true)
          by (apply Hmap; rewrite H2; apply in_or_app; right; left; reflexivity).
        discriminate Hb.
Qed.


(** ** parse_args *)

Lemma switch_option_other c d optarg g :
  c <> d -> selected d (switch_option c optarg g) = selected d g.
Proof.
  intros Hcd. unfold selected, switch_option.
  destruct (Z.eqb_spec c (code "b")), (Z.eqb_spec c (code "B")),
    (Z.eqb_spec c (code "f")), (Z.eqb_spec c (code "F"));
    destruct (Z.eqb_spec d (code "b")), (Z.eqb_spec d (code "B")),
      (Z.eqb_spec d (code "f")), (Z.eqb_spec d (code "F"));
    try reflexivity; try congruence.
Qed.

Lemma switch_option_same c optarg g :
  selected c g <> None -> selected c (switch_option c optarg g) = Some optarg.
Proof.
  unfold selected, switch_option.
  destruct (Z.eqb_spec c (code "b")) as [-> | ?]; [reflexivity|].
  destruct (Z.eqb_spec c (code "B")) as [-> | ?]; [reflexivity|].
  destruct (Z.eqb_spec c (code "f")) as [-> | ?]; [reflexivity|].
  destruct (Z.eqb_spec c (code "F")) as [-> | ?]; [reflexivity|].
  intros H. contradiction.
Qed.

Lemma getopt_loop_other answers c g :
  (forall e, In e answers -> fst e <> c) ->
  selected c (getopt_loop answers g) = selected c g.
Proof.
  revert g. induction answers as [|[d optarg] answers IH]; intros g H.
  - reflexivity.
  - cbn [getopt_loop]. rewrite IH by (intros e He; apply H; right; exact He).
    apply switch_option_other. apply (H (d, optarg)). left. reflexivity.
Qed.

Lemma getopt_loop_app a1 a2 g :
  getopt_loop (a1 ++ a2) g = getopt_loop a2 (getopt_loop a1 g).
Proof.
  revert g. induction a1 as [|[c optarg] a1 IH]; intros g; [reflexivity|].
  simpl. apply IH.
Qed.

(** X20. The last occurrence of an option decides: the variable that the option
    character names holds the argument of the last answer of [getopt_long]
    with that character, whatever came before and whatever other options
    come after; an answer that is none of the four characters changes
    nothing. *)
Theorem parse_args_last_wins answers pre c optarg post g :
  answers = pre ++ (c, optarg) :: post ->
  (forall e, In e post -> fst e <> c) ->
  (selected c g <> None ->
   selected c (getopt_loop answers g) = Some optarg)
  /\ (selected c g = None ->
      getopt_loop answers g = getopt_loop (pre ++ post) g).
Proof.
  intros -> Hpost. rewrite !getopt_loop_app. cbn [getopt_loop]. split.
  - intros Hsel. rewrite getopt_loop_other by exact Hpost.
    apply switch_option_same.
    unfold selected in *.
    destruct (c =? code "b"), (c =? code "B"), (c =? code "f"),
      (c =? code "F"); try discriminate; contradiction.
  - intros Hsel. f_equal. unfold selected, switch_option in *.
    destruct (c =? code "b"), (c =? code "B"), (c =? code "f"),
      (c =? code "F"); try discriminate; reflexivity.
Qed.

Lemma getopt_loop_set answers c g x :
  selected c (getopt_loop answers g) = Some (Some x) ->
  selected c g = Some (Some x) \/ In (c, Some x) answers.
Proof.
  revert g. induction answers as [|[d optarg] answers IH]; intros g H.
  - left. exact H.
  - cbn [getopt_loop] in H. destruct (IH _ H) as [Hs | Hin].
    + destruct (Z.eq_dec d c) as [-> | Hdc].
      * rewrite switch_option_same in Hs.
        -- injection Hs as ->. right. left. reflexivity.
        -- unfold selected, switch_option in *.
           destruct (c =? code "b"), (c =? code "B"), (c =? code "f"),
             (c =? code "F"); try discriminate.
      * rewrite switch_option_other in Hs by exact Hdc. left. exact Hs.
    + right. right. exact Hin.
Qed.

(** X21. [parse_args] comes back only with all four contexts set: started with
    none of them set, it is aborted by a [CHECK] unless each of the four
    options was given with an argument; what it returns is what the loop
    has set. *)
Theorem parse_args_requires_all answers g g' :
  parse_args answers g = Some g' ->
  g' = getopt_loop answers g
  /\ (forall c,
        selected c g' <> None ->
        exists x,
          selected c g' = Some (Some x)
          /\ (selected c g = Some None -> In (c, Some x) answers)).
Proof.
  unfold parse_args. intros H.
  destruct (sBlkidContext (getopt_loop answers g)) as [x1|] eqn:E1;
    [|discriminate H].
  destruct (sBlkidUntrustedContext (getopt_loop answers g)) as [x2|] eqn:E2;
    [|discriminate H].
  destruct (sFsckContext (getopt_loop answers g)) as [x3|] eqn:E3;
    [|discriminate H].
  destruct (sFsckUntrustedContext (getopt_loop answers g)) as [x4|] eqn:E4;
    [|discriminate H].
  simpl in H. injection H as <-. split; [reflexivity|].
  intros c Hc.
  assert (Hx : exists x, selected c (getopt_loop answers g) = Some (Some x)).
  { unfold selected in *.
    destruct (c =? code "b"); [rewrite E1; eauto|].
    destruct (c =? code "B"); [rewrite E2; eauto|].
    destruct (c =? code "f"); [rewrite E3; eauto|].
    destruct (c =? code "F"); [rewrite E4; eauto|].
    contradiction. }
  destruct Hx as [x Hx]. exists x. split; [exact Hx|].
  intros Hnull. destruct (getopt_loop_set answers c g x Hx) as [Hs | Hin].
  - rewrite Hnull in Hs. discriminate Hs.
  - exact Hin.
Qed.

(** ** coldboot *)

Lemma do_coldboot_eq uevent entries lvl :
  do_coldboot (mkDir uevent entries) lvl =
  (if uevent then [openat_uevent true; write_add; close]
   else [openat_uevent false])
  ++ flat_map (enter lvl) entries ++ [readdir None].
Proof.
  cbn [do_coldboot]. f_equal.
  induction entries as [|[name ty node] entries IH]; [reflexivity|].
  cbn [flat_map enter]. rewrite <- app_assoc, <- IH. reflexivity.
Qed.

Lemma visited_eq uevent entries lvl :
  visited (mkDir uevent entries) lvl =
  mkDir uevent entries :: flat_map (below lvl) entries.
Proof.
  cbn [visited]. f_equal.
  induction entries as [|[name ty node] entries IH]; [reflexivity|].
  cbn [flat_map below]. rewrite <- IH. reflexivity.
Qed.

Lemma height_entry uevent entries name ty d2 :
  In (mkDirent name ty (Stream d2)) entries ->
  (height d2 < height (mkDir uevent entries))%nat.
Proof.
  cbn [height]. induction entries as [|[n t nd] entries IH]; intros Hin.
  - destruct Hin.
  - destruct Hin as [Heq | Hin].
    + injection Heq as -> -> ->. lia.
    + specialize (IH Hin). lia.
Qed.

Lemma open_after_app t1 t2 n m :
  open_after t1 n = Some m -> open_after (t1 ++ t2) n = open_after t2 m.
Proof.
  revert n. induction t1 as [|o t1 IH]; intros n; simpl.
  - intros H. injection H as ->. reflexivity.
  - destruct (acquires o); [apply IH|].
    destruct (releases o); [|apply IH].
    destruct n; [discriminate | apply IH].
Qed.

Lemma do_coldboot_balanced k :
  forall d lvl n,
    (height d <= k)%nat -> open_after (do_coldboot d lvl) n = Some n.
Proof.
  induction k as [|k IH]; intros [uevent entries] lvl n Hk.
  - cbn [height] in Hk. lia.
  - rewrite do_coldboot_eq.
    assert (Hhead : open_after
                      (if uevent then [openat_uevent true; write_add; close]
                       else [openat_uevent false]) n = Some n)
      by (destruct uevent; reflexivity).
    rewrite (open_after_app _ _ _ _ Hhead).
    assert (Hes : forall es,
              (forall name ty d2, In (mkDirent name ty (Stream d2)) es ->
                                  (height d2 <= k)%nat) ->
              open_after (flat_map (enter lvl) es) n = Some n).
    { induction es as [|[name ty node] es IHes]; intros Hsub; [reflexivity|].
      cbn [flat_map]. rewrite (open_after_app _ _ n n).
      - apply IHes. intros name' ty' d2 Hin. apply (Hsub name' ty' d2).
        right. exact Hin.
      - unfold enter. cbn [open_after acquires releases].
        destruct (starts_with_dot name); [reflexivity|].
        destruct (negb (ty =? DT_DIR) && (lvl >? 0)); [reflexivity|].
        destruct node as [| | d2]; try reflexivity.
        cbn [app open_after acquires releases].
        rewrite (open_after_app _ [closedir] _ (S n)).
        + reflexivity.
        + apply IH. apply (Hsub name ty d2). left. reflexivity. }
    rewrite (open_after_app _ _ _ n).
    + reflexivity.
    + apply Hes. intros name ty d2 Hin.
      pose proof (height_entry uevent entries name ty d2 Hin). lia.
Qed.

(** X22. [coldboot] leaks no descriptor: in any tree, every descriptor and
    directory stream that is opened is closed again, nothing is closed that
    is not open, and at the end nothing is left open. *)
Theorem coldboot_closes_what_it_opens sys path :
  open_after (coldboot sys path) 0 = Some 0%nat
  /\ forall d lvl n, open_after (do_coldboot d lvl) n = Some n.
Proof.
  assert (H : forall d lvl n, open_after (do_coldboot d lvl) n = Some n)
    by (intros d lvl n; apply (do_coldboot_balanced (height d)); lia).
  split; [|exact H].
  unfold coldboot. destruct (sys path) as [d|]; [|reflexivity].
  cbn [open_after acquires]. rewrite (open_after_app _ _ _ 1%nat (H d 0 1%nat)).
  reflexivity.
Qed.

Lemma do_coldboot_visible k :
  forall d lvl name ok,
    (height d <= k)%nat ->
    In (openat_dir name ok) (do_coldboot d lvl) ->
    starts_with_dot name = false.
Proof.
  induction k as [|k IH]; intros [uevent entries] lvl name ok Hk.
  - cbn [height] in Hk. lia.
  - rewrite do_coldboot_eq. intros Hin.
    apply in_app_or in Hin. destruct Hin as [Hin | Hin].
    { destruct uevent; pick Hin. }
    apply in_app_or in Hin. destruct Hin as [Hin | Hin]; [|pick Hin].
    apply in_flat_map in Hin. destruct Hin as ([n ty node] & Hde & Hin).
    unfold enter in Hin. destruct Hin as [Hin | Hin]; [discriminate Hin|].
    destruct (starts_with_dot n) eqn:Edot; [destruct Hin|].
    destruct (negb (ty =? DT_DIR) && (lvl >? 0)); [destruct Hin|].
    destruct node as [| | d2].
    + pick Hin. injection Hin as <- _. exact Edot.
    + pick Hin. injection Hin as <- _. exact Edot.
    + cbn [app] in Hin.
      destruct Hin as [Hin | Hin]; [injection Hin as <- _; exact Edot|].
      destruct Hin as [Hin | Hin]; [discriminate Hin|].
      apply in_app_or in Hin. destruct Hin as [Hin | Hin]; [|pick Hin].
      apply (IH d2 (lvl + 1) name ok); [|exact Hin].
      pose proof (height_entry uevent entries n ty d2 Hde). lia.
Qed.

(** X23. An entry whose name starts with a dot is never opened, at any depth:
    neither the directory itself, nor its parent, nor a hidden one. *)
Theorem do_coldboot_skips_hidden d lvl name ok :
  In (openat_dir name ok) (do_coldboot d lvl) ->
  starts_with_dot name = false.
Proof. apply (do_coldboot_visible (height d)). lia. Qed.

Lemma do_coldboot_adds k :
  forall d lvl,
    (height d <= k)%nat ->
    List.length (filter is_write (do_coldboot d lvl))
    = List.length (filter has_uevent (visited d lvl)).
Proof.
  induction k as [|k IH]; intros [uevent entries] lvl Hk.
  - cbn [height] in Hk. lia.
  - rewrite do_coldboot_eq, visited_eq.
    rewrite !filter_app, !length_app. cbn [filter has_uevent].
    assert (Hes : forall es,
              (forall name ty d2, In (mkDirent name ty (Stream d2)) es ->
                                  (height d2 <= k)%nat) ->
              List.length (filter is_write (flat_map (enter lvl) es))
              = List.length (filter has_uevent (flat_map (below lvl) es))).
    { induction es as [|[name ty node] es IHes]; intros Hsub; [reflexivity|].
      cbn [flat_map]. rewrite !filter_app, !length_app.
      rewrite IHes by (intros n' t' d2 Hin; apply (Hsub n' t' d2); right;
                       exact Hin).
      f_equal. unfold enter, below. cbn [filter is_write].
      destruct (starts_with_dot name); [reflexivity|].
      destruct (negb (ty =? DT_DIR) && (lvl >? 0)); [reflexivity|].
      destruct node as [| | d2]; try reflexivity.
      cbn [app filter is_write]. rewrite filter_app, length_app.
      cbn [filter is_write List.length]. rewrite Nat.add_0_r.
      apply IH. apply (Hsub name ty d2). left. reflexivity. }
    rewrite Hes.
    + destruct uevent; simpl; lia.
    + intros name ty d2 Hin.
      pose proof (height_entry uevent entries name ty d2 Hin). lia.
Qed.

(** X24. The "add" event is written once into the [uevent] file of every
    directory that [do_coldboot] enters and whose [uevent] file can be
    opened, and nowhere else: the directories entered are the one it is
    called on and, at each level, the entries that are not hidden, that are
    directories (at the top level also what is not, /sys/block holding
    symbolic links) and that can be opened. *)
Theorem do_coldboot_adds_each_device d lvl :
  List.length (filter is_write (do_coldboot d lvl))
  = List.length (filter has_uevent (visited d lvl)).
Proof. apply (do_coldboot_adds (height d)). lia. Qed.

(** ** Examples for the daemon *)

Lemma process_config_flags_witness :
  globals (process_config (board true fstab_example 0 true)
             (mkVoldConfigs true true true true, 0))
  = mkVoldConfigs false true true true.
Proof.
  destruct (process_config_flags (board true fstab_example 0 true)
              (mkVoldConfigs true true true true, 0) fstab_example 0 0)
    as [_ H].
  - reflexivity.
  - vm_compute. reflexivity.
  - exact H.
Defined.


Lemma VoldLogger_latch_witness :
  let ls := [entry_of WARNING "Failed to find key"; entry_of ERROR "mount failed";
             entry_of ERROR "late"] in
  globals (logAll (board true [] 4 true) ls (false, 0)) = true.
Proof.
  cbn zeta.
  apply (VoldLogger_latch (board true [] 4 true)
           [entry_of WARNING "Failed to find key"; entry_of ERROR "mount failed";
            entry_of ERROR "late"]
           (false, 0)
           [(logd_logger (entry_of WARNING "Failed to find key"), Done);
            (access "/data/misc/vold" F_OK, Int (-1));
            (KernelLogger (entry_of WARNING "Failed to find key"), Done);
            (logd_logger (entry_of ERROR "mount failed"), Done);
            (access "/data/misc/vold" F_OK, Int 0)]
           [(logd_logger (entry_of ERROR "late"), Done)]).
  vm_compute. reflexivity.
Defined.

Lemma parse_args_last_wins_witness :
  selected (code "b")
    (getopt_loop [(code "b", Some "u:r:blkid:s0"); (code "f", Some "u:r:fsck:s0");
                  (code "b", Some "u:r:blkid2:s0"); (63, None)]
       (mkContexts None None None None))
  = Some (Some "u:r:blkid2:s0").
Proof.
  destruct (parse_args_last_wins
              [(code "b", Some "u:r:blkid:s0"); (code "f", Some "u:r:fsck:s0");
               (code "b", Some "u:r:blkid2:s0"); (63, None)]
              [(code "b", Some "u:r:blkid:s0"); (code "f", Some "u:r:fsck:s0")]
              (code "b") (Some "u:r:blkid2:s0") [(63, None)]
              (mkContexts None None None None)) as [H _].
  - reflexivity.
  - intros e [<- | []]. discriminate.
  - apply H. discriminate.
Defined.

Lemma parse_args_requires_all_witness :
  exists x,
    In (code "F", Some x)
       [(code "b", Some "u:r:blkid:s0"); (code "B", Some "u:r:blkid_untrusted:s0");
        (code "f", Some "u:r:fsck:s0"); (code "F", Some "u:r:fsck_untrusted:s0")].
Proof.
  destruct (parse_args_requires_all
              [(code "b", Some "u:r:blkid:s0");
               (code "B", Some "u:r:blkid_untrusted:s0");
               (code "f", Some "u:r:fsck:s0");
               (code "F", Some "u:r:fsck_untrusted:s0")]
              (mkContexts None None None None)
              (mkContexts (Some "u:r:blkid:s0") (Some "u:r:blkid_untrusted:s0")
                 (Some "u:r:fsck:s0") (Some "u:r:fsck_untrusted:s0")))
    as [_ H].
  - reflexivity.
  - destruct (H (code "F")) as (x & _ & Hin); [discriminate|].
    exists x. apply Hin. reflexivity.
Defined.

Lemma do_coldboot_skips_hidden_witness : starts_with_dot "sda1" = false.
Proof.
  apply (do_coldboot_skips_hidden sys_block 0 "sda1" true).
  vm_compute. tauto.
Defined.
